(** * RacemonitorRaceSnatcher: the race-timing handler, embedded and verified

    A shallow embedding of [src/lib/RaceTimeHandlerModule.py]: the time codec
    of [Competitor], the [Session] store with its ordering engine and
    gap/diff computation, and the record dispatcher and snapshot builder of
    [RaceTimingHandler]; and, by their control flow, the key retriever of
    [src/lib/GetRaceMonitorKeyModule.py], the script function of
    [src/lib/GetRaceMonitorKey.py] and the constructor of
    [src/lib/CustomLogger.py].

    Modelling conventions.
    - Python [str] values are [string]s of 8-bit characters, and the
      character classes ([str.isdigit], [str.strip], [int]) are the ASCII
      parts of the Python ones.  Python [int] is [Z], without the
      interpreter's limit of 4300 digits on the numerals that [int] reads
      and that formatting writes.
    - So the model follows the program on the frames that are [plain]: ASCII
      text of at most 4300 characters.  On other text [str.isdigit] holds of
      more characters, of which [int] converts some (the digits of other
      scripts) and refuses others (a superscript two), and [int] refuses a
      numeral of more than 4300 digits; where the program guards the
      conversion by [try] (the position key, the time codec) a refusal
      gives the default, but in the RACE sort key and in
      [_calculate_time_difference] the [ValueError] leaves
      [handle_session_update], which [process_data] calls outside its
      [try]: the frame's records are applied, and the order, the gaps, the
      flags and both tables stay as the last completed update left them.
      The model converts where the program raises.  Statements that need the
      update of every frame to have completed are therefore made of plain
      frames, by the hypothesis [plain_frames]; the others hold of the
      program as they stand.  After plain frames the [laps] of every
      competitor is plain (lemma [plain_frames_laps]), so that [int]
      converts it whenever [isdigit] holds of it, and the numbers that the
      program forms stay below the limit.
    - The logger is left out where it only records; [traceback] likewise.
    - A [dict] whose iteration order is observed (the competitor map, which
      feeds a stable sort) is an association list in insertion order; the
      class map, which is only written, is a [gmap].
    - Python objects are shared: [Session.sorted_competitors] holds the very
      [Competitor] objects of [Session.competitors].  An object is created by
      [get_competitor] under its key and is never replaced there, so the key
      serves as the object's reference: [sorted_competitors] is a list of
      keys into the competitor store. *)

From Stdlib Require Import ZArith Lia Ascii String DecimalString DecimalPos
  Sorted.
From stdpp Require Import base option list gmap strings.

Local Open Scope Z_scope.

(** [x |> f |> g]: statements in program order. *)
Notation "x |> f" := (f x) (at level 68, left associativity, only parsing).

(** ** Python string primitives *)

Module PyStr.

(** The ASCII double quote, the character removed by the record parser. *)
Definition dquote : ascii := "034"%char.
Definition newline : ascii := "010"%char.

(** [str.isspace] on one ASCII character: TAB, LF, VT, FF, CR, the four
    separators FS..US, and the blank. *)
Definition is_space (c : ascii) : bool :=
  let n := nat_of_ascii c in
  ((9 <=? n)%nat && (n <=? 13)%nat) || ((28 <=? n)%nat && (n <=? 32)%nat).

Definition is_empty (s : string) : bool :=
  match s with EmptyString => true | String _ _ => false end.

Fixpoint lstrip (s : string) : string :=
  match s with
  | EmptyString => EmptyString
  | String c r => if is_space c then lstrip r else s
  end.

Fixpoint rstrip (s : string) : string :=
  match s with
  | EmptyString => EmptyString
  | String c r =>
      let r' := rstrip r in
      if is_space c && is_empty r' then EmptyString else String c r'
  end.

(** [s.strip()] *)
Definition strip (s : string) : string := rstrip (lstrip s).

(** [s.split(sep)] for a one-character separator: never the empty list. *)
Fixpoint split_on (sep : ascii) (s : string) : list string :=
  match s with
  | EmptyString => [EmptyString]
  | String c r =>
      if Ascii.eqb c sep then EmptyString :: split_on sep r
      else match split_on sep r with
           | h :: t => String c h :: t
           | [] => [String c EmptyString]
           end
  end.

(** [s.replace(c, '')] *)
Fixpoint remove_char (c : ascii) (s : string) : string :=
  match s with
  | EmptyString => EmptyString
  | String a r =>
      if Ascii.eqb a c then remove_char c r else String a (remove_char c r)
  end.

(** [c in s] *)
Fixpoint contains (c : ascii) (s : string) : bool :=
  match s with
  | EmptyString => false
  | String a r => Ascii.eqb a c || contains c r
  end.

Definition digit_val (c : ascii) : option Z :=
  let n := nat_of_ascii c in
  if (48 <=? n)%nat && (n <=? 57)%nat then Some (Z.of_nat (n - 48)) else None.

Definition is_digit (c : ascii) : bool :=
  match digit_val c with Some _ => true | None => false end.

Fixpoint all_digits (s : string) : bool :=
  match s with
  | EmptyString => true
  | String c r => is_digit c && all_digits r
  end.

(** [s.isdigit()] on ASCII text: non-empty and every character one of
    [0]..[9].  On other text the Python method holds of more characters
    (superscripts, the digits of other scripts). *)
Definition isdigit (s : string) : bool := negb (is_empty s) && all_digits s.

(** The digits of a decimal literal after its first digit: digits, with
    single underscores allowed between them. *)
Fixpoint int_tail (acc : Z) (after_underscore : bool) (s : string) : option Z :=
  match s with
  | EmptyString => if after_underscore then None else Some acc
  | String c r =>
      match digit_val c with
      | Some d => int_tail (acc * 10 + d) false r
      | None =>
          if Ascii.eqb c "_"%char
          then (if after_underscore then None else int_tail acc true r)
          else None
      end
  end.

Definition int_body (s : string) : option Z :=
  match s with
  | EmptyString => None
  | String c r =>
      match digit_val c with
      | Some d => int_tail d false r
      | None => None
      end
  end.

(** The white space that [int] skips at both ends of an ASCII string: TAB,
    LF, VT, FF, CR and the blank, without the four separators FS..US that
    [str.strip] removes. *)
Definition is_int_space (c : ascii) : bool :=
  let n := nat_of_ascii c in
  ((9 <=? n)%nat && (n <=? 13)%nat) || (n =? 32)%nat.

Fixpoint int_lstrip (s : string) : string :=
  match s with
  | EmptyString => EmptyString
  | String c r => if is_int_space c then int_lstrip r else s
  end.

Fixpoint int_rstrip (s : string) : string :=
  match s with
  | EmptyString => EmptyString
  | String c r =>
      let r' := int_rstrip r in
      if is_int_space c && is_empty r' then EmptyString else String c r'
  end.

(** [int(s)] in base ten: surrounding white space, an optional sign, then
    the digits.  [None] stands for the [ValueError]. *)
Definition py_int (s : string) : option Z :=
  match int_rstrip (int_lstrip s) with
  | EmptyString => None
  | String c r =>
      if Ascii.eqb c "+"%char then int_body r
      else if Ascii.eqb c "-"%char then Z.opp <$> int_body r
      else int_body (String c r)
  end.

(** [str(n)] *)
Definition str_of_Z (n : Z) : string := NilZero.string_of_int (Z.to_int n).

Fixpoint zeros (n : nat) : string :=
  match n with O => EmptyString | S k => String "0"%char (zeros k) end.

(** [format(n, '0{w}d')]: the sign first, then zeros up to width [w]. *)
Definition fmt_d (w : nat) (n : Z) : string :=
  let sign := if n <? 0 then "-"%string else EmptyString in
  let digits := NilZero.string_of_uint (N.to_uint (Z.abs_N n)) in
  sign +:+ zeros (w - String.length sign - String.length digits) +:+ digits.

End PyStr.

Import PyStr.

(** ** Data model *)

Inductive SortMode : Type := RACE | QUALIFYING.

(** [@dataclass Competitor].  The source's field [sort_mode: int] is
    [competitor_sort_mode] here, [sort_mode] being the session's. *)
Record Competitor : Type := Build_Competitor {
  racer_id : string;
  number : string;
  transponder : string;
  first_name : string;
  last_name : string;
  nationality : string;
  additional_data : string;
  category : string;
  category_description : string;
  position : string;
  laps : string;
  total_time : string;
  total_time_milliseconds : Z;
  best_position : string;
  best_lap : string;
  best_time : string;
  best_time_milliseconds : Z;
  last_lap_time : string;
  last_split_time : string;
  data_updated : bool;
  calculated_diff : string;
  calculated_gap : string;
  display_position : string;
  competitor_sort_mode : Z
}.

(** One function per assigned attribute: [assign_f v c] is [c.f = v]. *)
Definition assign_number (v : string) (c : Competitor) : Competitor :=
  {| racer_id := racer_id c; number := v; transponder := transponder c;
     first_name := first_name c; last_name := last_name c;
     nationality := nationality c; additional_data := additional_data c;
     category := category c; category_description := category_description c;
     position := position c; laps := laps c; total_time := total_time c;
     total_time_milliseconds := total_time_milliseconds c;
     best_position := best_position c; best_lap := best_lap c;
     best_time := best_time c;
     best_time_milliseconds := best_time_milliseconds c;
     last_lap_time := last_lap_time c; last_split_time := last_split_time c;
     data_updated := data_updated c; calculated_diff := calculated_diff c;
     calculated_gap := calculated_gap c;
     display_position := display_position c;
     competitor_sort_mode := competitor_sort_mode c |}.

Definition assign_transponder (v : string) (c : Competitor) : Competitor :=
  {| racer_id := racer_id c; number := number c; transponder := v;
     first_name := first_name c; last_name := last_name c;
     nationality := nationality c; additional_data := additional_data c;
     category := category c; category_description := category_description c;
     position := position c; laps := laps c; total_time := total_time c;
     total_time_milliseconds := total_time_milliseconds c;
     best_position := best_position c; best_lap := best_lap c;
     best_time := best_time c;
     best_time_milliseconds := best_time_milliseconds c;
     last_lap_time := last_lap_time c; last_split_time := last_split_time c;
     data_updated := data_updated c; calculated_diff := calculated_diff c;
     calculated_gap := calculated_gap c;
     display_position := display_position c;
     competitor_sort_mode := competitor_sort_mode c |}.

Definition assign_first_name (v : string) (c : Competitor) : Competitor :=
  {| racer_id := racer_id c; number := number c; transponder := transponder c;
     first_name := v; last_name := last_name c; nationality := nationality c;
     additional_data := additional_data c; category := category c;
     category_description := category_description c; position := position c;
     laps := laps c; total_time := total_time c;
     total_time_milliseconds := total_time_milliseconds c;
     best_position := best_position c; best_lap := best_lap c;
     best_time := best_time c;
     best_time_milliseconds := best_time_milliseconds c;
     last_lap_time := last_lap_time c; last_split_time := last_split_time c;
     data_updated := data_updated c; calculated_diff := calculated_diff c;
     calculated_gap := calculated_gap c;
     display_position := display_position c;
     competitor_sort_mode := competitor_sort_mode c |}.

Definition assign_last_name (v : string) (c : Competitor) : Competitor :=
  {| racer_id := racer_id c; number := number c; transponder := transponder c;
     first_name := first_name c; last_name := v; nationality := nationality c;
     additional_data := additional_data c; category := category c;
     category_description := category_description c; position := position c;
     laps := laps c; total_time := total_time c;
     total_time_milliseconds := total_time_milliseconds c;
     best_position := best_position c; best_lap := best_lap c;
     best_time := best_time c;
     best_time_milliseconds := best_time_milliseconds c;
     last_lap_time := last_lap_time c; last_split_time := last_split_time c;
     data_updated := data_updated c; calculated_diff := calculated_diff c;
     calculated_gap := calculated_gap c;
     display_position := display_position c;
     competitor_sort_mode := competitor_sort_mode c |}.

Definition assign_nationality (v : string) (c : Competitor) : Competitor :=
  {| racer_id := racer_id c; number := number c; transponder := transponder c;
     first_name := first_name c; last_name := last_name c; nationality := v;
     additional_data := additional_data c; category := category c;
     category_description := category_description c; position := position c;
     laps := laps c; total_time := total_time c;
     total_time_milliseconds := total_time_milliseconds c;
     best_position := best_position c; best_lap := best_lap c;
     best_time := best_time c;
     best_time_milliseconds := best_time_milliseconds c;
     last_lap_time := last_lap_time c; last_split_time := last_split_time c;
     data_updated := data_updated c; calculated_diff := calculated_diff c;
     calculated_gap := calculated_gap c;
     display_position := display_position c;
     competitor_sort_mode := competitor_sort_mode c |}.

Definition assign_additional_data (v : string) (c : Competitor) : Competitor :=
  {| racer_id := racer_id c; number := number c; transponder := transponder c;
     first_name := first_name c; last_name := last_name c;
     nationality := nationality c; additional_data := v;
     category := category c; category_description := category_description c;
     position := position c; laps := laps c; total_time := total_time c;
     total_time_milliseconds := total_time_milliseconds c;
     best_position := best_position c; best_lap := best_lap c;
     best_time := best_time c;
     best_time_milliseconds := best_time_milliseconds c;
     last_lap_time := last_lap_time c; last_split_time := last_split_time c;
     data_updated := data_updated c; calculated_diff := calculated_diff c;
     calculated_gap := calculated_gap c;
     display_position := display_position c;
     competitor_sort_mode := competitor_sort_mode c |}.

Definition assign_category (v : string) (c : Competitor) : Competitor :=
  {| racer_id := racer_id c; number := number c; transponder := transponder c;
     first_name := first_name c; last_name := last_name c;
     nationality := nationality c; additional_data := additional_data c;
     category := v; category_description := category_description c;
     position := position c; laps := laps c; total_time := total_time c;
     total_time_milliseconds := total_time_milliseconds c;
     best_position := best_position c; best_lap := best_lap c;
     best_time := best_time c;
     best_time_milliseconds := best_time_milliseconds c;
     last_lap_time := last_lap_time c; last_split_time := last_split_time c;
     data_updated := data_updated c; calculated_diff := calculated_diff c;
     calculated_gap := calculated_gap c;
     display_position := display_position c;
     competitor_sort_mode := competitor_sort_mode c |}.

Definition assign_position (v : string) (c : Competitor) : Competitor :=
  {| racer_id := racer_id c; number := number c; transponder := transponder c;
     first_name := first_name c; last_name := last_name c;
     nationality := nationality c; additional_data := additional_data c;
     category := category c; category_description := category_description c;
     position := v; laps := laps c; total_time := total_time c;
     total_time_milliseconds := total_time_milliseconds c;
     best_position := best_position c; best_lap := best_lap c;
     best_time := best_time c;
     best_time_milliseconds := best_time_milliseconds c;
     last_lap_time := last_lap_time c; last_split_time := last_split_time c;
     data_updated := data_updated c; calculated_diff := calculated_diff c;
     calculated_gap := calculated_gap c;
     display_position := display_position c;
     competitor_sort_mode := competitor_sort_mode c |}.

Definition assign_laps (v : string) (c : Competitor) : Competitor :=
  {| racer_id := racer_id c; number := number c; transponder := transponder c;
     first_name := first_name c; last_name := last_name c;
     nationality := nationality c; additional_data := additional_data c;
     category := category c; category_description := category_description c;
     position := position c; laps := v; total_time := total_time c;
     total_time_milliseconds := total_time_milliseconds c;
     best_position := best_position c; best_lap := best_lap c;
     best_time := best_time c;
     best_time_milliseconds := best_time_milliseconds c;
     last_lap_time := last_lap_time c; last_split_time := last_split_time c;
     data_updated := data_updated c; calculated_diff := calculated_diff c;
     calculated_gap := calculated_gap c;
     display_position := display_position c;
     competitor_sort_mode := competitor_sort_mode c |}.

Definition assign_total_time (v : string) (c : Competitor) : Competitor :=
  {| racer_id := racer_id c; number := number c; transponder := transponder c;
     first_name := first_name c; last_name := last_name c;
     nationality := nationality c; additional_data := additional_data c;
     category := category c; category_description := category_description c;
     position := position c; laps := laps c; total_time := v;
     total_time_milliseconds := total_time_milliseconds c;
     best_position := best_position c; best_lap := best_lap c;
     best_time := best_time c;
     best_time_milliseconds := best_time_milliseconds c;
     last_lap_time := last_lap_time c; last_split_time := last_split_time c;
     data_updated := data_updated c; calculated_diff := calculated_diff c;
     calculated_gap := calculated_gap c;
     display_position := display_position c;
     competitor_sort_mode := competitor_sort_mode c |}.

Definition assign_total_time_milliseconds (v : Z) (c : Competitor) : Competitor :=
  {| racer_id := racer_id c; number := number c; transponder := transponder c;
     first_name := first_name c; last_name := last_name c;
     nationality := nationality c; additional_data := additional_data c;
     category := category c; category_description := category_description c;
     position := position c; laps := laps c; total_time := total_time c;
     total_time_milliseconds := v; best_position := best_position c;
     best_lap := best_lap c; best_time := best_time c;
     best_time_milliseconds := best_time_milliseconds c;
     last_lap_time := last_lap_time c; last_split_time := last_split_time c;
     data_updated := data_updated c; calculated_diff := calculated_diff c;
     calculated_gap := calculated_gap c;
     display_position := display_position c;
     competitor_sort_mode := competitor_sort_mode c |}.

Definition assign_best_position (v : string) (c : Competitor) : Competitor :=
  {| racer_id := racer_id c; number := number c; transponder := transponder c;
     first_name := first_name c; last_name := last_name c;
     nationality := nationality c; additional_data := additional_data c;
     category := category c; category_description := category_description c;
     position := position c; laps := laps c; total_time := total_time c;
     total_time_milliseconds := total_time_milliseconds c; best_position := v;
     best_lap := best_lap c; best_time := best_time c;
     best_time_milliseconds := best_time_milliseconds c;
     last_lap_time := last_lap_time c; last_split_time := last_split_time c;
     data_updated := data_updated c; calculated_diff := calculated_diff c;
     calculated_gap := calculated_gap c;
     display_position := display_position c;
     competitor_sort_mode := competitor_sort_mode c |}.

Definition assign_best_lap (v : string) (c : Competitor) : Competitor :=
  {| racer_id := racer_id c; number := number c; transponder := transponder c;
     first_name := first_name c; last_name := last_name c;
     nationality := nationality c; additional_data := additional_data c;
     category := category c; category_description := category_description c;
     position := position c; laps := laps c; total_time := total_time c;
     total_time_milliseconds := total_time_milliseconds c;
     best_position := best_position c; best_lap := v;
     best_time := best_time c;
     best_time_milliseconds := best_time_milliseconds c;
     last_lap_time := last_lap_time c; last_split_time := last_split_time c;
     data_updated := data_updated c; calculated_diff := calculated_diff c;
     calculated_gap := calculated_gap c;
     display_position := display_position c;
     competitor_sort_mode := competitor_sort_mode c |}.

Definition assign_best_time (v : string) (c : Competitor) : Competitor :=
  {| racer_id := racer_id c; number := number c; transponder := transponder c;
     first_name := first_name c; last_name := last_name c;
     nationality := nationality c; additional_data := additional_data c;
     category := category c; category_description := category_description c;
     position := position c; laps := laps c; total_time := total_time c;
     total_time_milliseconds := total_time_milliseconds c;
     best_position := best_position c; best_lap := best_lap c; best_time := v;
     best_time_milliseconds := best_time_milliseconds c;
     last_lap_time := last_lap_time c; last_split_time := last_split_time c;
     data_updated := data_updated c; calculated_diff := calculated_diff c;
     calculated_gap := calculated_gap c;
     display_position := display_position c;
     competitor_sort_mode := competitor_sort_mode c |}.

Definition assign_best_time_milliseconds (v : Z) (c : Competitor) : Competitor :=
  {| racer_id := racer_id c; number := number c; transponder := transponder c;
     first_name := first_name c; last_name := last_name c;
     nationality := nationality c; additional_data := additional_data c;
     category := category c; category_description := category_description c;
     position := position c; laps := laps c; total_time := total_time c;
     total_time_milliseconds := total_time_milliseconds c;
     best_position := best_position c; best_lap := best_lap c;
     best_time := best_time c; best_time_milliseconds := v;
     last_lap_time := last_lap_time c; last_split_time := last_split_time c;
     data_updated := data_updated c; calculated_diff := calculated_diff c;
     calculated_gap := calculated_gap c;
     display_position := display_position c;
     competitor_sort_mode := competitor_sort_mode c |}.

Definition assign_last_lap_time (v : string) (c : Competitor) : Competitor :=
  {| racer_id := racer_id c; number := number c; transponder := transponder c;
     first_name := first_name c; last_name := last_name c;
     nationality := nationality c; additional_data := additional_data c;
     category := category c; category_description := category_description c;
     position := position c; laps := laps c; total_time := total_time c;
     total_time_milliseconds := total_time_milliseconds c;
     best_position := best_position c; best_lap := best_lap c;
     best_time := best_time c;
     best_time_milliseconds := best_time_milliseconds c; last_lap_time := v;
     last_split_time := last_split_time c; data_updated := data_updated c;
     calculated_diff := calculated_diff c; calculated_gap := calculated_gap c;
     display_position := display_position c;
     competitor_sort_mode := competitor_sort_mode c |}.

Definition assign_data_updated (v : bool) (c : Competitor) : Competitor :=
  {| racer_id := racer_id c; number := number c; transponder := transponder c;
     first_name := first_name c; last_name := last_name c;
     nationality := nationality c; additional_data := additional_data c;
     category := category c; category_description := category_description c;
     position := position c; laps := laps c; total_time := total_time c;
     total_time_milliseconds := total_time_milliseconds c;
     best_position := best_position c; best_lap := best_lap c;
     best_time := best_time c;
     best_time_milliseconds := best_time_milliseconds c;
     last_lap_time := last_lap_time c; last_split_time := last_split_time c;
     data_updated := v; calculated_diff := calculated_diff c;
     calculated_gap := calculated_gap c;
     display_position := display_position c;
     competitor_sort_mode := competitor_sort_mode c |}.

Definition assign_calculated_diff (v : string) (c : Competitor) : Competitor :=
  {| racer_id := racer_id c; number := number c; transponder := transponder c;
     first_name := first_name c; last_name := last_name c;
     nationality := nationality c; additional_data := additional_data c;
     category := category c; category_description := category_description c;
     position := position c; laps := laps c; total_time := total_time c;
     total_time_milliseconds := total_time_milliseconds c;
     best_position := best_position c; best_lap := best_lap c;
     best_time := best_time c;
     best_time_milliseconds := best_time_milliseconds c;
     last_lap_time := last_lap_time c; last_split_time := last_split_time c;
     data_updated := data_updated c; calculated_diff := v;
     calculated_gap := calculated_gap c;
     display_position := display_position c;
     competitor_sort_mode := competitor_sort_mode c |}.

Definition assign_calculated_gap (v : string) (c : Competitor) : Competitor :=
  {| racer_id := racer_id c; number := number c; transponder := transponder c;
     first_name := first_name c; last_name := last_name c;
     nationality := nationality c; additional_data := additional_data c;
     category := category c; category_description := category_description c;
     position := position c; laps := laps c; total_time := total_time c;
     total_time_milliseconds := total_time_milliseconds c;
     best_position := best_position c; best_lap := best_lap c;
     best_time := best_time c;
     best_time_milliseconds := best_time_milliseconds c;
     last_lap_time := last_lap_time c; last_split_time := last_split_time c;
     data_updated := data_updated c; calculated_diff := calculated_diff c;
     calculated_gap := v; display_position := display_position c;
     competitor_sort_mode := competitor_sort_mode c |}.

(** [Competitor(racer_id=racer_id)]: every other field at its default. *)
Definition new_Competitor (racer_id : string) : Competitor :=
  {| racer_id := racer_id; number := ""; transponder := ""; first_name := "";
     last_name := ""; nationality := ""; additional_data := ""; category := "";
     category_description := ""; position := ""; laps := ""; total_time := "";
     total_time_milliseconds := 0; best_position := ""; best_lap := "";
     best_time := ""; best_time_milliseconds := 0; last_lap_time := "";
     last_split_time := ""; data_updated := false; calculated_diff := "";
     calculated_gap := ""; display_position := ""; competitor_sort_mode := 0 |}.

(** [@dataclass RaceClass] *)
Record RaceClass : Type := Build_RaceClass {
  class_id : string;
  description : string
}.

(** [@dataclass Session].  [competitors] is the dict in insertion order;
    [sorted_competitors] lists references (keys) into it. *)
Record Session : Type := Build_Session {
  session_id : string;
  session_name : string;
  track_name : string;
  track_length : string;
  current_time : string;
  session_time : string;
  time_to_go : string;
  laps_to_go : string;
  flag_status : string;
  sort_mode : SortMode;
  classes : gmap string RaceClass;
  competitors : list (string * Competitor);
  sorted_competitors : list string
}.

Definition assign_session_id (v : string) (s : Session) : Session :=
  {| session_id := v; session_name := session_name s;
     track_name := track_name s; track_length := track_length s;
     current_time := current_time s; session_time := session_time s;
     time_to_go := time_to_go s; laps_to_go := laps_to_go s;
     flag_status := flag_status s; sort_mode := sort_mode s;
     classes := classes s; competitors := competitors s;
     sorted_competitors := sorted_competitors s |}.

Definition assign_session_name (v : string) (s : Session) : Session :=
  {| session_id := session_id s; session_name := v;
     track_name := track_name s; track_length := track_length s;
     current_time := current_time s; session_time := session_time s;
     time_to_go := time_to_go s; laps_to_go := laps_to_go s;
     flag_status := flag_status s; sort_mode := sort_mode s;
     classes := classes s; competitors := competitors s;
     sorted_competitors := sorted_competitors s |}.

Definition assign_track_name (v : string) (s : Session) : Session :=
  {| session_id := session_id s; session_name := session_name s;
     track_name := v; track_length := track_length s;
     current_time := current_time s; session_time := session_time s;
     time_to_go := time_to_go s; laps_to_go := laps_to_go s;
     flag_status := flag_status s; sort_mode := sort_mode s;
     classes := classes s; competitors := competitors s;
     sorted_competitors := sorted_competitors s |}.

Definition assign_track_length (v : string) (s : Session) : Session :=
  {| session_id := session_id s; session_name := session_name s;
     track_name := track_name s; track_length := v;
     current_time := current_time s; session_time := session_time s;
     time_to_go := time_to_go s; laps_to_go := laps_to_go s;
     flag_status := flag_status s; sort_mode := sort_mode s;
     classes := classes s; competitors := competitors s;
     sorted_competitors := sorted_competitors s |}.

Definition assign_current_time (v : string) (s : Session) : Session :=
  {| session_id := session_id s; session_name := session_name s;
     track_name := track_name s; track_length := track_length s;
     current_time := v; session_time := session_time s;
     time_to_go := time_to_go s; laps_to_go := laps_to_go s;
     flag_status := flag_status s; sort_mode := sort_mode s;
     classes := classes s; competitors := competitors s;
     sorted_competitors := sorted_competitors s |}.

Definition assign_session_time (v : string) (s : Session) : Session :=
  {| session_id := session_id s; session_name := session_name s;
     track_name := track_name s; track_length := track_length s;
     current_time := current_time s; session_time := v;
     time_to_go := time_to_go s; laps_to_go := laps_to_go s;
     flag_status := flag_status s; sort_mode := sort_mode s;
     classes := classes s; competitors := competitors s;
     sorted_competitors := sorted_competitors s |}.

Definition assign_time_to_go (v : string) (s : Session) : Session :=
  {| session_id := session_id s; session_name := session_name s;
     track_name := track_name s; track_length := track_length s;
     current_time := current_time s; session_time := session_time s;
     time_to_go := v; laps_to_go := laps_to_go s;
     flag_status := flag_status s; sort_mode := sort_mode s;
     classes := classes s; competitors := competitors s;
     sorted_competitors := sorted_competitors s |}.

Definition assign_laps_to_go (v : string) (s : Session) : Session :=
  {| session_id := session_id s; session_name := session_name s;
     track_name := track_name s; track_length := track_length s;
     current_time := current_time s; session_time := session_time s;
     time_to_go := time_to_go s; laps_to_go := v;
     flag_status := flag_status s; sort_mode := sort_mode s;
     classes := classes s; competitors := competitors s;
     sorted_competitors := sorted_competitors s |}.

Definition assign_flag_status (v : string) (s : Session) : Session :=
  {| session_id := session_id s; session_name := session_name s;
     track_name := track_name s; track_length := track_length s;
     current_time := current_time s; session_time := session_time s;
     time_to_go := time_to_go s; laps_to_go := laps_to_go s; flag_status := v;
     sort_mode := sort_mode s; classes := classes s;
     competitors := competitors s; sorted_competitors := sorted_competitors s |}.

Definition assign_sort_mode (v : SortMode) (s : Session) : Session :=
  {| session_id := session_id s; session_name := session_name s;
     track_name := track_name s; track_length := track_length s;
     current_time := current_time s; session_time := session_time s;
     time_to_go := time_to_go s; laps_to_go := laps_to_go s;
     flag_status := flag_status s; sort_mode := v; classes := classes s;
     competitors := competitors s; sorted_competitors := sorted_competitors s |}.

Definition assign_classes (v : gmap string RaceClass) (s : Session) : Session :=
  {| session_id := session_id s; session_name := session_name s;
     track_name := track_name s; track_length := track_length s;
     current_time := current_time s; session_time := session_time s;
     time_to_go := time_to_go s; laps_to_go := laps_to_go s;
     flag_status := flag_status s; sort_mode := sort_mode s; classes := v;
     competitors := competitors s; sorted_competitors := sorted_competitors s |}.

Definition assign_competitors (v : list (string * Competitor)) (s : Session) : Session :=
  {| session_id := session_id s; session_name := session_name s;
     track_name := track_name s; track_length := track_length s;
     current_time := current_time s; session_time := session_time s;
     time_to_go := time_to_go s; laps_to_go := laps_to_go s;
     flag_status := flag_status s; sort_mode := sort_mode s;
     classes := classes s; competitors := v;
     sorted_competitors := sorted_competitors s |}.

Definition assign_sorted_competitors (v : list string) (s : Session) : Session :=
  {| session_id := session_id s; session_name := session_name s;
     track_name := track_name s; track_length := track_length s;
     current_time := current_time s; session_time := session_time s;
     time_to_go := time_to_go s; laps_to_go := laps_to_go s;
     flag_status := flag_status s; sort_mode := sort_mode s;
     classes := classes s; competitors := competitors s;
     sorted_competitors := v |}.

(** [Session()] *)
Definition new_Session : Session :=
  {| session_id := ""; session_name := ""; track_name := ""; track_length := "";
     current_time := ""; session_time := ""; time_to_go := ""; laps_to_go := "";
     flag_status := ""; sort_mode := RACE; classes := ∅; competitors := [];
     sorted_competitors := [] |}.

(** ** Time codec *)

Definition sentinel : string := "00:59:59.999".

(** [while len(parts) < 3: parts.insert(0, 0)] *)
Definition pad_front (parts : list Z) : list Z :=
  replicate (3 - length parts) 0 ++ parts.

(** The body of the [try] block of [convert_time_to_milliseconds] after the
    guard; [None] stands for any exception raised in it (a failed [int], a
    tuple unpacking of the wrong length). *)
Definition parse_clock (time_str : string) : option Z :=
  '(time_part, milliseconds) ←
    (if contains "." time_str
     then match split_on "." time_str with
          | [time_part; ms_part] => ms ← py_int ms_part; Some (time_part, ms)
          | _ => None
          end
     else Some (time_str, 0));
  parts ← mapM py_int (split_on ":" time_part);
  match pad_front parts with
  | [hours; minutes; seconds] =>
      Some (hours * 60 * 60 * 1000 + minutes * 60 * 1000 + seconds * 1000
            + milliseconds)
  | _ => None
  end.

(** [Competitor.convert_time_to_milliseconds]; the [except] branch logs and
    returns 0. *)
Definition convert_time_to_milliseconds (time_str : string) : Z :=
  if is_empty time_str || String.eqb time_str sentinel then 0
  else default 0 (parse_clock time_str).

(** [Competitor.set_total_time] *)
Definition set_total_time (time_str : string) (c : Competitor) : Competitor :=
  if negb (is_empty time_str) && negb (String.eqb time_str sentinel)
  then assign_total_time_milliseconds (convert_time_to_milliseconds time_str)
         (assign_total_time time_str c)
  else assign_total_time_milliseconds 0 (assign_total_time time_str c).

(** [Competitor.set_best_time] *)
Definition set_best_time (time_str : string) (c : Competitor) : Competitor :=
  if negb (is_empty time_str) && negb (String.eqb time_str sentinel)
  then assign_best_time_milliseconds (convert_time_to_milliseconds time_str)
         (assign_best_time time_str c)
  else assign_best_time_milliseconds 0 (assign_best_time time_str c).

(** ** The competitor store *)

Module Dict.

(** [d[k]], [None] when [k not in d]. *)
Fixpoint get {V : Type} (k : string) (d : list (string * V)) : option V :=
match d with
| [] => None
| (k', v) :: r => if String.eqb k k' then Some v else get k r
end.

(** Mutation of the object stored under [k]. *)
Fixpoint update {V : Type} (k : string) (f : V → V) (d : list (string * V))
: list (string * V) :=
match d with
| [] => []
| (k', v) :: r =>
    if String.eqb k k' then (k', f v) :: r else (k', v) :: update k f r
end.

(** [d.keys()] and [d.values()], in insertion order. *)
Definition keys {V : Type} (d : list (string * V)) : list string := d.*1.
Definition values {V : Type} (d : list (string * V)) : list V := d.*2.

End Dict.

(** [Session.get_competitor]: the entry is created when absent; the object
    returned is the one stored under [racer_id], referred to by that key. *)
Definition get_competitor (racer_id : string) (s : Session) : Session :=
  match Dict.get racer_id (competitors s) with
  | Some _ => s
  | None =>
      assign_competitors
        (competitors s ++ [(racer_id, new_Competitor racer_id)]) s
  end.

(** Attribute assignments on the object referred to by [ref]. *)
Definition mutate (ref : string) (f : Competitor → Competitor) (s : Session)
  : Session :=
  assign_competitors (Dict.update ref f (competitors s)) s.

(** ** Ordering engine *)

(** A sort-key component that is an [int] or [float('inf')]. *)
Inductive ext : Type := Finite (n : Z) | Infinite.

#[global] Instance ext_eq_dec : EqDecision ext.
Proof. solve_decision. Defined.

Definition ext_eqb (a b : ext) : bool :=
  match a, b with
  | Finite x, Finite y => x =? y
  | Infinite, Infinite => true
  | _, _ => false
  end.

Definition ext_ltb (a b : ext) : bool :=
  match a, b with
  | Finite x, Finite y => x <? y
  | Finite _, Infinite => true
  | Infinite, _ => false
  end.

(** [x if x > 0 else float('inf')] *)
Definition positive_or_inf (x : Z) : ext :=
  if 0 <? x then Finite x else Infinite.

(** [int(s)] at a string that passed [s.isdigit()]: on plain text it cannot
    raise (lemma [py_int_isdigit] below).  On other text the program can
    raise here where the model converts. *)
Definition int_of (s : string) : Z := default 0 (py_int s).

(** [Session.get_position_number]; the [except] branch returns 9999. *)
Definition get_position_number (position : string) : Z :=
  if negb (is_empty position) && isdigit position
  then default 9999 (py_int position)
  else 9999.

(** [int(c.laps) if c.laps.isdigit() else 0], an expression that the
    program does not guard by [try]: see [int_of]. *)
Definition laps_int (c : Competitor) : Z :=
  if isdigit (laps c) then int_of (laps c) else 0.

(** The key of the RACE branch of [sort_competitors]. *)
Definition race_key (x : Competitor) : Z * Z * ext :=
  (get_position_number (position x),
   if isdigit (laps x) then - int_of (laps x) else 0,
   positive_or_inf (total_time_milliseconds x)).

(** The key of the QUALIFYING branch. *)
Definition qualifying_key (x : Competitor) : ext * Z :=
  (positive_or_inf (best_time_milliseconds x),
   get_position_number (best_position x)).

(** Python's [<] on tuples: the first differing component decides. *)
Definition race_key_ltb (a b : Z * Z * ext) : bool :=
  let '(a1, a2, a3) := a in
  let '(b1, b2, b3) := b in
  if negb (a1 =? b1) then a1 <? b1
  else if negb (a2 =? b2) then a2 <? b2
  else ext_ltb a3 b3.

Definition qualifying_key_ltb (a b : ext * Z) : bool :=
  let '(a1, a2) := a in
  let '(b1, b2) := b in
  if negb (ext_eqb a1 b1) then ext_ltb a1 b1 else a2 <? b2.

(** [list.sort(key=...)] is a stable sort that compares keys with [<]; these
    two facts fix its result on a total order of keys, and insertion into the
    sorted tail computes it: an element goes before the first one that is
    not smaller, so before its equals, which followed it in the input. *)
Section StableSort.
Context {A K : Type} (ltb : K → K → bool) (key : A → K).

Fixpoint insert_by (x : A) (l : list A) : list A :=
  match l with
  | [] => [x]
  | y :: r =>
      if ltb (key y) (key x) then y :: insert_by x r else x :: y :: r
  end.

Definition sort_by (l : list A) : list A := foldr insert_by [] l.
End StableSort.

(** The object a reference denotes.  Every reference the program holds is
    live ([inv_live], kept by every handler), so the default is never used. *)
Definition obj (s : Session) (ref : string) : Competitor :=
  default (new_Competitor ref) (Dict.get ref (competitors s)).

(** The list [sorted_competitors] as the program sees it. *)
Definition sorted_view (s : Session) : list Competitor :=
  obj s <$> sorted_competitors s.

(** [Session.sort_competitors]: the list of the dict's values, sorted; an
    entry of the list stands for the object, its first component being the
    reference kept in [sorted_competitors]. *)
Definition sort_competitors (s : Session) : Session :=
  let competitors_list := competitors s in
  let competitors_list :=
    match sort_mode s with
    | QUALIFYING =>
        sort_by qualifying_key_ltb (λ x, qualifying_key x.2) competitors_list
    | RACE => sort_by race_key_ltb (λ x, race_key x.2) competitors_list
    end in
  assign_sorted_competitors competitors_list.*1 s.

(** [Session.reset_session] *)
Definition reset_session (s : Session) : Session :=
  s |> assign_classes ∅
    |> assign_competitors []
    |> assign_session_id ""
    |> assign_session_name ""
    |> assign_track_name ""
    |> assign_current_time ""
    |> assign_session_time ""
    |> assign_time_to_go ""
    |> assign_laps_to_go ""
    |> assign_flag_status ""
    |> assign_sorted_competitors [].

(** [Session._format_time_difference] *)
Definition _format_time_difference (time_diff_ms : Z) : string :=
  if time_diff_ms =? 0 then ""
  else
    let hours := time_diff_ms / (60 * 60 * 1000) in
    let minutes := (time_diff_ms mod (60 * 60 * 1000)) / (60 * 1000) in
    let seconds := (time_diff_ms mod (60 * 1000)) / 1000 in
    let milliseconds := time_diff_ms mod 1000 in
    if 0 <? hours then
      "+" +:+ fmt_d 2 hours +:+ ":" +:+ fmt_d 2 minutes +:+ ":"
          +:+ fmt_d 2 seconds +:+ "." +:+ fmt_d 3 milliseconds
    else if 0 <? minutes then
      "+" +:+ fmt_d 2 minutes +:+ ":" +:+ fmt_d 2 seconds +:+ "."
          +:+ fmt_d 3 milliseconds
    else "+" +:+ fmt_d 2 seconds +:+ "." +:+ fmt_d 3 milliseconds.

(** [Session._calculate_time_difference] *)
Definition _calculate_time_difference
    (slower_competitor faster_competitor : Competitor)
    (slower_best_lap_ms : Z) : string :=
  if total_time_milliseconds faster_competitor =? 0 then ""
  else
    let slower_laps := laps_int slower_competitor in
    let faster_laps := laps_int faster_competitor in
    let lap_diff := faster_laps - slower_laps in
    let time_diff_ms :=
      total_time_milliseconds slower_competitor
      - total_time_milliseconds faster_competitor in
    if (0 <? lap_diff) && (0 <? slower_best_lap_ms)
       && (slower_best_lap_ms <? time_diff_ms)
    then (if lap_diff =? 1 then "+" +:+ str_of_Z lap_diff +:+ " LAP"
          else "+" +:+ str_of_Z lap_diff +:+ " LAPS")
    else _format_time_difference (Z.abs time_diff_ms).

(** One iteration of the loop of [calculate_gaps_and_diffs], at index [i];
    [current], [previous] and [leader] are references, read through the
    store as it is at that point. *)
Definition gap_step (s : Session) (i : nat) : Session :=
  let current := nth i (sorted_competitors s) "" in
  let previous := nth (i - 1) (sorted_competitors s) "" in
  let leader := nth 0 (sorted_competitors s) "" in
  if total_time_milliseconds (obj s current) =? 0 then
    s |> mutate current (assign_calculated_gap "")
      |> mutate current (assign_calculated_diff "")
  else
    let s :=
      mutate current
        (assign_calculated_gap
           (_calculate_time_difference (obj s current) (obj s previous)
              (best_time_milliseconds (obj s current)))) s in
    mutate current
      (assign_calculated_diff
         (_calculate_time_difference (obj s current) (obj s leader)
            (best_time_milliseconds (obj s current)))) s.

(** [Session.calculate_gaps_and_diffs] *)
Definition calculate_gaps_and_diffs (s : Session) : Session :=
  match sorted_competitors s with
  | [] => s
  | leader :: _ =>
      let s :=
        s |> mutate leader (assign_calculated_gap "")
          |> mutate leader (assign_calculated_diff "") in
      foldl gap_step s (seq 1 (length (sorted_competitors s) - 1))
  end.

(** ** Record handlers *)

(** [elements[i]]; every use is guarded by the handler's length test. *)
Definition item (elements : list string) (i : nat) : string :=
  nth i elements "".

(** [$F] *)
Definition handle_race_progress_data (elements : list string) (s : Session)
  : Session :=
  if (6 <=? length elements)%nat then
    s |> assign_laps_to_go (item elements 1)
      |> assign_time_to_go (item elements 2)
      |> assign_current_time (item elements 3)
      |> assign_session_time (item elements 4)
      |> assign_flag_status (strip (item elements 5))
  else s.

(** [$A] *)
Definition handle_driver_data (elements : list string) (s : Session)
  : Session :=
  if (8 <=? length elements)%nat then
    let competitor := item elements 1 in
    s |> get_competitor (item elements 1)
      |> mutate competitor (assign_number (item elements 2))
      |> mutate competitor (assign_transponder (item elements 3))
      |> mutate competitor (assign_first_name (item elements 4))
      |> mutate competitor (assign_last_name (item elements 5))
      |> mutate competitor (assign_nationality (item elements 6))
      |> mutate competitor (assign_category (item elements 7))
  else s.

(** [$B] *)
Definition handle_race_session_data (elements : list string) (s : Session)
  : Session :=
  if (3 <=? length elements)%nat then
    s |> assign_session_id (item elements 1)
      |> assign_session_name (item elements 2)
  else s.

(** [$C] *)
Definition handle_race_class_data (elements : list string) (s : Session)
  : Session :=
  if (3 <=? length elements)%nat then
    let race_class :=
      {| class_id := item elements 1; description := item elements 2 |} in
    assign_classes (<[class_id race_class := race_class]> (classes s)) s
  else s.

(** [$COMP] *)
Definition handle_extended_driver_data (elements : list string) (s : Session)
  : Session :=
  if (8 <=? length elements)%nat then
    let competitor := item elements 1 in
    s |> get_competitor (item elements 1)
      |> mutate competitor (assign_number (item elements 2))
      |> mutate competitor (assign_category (item elements 3))
      |> mutate competitor (assign_first_name (item elements 4))
      |> mutate competitor (assign_last_name (item elements 5))
      |> mutate competitor (assign_nationality (item elements 6))
      |> mutate competitor (assign_additional_data (item elements 7))
  else s.

(** [$E] *)
Definition handle_track_data (elements : list string) (s : Session)
  : Session :=
  if (3 <=? length elements)%nat then
    if String.eqb (item elements 1) "TRACKNAME" then
      assign_track_name (item elements 2) s
    else if String.eqb (item elements 1) "TRACKLENGTH" then
      assign_track_length (item elements 2) s
    else s
  else s.

(** [$G] *)
Definition handle_race_position_data (elements : list string) (s : Session)
  : Session :=
  if (5 <=? length elements)%nat then
    let competitor := item elements 2 in
    let s := get_competitor (item elements 2) s in
    let new_position := item elements 1 in
    let new_laps := item elements 3 in
    let new_total_time := item elements 4 in
    let s :=
      if negb (String.eqb (position (obj s competitor)) new_position)
         || negb (String.eqb (laps (obj s competitor)) new_laps)
         || negb (String.eqb (total_time (obj s competitor)) new_total_time)
      then mutate competitor (assign_data_updated true) s
      else s in
    s |> mutate competitor (assign_position new_position)
      |> mutate competitor (assign_laps new_laps)
      |> mutate competitor (set_total_time new_total_time)
  else s.

(** [$H] *)
Definition handle_best_lap_time_data (elements : list string) (s : Session)
  : Session :=
  if (5 <=? length elements)%nat then
    let competitor := item elements 2 in
    let s := get_competitor (item elements 2) s in
    let new_best_position := item elements 1 in
    let new_best_lap := item elements 3 in
    let new_best_time := item elements 4 in
    let s :=
      if negb (String.eqb (best_position (obj s competitor)) new_best_position)
         || negb (String.eqb (best_lap (obj s competitor)) new_best_lap)
         || negb (String.eqb (best_time (obj s competitor)) new_best_time)
      then mutate competitor (assign_data_updated true) s
      else s in
    s |> mutate competitor (assign_best_position new_best_position)
      |> mutate competitor (assign_best_lap new_best_lap)
      |> mutate competitor (set_best_time new_best_time)
  else s.

(** [$I] *)
Definition handle_reset_data (s : Session) : Session := reset_session s.

(** [$J] *)
Definition handle_last_lap_time_data (elements : list string) (s : Session)
  : Session :=
  if (4 <=? length elements)%nat then
    let competitor := item elements 1 in
    s |> get_competitor (item elements 1)
      |> mutate competitor (assign_last_lap_time (item elements 2))
      |> mutate competitor (set_total_time (item elements 3))
      |> mutate competitor (assign_data_updated true)
  else s.

(** [$RMS] *)
Definition handle_sort_mode_data (elements : list string) (s : Session)
  : Session :=
  if (2 <=? length elements)%nat then
    if String.eqb (item elements 1) "qualifying"
    then assign_sort_mode QUALIFYING s
    else assign_sort_mode RACE s
  else s.

(** ** Snapshot builder *)

(** A row of [competitors_df]; [col_Num] is the column ["#"]. *)
Record CompetitorRow : Type := Build_CompetitorRow {
  col_Pos : string;
  col_Num : string;
  col_Name : string;
  col_Laps : string;
  col_Time : string;
  col_Best : string;
  col_Diff : string;
  col_Gap : string;
  col_RacerID : string;
  col_Transponder : string;
  col_Category : string;
  col_CategoryDesc : string;
  col_BestLap : string;
  col_LastLap : string
}.

(** The row of [session_df]. *)
Record SessionRow : Type := Build_SessionRow {
  col_SessionID : string;
  col_SessionName : string;
  col_TrackName : string;
  col_TrackLength : string;
  col_CurrentTime : string;
  col_SessionTime : string;
  col_TimeToGo : string;
  col_LapsToGo : string;
  col_FlagStatus : string;
  col_SortMode : string
}.

(** [x if x else "-"] *)
Definition or_dash (x : string) : string := if is_empty x then "-" else x.

(** [SortMode.name] *)
Definition SortMode_name (m : SortMode) : string :=
  match m with RACE => "RACE" | QUALIFYING => "QUALIFYING" end.

(** The dict appended to [competitors_data] at index [i]. *)
Definition competitor_row (i : nat) (competitor : Competitor) : CompetitorRow :=
  let pos :=
    if is_empty (position competitor) then str_of_Z (Z.of_nat i + 1)
    else position competitor in
  let name :=
    strip (first_name competitor +:+ " " +:+ last_name competitor) in
  let name :=
    if is_empty name then "Driver " +:+ racer_id competitor else name in
  {| col_Pos := pos;
     col_Num := number competitor;
     col_Name := name;
     col_Laps := laps competitor;
     col_Time := or_dash (total_time competitor);
     col_Best := or_dash (best_time competitor);
     col_Diff := or_dash (calculated_diff competitor);
     col_Gap := or_dash (calculated_gap competitor);
     col_RacerID := racer_id competitor;
     col_Transponder := transponder competitor;
     col_Category := category competitor;
     col_CategoryDesc := category_description competitor;
     col_BestLap := best_lap competitor;
     col_LastLap := last_lap_time competitor |}.

Definition session_row (s : Session) : SessionRow :=
  {| col_SessionID := session_id s;
     col_SessionName := session_name s;
     col_TrackName := track_name s;
     col_TrackLength := track_length s;
     col_CurrentTime := current_time s;
     col_SessionTime := session_time s;
     col_TimeToGo := time_to_go s;
     col_LapsToGo := laps_to_go s;
     col_FlagStatus := flag_status s;
     col_SortMode := SortMode_name (sort_mode s) |}.

(** The state of a [RaceTimingHandler].  [websocket] and [listen_thread]
    hold the identity of the socket and thread objects; the two data frames
    are lists of rows, [pd.DataFrame()] being the empty list.  [emitted] is a
    ghost counter of the calls of [handle_session_update]; the source has no
    such field. *)
Record Handler : Type := Build_Handler {
  session : Session;
  websocket : option nat;
  running : bool;
  listen_thread : option nat;
  competitors_df : list CompetitorRow;
  session_df : list SessionRow;
  emitted : nat
}.

Definition assign_session (v : Session) (h : Handler) : Handler :=
  {| session := v; websocket := websocket h; running := running h;
     listen_thread := listen_thread h; competitors_df := competitors_df h;
     session_df := session_df h; emitted := emitted h |}.

Definition assign_websocket (v : option nat) (h : Handler) : Handler :=
  {| session := session h; websocket := v; running := running h;
     listen_thread := listen_thread h; competitors_df := competitors_df h;
     session_df := session_df h; emitted := emitted h |}.

Definition assign_running (v : bool) (h : Handler) : Handler :=
  {| session := session h; websocket := websocket h; running := v;
     listen_thread := listen_thread h; competitors_df := competitors_df h;
     session_df := session_df h; emitted := emitted h |}.

Definition assign_listen_thread (v : option nat) (h : Handler) : Handler :=
  {| session := session h; websocket := websocket h; running := running h;
     listen_thread := v; competitors_df := competitors_df h;
     session_df := session_df h; emitted := emitted h |}.

Definition assign_competitors_df (v : list CompetitorRow) (h : Handler) : Handler :=
  {| session := session h; websocket := websocket h; running := running h;
     listen_thread := listen_thread h; competitors_df := v;
     session_df := session_df h; emitted := emitted h |}.

Definition assign_session_df (v : list SessionRow) (h : Handler) : Handler :=
  {| session := session h; websocket := websocket h; running := running h;
     listen_thread := listen_thread h; competitors_df := competitors_df h;
     session_df := v; emitted := emitted h |}.

Definition assign_emitted (v : nat) (h : Handler) : Handler :=
  {| session := session h; websocket := websocket h; running := running h;
     listen_thread := listen_thread h; competitors_df := competitors_df h;
     session_df := session_df h; emitted := v |}.

(** The handler after [__init__], logger and configuration left out. *)
Definition new_Handler : Handler :=
  {| session := new_Session; websocket := None; running := false;
     listen_thread := None; competitors_df := []; session_df := [];
     emitted := 0%nat |}.

(** One iteration of the loop over [enumerate(sorted_competitors)]: the row
    is appended, then [data_updated] is cleared on the object. *)
Definition snapshot_step (acc : Session * list CompetitorRow)
    (entry : nat * string) : Session * list CompetitorRow :=
  let '(s, competitors_data) := acc in
  let '(i, competitor) := entry in
  (mutate competitor (assign_data_updated false) s,
   competitors_data ++ [competitor_row i (obj s competitor)]).

(** [RaceTimingHandler.handle_session_update] *)
Definition handle_session_update (h : Handler) : Handler :=
  let s := session h |> sort_competitors |> calculate_gaps_and_diffs in
  let '(s, competitors_data) :=
    foldl snapshot_step (s, []) (imap pair (sorted_competitors s)) in
  h |> assign_session s
    |> assign_competitors_df competitors_data
    |> assign_session_df [session_row s]
    |> assign_emitted (S (emitted h)).

(** ** Record parser and dispatcher *)

(** The list comprehension of [process_data]: [line.split(',')], and in
    each element [replace] of the double quote by the empty string. *)
Definition parse_elements (line : string) : list string :=
  remove_char dquote <$> split_on "," line.

(** The [match command] statement; no handler raises. *)
Definition dispatch (elements : list string) (s : Session) : Session :=
  let command := item elements 0 in
  if String.eqb command "$F" then handle_race_progress_data elements s
  else if String.eqb command "$A" then handle_driver_data elements s
  else if String.eqb command "$B" then handle_race_session_data elements s
  else if String.eqb command "$C" then handle_race_class_data elements s
  else if String.eqb command "$COMP" then handle_extended_driver_data elements s
  else if String.eqb command "$E" then handle_track_data elements s
  else if String.eqb command "$G" then handle_race_position_data elements s
  else if String.eqb command "$H" then handle_best_lap_time_data elements s
  else if String.eqb command "$I" then handle_reset_data s
  else if String.eqb command "$J" then handle_last_lap_time_data elements s
  else if String.eqb command "$RMS" then handle_sort_mode_data elements s
  else s.

(** A line is blank when [line.strip()] is empty. *)
Definition blank (line : string) : bool := is_empty (strip line).

(** The body of the loop of [process_data] on the pair of the session and the
    local [data_updated]. *)
Definition process_line (st : Session * bool) (line : string) : Session * bool :=
  if blank line then st
  else
    let elements := parse_elements line in
    match elements with
    | [] => st
    | _ :: _ => (dispatch elements st.1, true)
    end.

(** [data.strip().split('\n')] *)
Definition frame_lines (data : string) : list string :=
  split_on newline (strip data).

(** [RaceTimingHandler.process_data].  The call of [handle_session_update]
    is outside the [try] of the loop: on plain frames it returns, and this
    is what the definition follows. *)
Definition process_data (h : Handler) (data : string) : Handler :=
  let '(s, data_updated) :=
    foldl process_line (session h, false) (frame_lines data) in
  let h := assign_session s h in
  if data_updated then handle_session_update h else h.

(** The handler after a sequence of frames, from a fresh one. *)
Definition run (frames : list string) : Handler :=
  foldl process_data new_Handler frames.

(** ** The WebSocket client

    [connect] is modelled by its control flow.  The two calls into libraries
    that can fail, the constructor [websocket.WebSocketApp] and
    [Thread.start], take their outcome from a [Library]; what [connect] does
    outside the handler object (creating a socket object, starting a worker,
    logging) is recorded in a [World]. *)

Inductive outcome : Type := Returns | Raises.

Record Library : Type := Build_Library {
  WebSocketApp_call : outcome;
  Thread_start : outcome
}.

Inductive level : Type := INFO | ERROR | DEBUG | WARNING.

Record World : Type := Build_World {
  sockets_created : nat;
  threads_created : nat;
  workers_started : list nat;
  logged : list level
}.

Definition new_World : World :=
  {| sockets_created := 0; threads_created := 0; workers_started := [];
     logged := [] |}.

Definition log (l : level) (w : World) : World :=
  {| sockets_created := sockets_created w;
     threads_created := threads_created w;
     workers_started := workers_started w;
     logged := logged w ++ [l] |}.

(** The [except Exception] branch of [connect]. *)
Definition connect_except (h : Handler) (w : World) : Handler * World * outcome :=
  (assign_running false h, w |> log ERROR |> log DEBUG, Returns).

(** [RaceTimingHandler.connect].  The third component tells how the call
    ends for its caller. *)
Definition connect (lib : Library) (ws_url : string) (h : Handler) (w : World)
  : Handler * World * outcome :=
  let w := log INFO w in
  match WebSocketApp_call lib with
  | Raises => connect_except h w
  | Returns =>
      let socket := sockets_created w in
      let w :=
        {| sockets_created := S (sockets_created w);
           threads_created := threads_created w;
           workers_started := workers_started w;
           logged := logged w |} in
      let h := h |> assign_websocket (Some socket) |> assign_running true in
      let thread := threads_created w in
      let w :=
        {| sockets_created := sockets_created w;
           threads_created := S (threads_created w);
           workers_started := workers_started w;
           logged := logged w |} in
      let h := assign_listen_thread (Some thread) h in
      match Thread_start lib with
      | Raises => connect_except h w
      | Returns =>
          (h,
           {| sockets_created := sockets_created w;
              threads_created := threads_created w;
              workers_started := workers_started w ++ [socket];
              logged := logged w |},
           Returns)
      end
  end.

(** [RaceTimingHandler.on_error]: what the socket library reports after
    [connect] has returned is logged, and nothing else. *)
Definition on_error (h : Handler) (w : World) : Handler * World :=
  (h, log ERROR w).

(** [RaceTimingHandler.on_close] *)
Definition on_close (h : Handler) (w : World) : Handler * World :=
  (assign_running false h, log WARNING w).

(** ** Notions used by the statements *)

(** [diff_against(slower, faster)] of the specification: the call made by
    [calculate_gaps_and_diffs]. *)
Definition diff_against (slower faster : Competitor) : string :=
  _calculate_time_difference slower faster (best_time_milliseconds slower).

(** A list is ascending by [key] when no later element has a smaller key. *)
Definition ascending {A K : Type} (ltb : K → K → bool) (key : A → K)
    (l : list A) : Prop :=
  StronglySorted (λ x y, ltb (key y) (key x) = false) l.

(** The key of the running sort mode. *)
Definition ordered_by_mode (m : SortMode) (l : list Competitor) : Prop :=
  match m with
  | RACE => ascending race_key_ltb race_key l
  | QUALIFYING => ascending qualifying_key_ltb qualifying_key l
  end.

(** The RACE key as the specification words it: the third component is
    infinite when the total is 0, and the total itself otherwise. *)
Definition race_key_as_specified (x : Competitor) : Z * Z * ext :=
  (get_position_number (position x),
   - laps_int x,
   if total_time_milliseconds x =? 0 then Infinite
   else Finite (total_time_milliseconds x)).

(** Quote stripping as the specification words it: one leading and one
    trailing double quote are removed, and only when both are present. *)
Fixpoint last_char (s : string) : option ascii :=
  match s with
  | EmptyString => None
  | String c EmptyString => Some c
  | String _ r => last_char r
  end.

Fixpoint drop_last (s : string) : string :=
  match s with
  | EmptyString => EmptyString
  | String c EmptyString => EmptyString
  | String c r => String c (drop_last r)
  end.

Definition strip_quote_pair_as_specified (field : string) : string :=
  match field with
  | String c r =>
      if Ascii.eqb c dquote && bool_decide (last_char r = Some dquote)
      then drop_last r else field
  | EmptyString => EmptyString
  end.

Definition parse_elements_as_specified (line : string) : list string :=
  strip_quote_pair_as_specified <$> split_on "," line.

(** The character of a decimal digit. *)
Definition digit_char (d : Z) : ascii := ascii_of_nat (48 + Z.to_nat d).

Definition two_digits (n : Z) (rest : string) : string :=
  String (digit_char (n / 10)) (String (digit_char (n mod 10)) rest).

Definition three_digits (n : Z) (rest : string) : string :=
  String (digit_char (n / 100)) (two_digits (n mod 100) rest).

(** The time string [HH:MM:SS.mmm] of a clock reading. *)
Definition clock_string (h m s ms : Z) : string :=
  two_digits h (String ":" (two_digits m (String ":"
    (two_digits s (String "." (three_digits ms EmptyString)))))).

(** Left-zero-padding normalization of a formatted difference: the hour and
    minute components that [_format_time_difference] omitted are put back
    as [00]. *)
Definition normalize_padding (out : string) : string :=
  match out with
  | String sign rest =>
      if Ascii.eqb sign "+" then
        match length (split_on ":" rest) with
        | 1%nat => "+00:00:" +:+ rest
        | 2%nat => "+00:" +:+ rest
        | _ => out
        end
      else out
  | EmptyString => EmptyString
  end.

(** What the codec needs of a field of two (three) digits; checked below on
    each of the hundred (thousand) of them. *)
Definition two_digits_ok (n : Z) : bool :=
  bool_decide (py_int (two_digits n "") = Some n)
  && bool_decide (fmt_d 2 n = two_digits n "")
  && negb (contains "." (two_digits n ""))
  && negb (contains ":" (two_digits n "")).

Definition three_digits_ok (n : Z) : bool :=
  bool_decide (py_int (three_digits n "") = Some n)
  && bool_decide (fmt_d 3 n = three_digits n "")
  && negb (contains "." (three_digits n ""))
  && negb (contains ":" (three_digits n "")).

(** *** Invariants of the store *)

(** An entry of the competitor map is consistent: the object carries its
    key, and both millisecond fields are the conversion of their strings. *)
Definition entry_ok (e : string * Competitor) : Prop :=
  racer_id e.2 = e.1
  ∧ total_time_milliseconds e.2 = convert_time_to_milliseconds (total_time e.2)
  ∧ best_time_milliseconds e.2 = convert_time_to_milliseconds (best_time e.2).

(** Attribute assignments that keep an entry consistent. *)
Definition keeps_entry (f : Competitor → Competitor) : Prop :=
  ∀ e, entry_ok e → entry_ok (e.1, f e.2).

(** What every record handler preserves. *)
Record session_inv (s : Session) : Prop := Build_session_inv {
  inv_keys : NoDup (Dict.keys (competitors s));
  inv_entries : Forall entry_ok (competitors s);
  inv_refs : NoDup (sorted_competitors s);
  inv_live : sorted_competitors s ⊆ Dict.keys (competitors s)
}.

(** The fields that decide order and differences. *)
Definition timing (c : Competitor) : string * string * Z * string * Z :=
  (position c, laps c, total_time_milliseconds c, best_position c,
   best_time_milliseconds c).

(** The fields the gap computation writes or reads. *)
Definition gap_fields (c : Competitor)
  : string * string * (string * string * Z * string * Z) :=
  (calculated_gap c, calculated_diff c, timing c).

(** Two sessions with the same mode, references and keys, whose objects
    agree on [timing]: what the loops of the ordering engine and of the
    snapshot builder keep. *)
Record same_frame (s s' : Session) : Prop := Build_same_frame {
  frame_mode : sort_mode s' = sort_mode s;
  frame_refs : sorted_competitors s' = sorted_competitors s;
  frame_keys : Dict.keys (competitors s') = Dict.keys (competitors s);
  frame_timing : ∀ k, timing (obj s' k) = timing (obj s k)
}.

(** The gap and diff fields at index [i] of a sorted list [v]. *)
Definition gap_ok_at (v : list Competitor) (i : nat) : Prop :=
  match i with
  | O =>
      ∀ leader, v !! 0%nat = Some leader →
        calculated_gap leader = "" ∧ calculated_diff leader = ""
  | S j =>
      ∀ cur prev leader,
        v !! S j = Some cur → v !! j = Some prev → v !! 0%nat = Some leader →
        if total_time_milliseconds cur =? 0
        then calculated_gap cur = "" ∧ calculated_diff cur = ""
        else calculated_gap cur = diff_against cur prev
             ∧ calculated_diff cur = diff_against cur leader
  end.

(** What holds of the session when a batch is complete. *)
Record settled (s : Session) : Prop := Build_settled {
  settled_inv : session_inv s;
  settled_perm : sorted_competitors s ≡ₚ Dict.keys (competitors s);
  settled_order : ordered_by_mode (sort_mode s) (sorted_view s);
  settled_gaps : ∀ i, gap_ok_at (sorted_view s) i
}.

(** *** Plain frames *)

(** Text of ASCII characters. *)
Fixpoint ascii_text (s : string) : bool :=
  match s with
  | EmptyString => true
  | String c r => (nat_of_ascii c <? 128)%nat && ascii_text r
  end.

(** Text on which the model and the program agree: ASCII, and too short to
    hold a numeral that [int] refuses for its length. *)
Definition plain (data : string) : bool :=
  ascii_text data && (String.length data <=? 4300)%nat.

Definition plain_frames (frames : list string) : bool := forallb plain frames.

(** ASCII text of at most [n] characters. *)
Definition fits (n : nat) (s : string) : Prop :=
  ascii_text s = true ∧ (String.length s ≤ n)%nat.

(** The [laps] of every competitor of the session are plain. *)
Definition laps_plain (s : Session) : Prop :=
  Forall (λ e, plain (laps e.2) = true) (competitors s).

(** *** The keys and the difference as the specification words them

    None of these uses [get_position_number], [laps_int], [race_key],
    [qualifying_key], [_calculate_time_difference] or
    [_format_time_difference]: the theorems compare the code with them. *)

(** [pos_key(s)]: [int(s)] when [s] is non-empty and all digits, otherwise
    9999. *)
Definition pos_key_as_specified (s : string) : Z :=
  match py_int s with
  | Some n => if isdigit s then n else 9999
  | None => 9999
  end.

(** The digit-or-0 rule for laps. *)
Definition laps_as_specified (c : Competitor) : Z :=
  match py_int (laps c) with
  | Some n => if isdigit (laps c) then n else 0
  | None => 0
  end.

(** A time, or infinity when there is none: the value when it is positive. *)
Definition time_or_inf_as_amended (ms : Z) : ext :=
  if decide (ms ≤ 0) then Infinite else Finite ms.

(** The RACE triple, with the third component as the code has it: infinite
    for a total that is 0 or negative. *)
Definition race_key_as_amended (x : Competitor) : Z * Z * ext :=
  (pos_key_as_specified (position x),
   - laps_as_specified x,
   time_or_inf_as_amended (total_time_milliseconds x)).

(** The QUALIFYING pair. *)
Definition qualifying_key_as_specified (x : Competitor) : ext * Z :=
  (time_or_inf_as_amended (best_time_milliseconds x),
   pos_key_as_specified (best_position x)).

(** The order of times with infinity: every time is before infinity, and
    infinity is before nothing. *)
Definition ext_lt_as_specified (a b : ext) : Prop :=
  match a, b with
  | Finite x, Finite y => x < y
  | Finite _, Infinite => True
  | Infinite, _ => False
  end.

(** The lexicographic order of the triples and of the pairs. *)
Definition race_key_lt_as_specified (a b : Z * Z * ext) : Prop :=
  a.1.1 < b.1.1
  ∨ (a.1.1 = b.1.1
     ∧ (a.1.2 < b.1.2 ∨ (a.1.2 = b.1.2 ∧ ext_lt_as_specified a.2 b.2))).

Definition qualifying_key_lt_as_specified (a b : ext * Z) : Prop :=
  ext_lt_as_specified a.1 b.1 ∨ (a.1 = b.1 ∧ a.2 < b.2).

(** A number from 0 on in decimal, with zeros in front up to two digits. *)
Definition pad2_as_specified (n : Z) : string :=
  if decide (n < 100) then two_digits n "" else str_of_Z n.

(** [format_diff(ms)] for a gap from 0 on: empty for 0; the hours, minutes
    and seconds to two digits and the milliseconds to three, the leading
    components left out while they are 0. *)
Definition format_diff_as_specified (ms : Z) : string :=
  let hh := ms / 3600000 in
  let mm := ms / 60000 mod 60 in
  let ss := ms / 1000 mod 60 in
  let mmm := ms mod 1000 in
  let ss_mmm := pad2_as_specified ss +:+ "." +:+ three_digits mmm "" in
  if decide (ms = 0) then ""
  else if decide (hh > 0)
  then "+" +:+ pad2_as_specified hh +:+ ":" +:+ pad2_as_specified mm
           +:+ ":" +:+ ss_mmm
  else if decide (mm > 0) then "+" +:+ pad2_as_specified mm +:+ ":" +:+ ss_mmm
  else "+" +:+ ss_mmm.

(** [diff_against(slower, faster)] as the specification words it, in its
    four numbered steps. *)
Definition diff_against_as_specified (slower faster : Competitor) : string :=
  if decide (total_time_milliseconds faster = 0) then ""
  else
    let lap_diff := laps_as_specified faster - laps_as_specified slower in
    if decide (lap_diff > 0 ∧ best_time_milliseconds slower > 0
               ∧ total_time_milliseconds slower - total_time_milliseconds faster
                 > best_time_milliseconds slower)
    then (if decide (lap_diff = 1) then "+1 LAP"
          else "+" +:+ str_of_Z lap_diff +:+ " LAPS")
    else format_diff_as_specified
           (Z.abs (total_time_milliseconds slower
                   - total_time_milliseconds faster)).

(** The invariant of the data model as the specification words it. *)
Definition zero_iff_no_time_as_specified (c : Competitor) : Prop :=
  (total_time_milliseconds c = 0
   ↔ total_time c = "" ∨ total_time c = sentinel)
  ∧ (best_time_milliseconds c = 0
     ↔ best_time c = "" ∨ best_time c = sentinel).

(** *** Frames of the scenarios *)

(** The text frame whose lines are the given records. *)
Fixpoint frame (records : list string) : string :=
  match records with
  | [] => ""
  | [r] => r
  | r :: rest => r +:+ String newline (frame rest)
  end.

Definition two_car_race : string :=
  frame ["$A,1,11,T1,Ayrton,Senna,BR,A"; "$A,2,22,T2,Alain,Prost,FR,A";
         "$G,1,1,10,00:20:00.000"; "$G,2,2,10,00:20:02.500"].

Definition qualifying_reorder : string :=
  frame ["$H,2,2,8,00:01:28.100"; "$H,1,1,9,00:01:29.500"; "$RMS,qualifying"].

Definition lap_down : string :=
  frame ["$H,1,1,5,00:01:30.000"; "$G,2,2,9,00:22:00.000";
         "$H,2,2,4,00:01:35.000"].

Definition malformed_record : string :=
  frame ["$G,1,1,10,00:20:00.000"; "$G,broken"; "$G,2,2,10,00:20:01.000"].

(** Two cars on the same position and lap, one with a signed total. *)
Definition signed_total : string :=
  frame ["$G,1,7,3,1"; "$G,1,8,3,-5"].

(** ** Further notions used by the statements *)

(** The number of elements from which the handler of a tag acts, as its
    length test has it; [None] for a tag that the [match] statement of
    [process_data] does not list. *)
Definition min_fields (command : string) : option nat :=
  if String.eqb command "$F" then Some 6%nat
  else if String.eqb command "$A" then Some 8%nat
  else if String.eqb command "$B" then Some 3%nat
  else if String.eqb command "$C" then Some 3%nat
  else if String.eqb command "$COMP" then Some 8%nat
  else if String.eqb command "$E" then Some 3%nat
  else if String.eqb command "$G" then Some 5%nat
  else if String.eqb command "$H" then Some 5%nat
  else if String.eqb command "$I" then Some 0%nat
  else if String.eqb command "$J" then Some 4%nat
  else if String.eqb command "$RMS" then Some 2%nat
  else None.

(** A record that no handler acts on: an unlisted tag, or too few elements. *)
Definition skipped (elements : list string) : bool :=
  match min_fields (item elements 0) with
  | None => true
  | Some n => (length elements <? n)%nat
  end.

(** The session with its competitor map left out: two sessions that agree
    on it differ in their competitors only. *)
Definition outside_competitors (s : Session) : Session :=
  assign_competitors [] s.

(** What the handlers of [$A], [$COMP], [$G], [$H] and [$J] come to: the
    object under [racer_id] is created when absent, then [f] is applied to
    it. *)
Definition upsert (racer_id : string) (f : Competitor → Competitor)
    (s : Session) : Session :=
  mutate racer_id f (get_competitor racer_id s).

(** The test of [handle_race_position_data] for raising [data_updated]. *)
Definition standing_differs (position' laps' total_time' : string)
    (c : Competitor) : bool :=
  negb (String.eqb (position c) position')
  || negb (String.eqb (laps c) laps')
  || negb (String.eqb (total_time c) total_time').

(** The test of [handle_best_lap_time_data] for raising [data_updated]. *)
Definition best_differs (best_position' best_lap' best_time' : string)
    (c : Competitor) : bool :=
  negb (String.eqb (best_position c) best_position')
  || negb (String.eqb (best_lap c) best_lap')
  || negb (String.eqb (best_time c) best_time').

(** An object with its presentation fields, the ones that the ordering
    engine and the snapshot builder assign, at their defaults. *)
Definition core (c : Competitor) : Competitor :=
  c |> assign_calculated_gap ""
    |> assign_calculated_diff ""
    |> assign_data_updated false.

(** The content of a session: what the records put there, without the
    presentation fields of the objects and without [sorted_competitors]. *)
Definition core_session (s : Session) : Session :=
  s |> assign_competitors (prod_map id core <$> competitors s)
    |> assign_sorted_competitors [].

(** What holds of a handler whose tables were published and whose session
    no record has touched since. *)
Record published (h : Handler) : Prop := Build_published {
  pub_settled : settled (session h);
  pub_sorted :
    sorted_competitors (sort_competitors (session h))
    = sorted_competitors (session h);
  pub_flags : Forall (λ e, data_updated e.2 = false) (competitors (session h));
  pub_competitors_df :
    competitors_df h = imap competitor_row (sorted_view (session h));
  pub_session_df : session_df h = [session_row (session h)];
  pub_emitted : emitted h ≠ 0%nat
}.

(** The records of a sequence of frames: the lines of all frames, in order,
    that the loop of [process_data] does not skip as blank. *)
Definition records (frames : list string) : list string :=
  List.filter (λ line, negb (blank line)) (concat (frame_lines <$> frames)).

(** The session after the records [lines], no snapshot taken in between. *)
Definition replay (lines : list string) (s : Session) : Session :=
  foldl (λ s line, dispatch (parse_elements line) s) s lines.

(** [RaceTimingHandler.get_competitors]: the dict itself. *)
Definition get_competitors (h : Handler) : list (string * Competitor) :=
  competitors (session h).

(** [RaceTimingHandler.get_session_info]: the dict literal, as the list of
    its items. *)
Definition get_session_info (h : Handler) : list (string * string) :=
  [("session_id", session_id (session h));
   ("session_name", session_name (session h));
   ("track_name", track_name (session h));
   ("track_length", track_length (session h));
   ("current_time", current_time (session h));
   ("session_time", session_time (session h));
   ("time_to_go", time_to_go (session h));
   ("laps_to_go", laps_to_go (session h));
   ("flag_status", flag_status (session h));
   ("sort_mode", SortMode_name (sort_mode (session h)))].

(** The cells of the row of [session_df], in the order of its columns. *)
Definition session_cells (r : SessionRow) : list string :=
  [col_SessionID r; col_SessionName r; col_TrackName r; col_TrackLength r;
   col_CurrentTime r; col_SessionTime r; col_TimeToGo r; col_LapsToGo r;
   col_FlagStatus r; col_SortMode r].

(** [a] sorts strictly before [b]: the key of [a] under the mode is smaller
    than that of [b]. *)
Definition precedes (m : SortMode) (a b : Competitor) : bool :=
  match m with
  | RACE => race_key_ltb (race_key a) (race_key b)
  | QUALIFYING => qualifying_key_ltb (qualifying_key a) (qualifying_key b)
  end.

(** ** Closing the client *)

(** What [disconnect] does outside the handler object: the sockets on which
    it calls [close] and the threads that it joins. *)
Record Teardown : Type := Build_Teardown {
  closed : list nat;
  joined : list nat
}.

(** [RaceTimingHandler.disconnect]; [is_alive] tells of a thread whether it
    runs when [disconnect] asks. *)
Definition disconnect (is_alive : nat → bool) (h : Handler) (w : World)
  : Handler * World * Teardown :=
  let h := assign_running false h in
  let closed :=
    match websocket h with Some socket => [socket] | None => [] end in
  let joined :=
    match listen_thread h with
    | Some thread => if is_alive thread then [thread] else []
    | None => []
    end in
  (h, log INFO w, {| closed := closed; joined := joined |}).

(** One call of [connect] for each URL, in order, on a library whose calls
    return. *)
Definition connect_each (ws_urls : list string) (hw : Handler * World)
  : Handler * World :=
  foldl (λ hw ws_url,
           (connect {| WebSocketApp_call := Returns; Thread_start := Returns |}
              ws_url hw.1 hw.2).1) hw ws_urls.

(** A fresh client after one call of [connect] for each URL. *)
Definition connected (ws_urls : list string) : Handler * World :=
  connect_each ws_urls (new_Handler, new_World).

(** ** The key retriever

    [RaceMonitorKeyRetriever.get_link_and_key] and the script function
    [GetLinkAndKey] are modelled by their control flow.  What they ask of
    the outside (the line typed at the prompt, whether Selenium can be
    imported, whether Chrome starts, how the page load ends, the messages of
    the performance log, what [json.loads] and the indexing after it give
    for a message) is a [Browser]; what they do to the outside is a list of
    [Event]s. *)

(** A value passed as [race_id]: [None], a [str], or an [int] that is not a
    [bool]. *)
Inductive RaceId : Type := IdNone | IdStr (s : string) | IdInt (n : Z).

(** The truth value of the argument; [not race_id] is its negation. *)
Definition truthy (race_id : RaceId) : bool :=
  match race_id with
  | IdNone => false
  | IdStr s => negb (is_empty s)
  | IdInt n => negb (n =? 0)
  end.

(** What an f-string writes for the argument. *)
Definition fstr (race_id : RaceId) : string :=
  match race_id with
  | IdNone => "None"
  | IdStr s => s
  | IdInt n => str_of_Z n
  end.

Inductive Exception : Type :=
  | ValueError | ImportError | WebDriverException | TimeoutException
  | TypeError | DecodeError | UnboundLocalError.

Inductive PageLoad : Type := Loaded | TimedOut | Failed.

Record Browser : Type := Build_Browser {
  typed : string;
  selenium_installed : bool;
  chrome_starts : bool;
  page_load : PageLoad;
  performance_log : list string;
  url_of : string → option string;
  key_of : string → option string
}.

Inductive Event : Type :=
  | Prompt | StartChrome | Navigate (url : string) | Quit.

(** How a call ends: with a link and a key, with [(None, None)], or with an
    exception. *)
Inductive Result : Type :=
  | Link (wss_link wss_key : string) | NoLink | Raise (e : Exception).

(** [needle in s] *)
Fixpoint is_in (needle s : string) : bool :=
  String.prefix needle s
  || match s with
     | EmptyString => false
     | String _ r => is_in needle r
     end.

(** The two loops over the log: the first message that holds [needle]. *)
Definition first_with (needle : string) (logs : list string) : option string :=
  List.find (is_in needle) logs.

Definition timing_url (race_id : string) : string :=
  "https://api.race-monitor.com/Timing/?raceid=" +:+ race_id.

(** [RaceMonitorKeyRetriever.validate_race_id]: [None] when it returns. *)
Definition validate_race_id (b : Browser) (race_id : RaceId)
  : list Event * option Exception :=
  let '(events, race_id) :=
    if truthy race_id then ([], race_id) else ([Prompt], IdStr (typed b)) in
  let race_id :=
    match race_id with IdInt n => IdStr (str_of_Z n) | _ => race_id end in
  match race_id with
  | IdStr s => if isdigit s then (events, None) else (events, Some ValueError)
  | _ => (events, None)
  end.

(** What both functions do once the page is asked for: the page load, the
    two searches of the log, [driver.quit()].  [on_timeout] and [on_error]
    are what the two [except] branches of the page load come to. *)
Definition fetch (b : Browser) (events : list Event) (url : string)
    (on_timeout on_error : Result) : list Event * Result :=
  let events := events ++ [Navigate url] in
  match page_load b with
  | TimedOut => (events, on_timeout)
  | Failed => (events, on_error)
  | Loaded =>
      match first_with "wss://" (performance_log b) with
      | None => (events, Raise TypeError)
      | Some message =>
          match url_of b message with
          | None => (events, Raise DecodeError)
          | Some wss_link =>
              match first_with "Sec-WebSocket-Key" (performance_log b) with
              | None => (events, Raise UnboundLocalError)
              | Some key_message =>
                  match key_of b key_message with
                  | None => (events, Raise DecodeError)
                  | Some wss_key => (events ++ [Quit], Link wss_link wss_key)
                  end
              end
          end
      end
  end.

(** [RaceMonitorKeyRetriever.get_link_and_key] *)
Definition get_link_and_key (b : Browser) (race_id : RaceId)
  : list Event * Result :=
  match validate_race_id b race_id with
  | (events, Some e) => (events, Raise e)
  | (events, None) =>
      if negb (selenium_installed b) then (events, Raise ImportError)
      else if negb (chrome_starts b) then (events, Raise WebDriverException)
      else
        fetch b (events ++ [StartChrome]) (timing_url (fstr race_id))
          (Raise TimeoutException) (Raise TypeError)
  end.

(** [GetLinkAndKey] of the script [GetRaceMonitorKey.py] *)
Definition GetLinkAndKey (b : Browser) (race_id : RaceId)
  : list Event * Result :=
  if negb (chrome_starts b) then ([], Raise WebDriverException)
  else
    let events := [StartChrome] in
    if negb (truthy race_id) then
      fetch b (events ++ [Prompt]) (timing_url (typed b)) NoLink NoLink
    else
      match race_id with
      | IdInt n => fetch b events (timing_url (str_of_Z n)) NoLink NoLink
      | _ => (events, NoLink)
      end.

(** ** The logger

    [CustomLogger.__init__] with [_setup_handlers], by their control flow.
    Of the configuration dict the model keeps the three switches, each
    absent or present with the truth value of what it holds, and the
    outcome of the three steps that can fail outside: whether the level
    names an attribute of [logging], whether the dict has a
    [log_file_path], and whether the log file can be opened. *)
Record LoggingConfig : Type := Build_LoggingConfig {
  cfg_enabled : option bool;
  cfg_log_to_file : option bool;
  cfg_log_to_console : option bool;
  cfg_level_known : bool;
  cfg_has_log_file_path : bool;
  cfg_file_opens : bool
}.

Inductive LogHandler : Type := FileHandler | StreamHandler.

Inductive LogError : Type :=
  | AttributeError | KeyError | FailInitLogging | OSError.

(** [CustomLogger._setup_handlers]: the handlers added, or the exception. *)
Definition _setup_handlers (config : LoggingConfig)
  : LogError + list LogHandler :=
  let console :=
    if default true (cfg_log_to_console config) then [StreamHandler] else [] in
  if default true (cfg_log_to_file config) then
    if negb (cfg_has_log_file_path config) then inl KeyError
    else if negb (cfg_file_opens config) then inl OSError
    else inr (FileHandler :: console)
  else inr console.

(** [CustomLogger.__init__]: the handlers of the logger, or the exception. *)
Definition CustomLogger (config : LoggingConfig) : LogError + list LogHandler :=
  if negb (cfg_level_known config) then inl AttributeError
  else
    match cfg_enabled config with
    | None => inl KeyError
    | Some false => inl FailInitLogging
    | Some true =>
        match cfg_log_to_file config with
        | None => inl KeyError
        | Some true => _setup_handlers config
        | Some false =>
            match cfg_log_to_console config with
            | None => inl KeyError
            | Some true => _setup_handlers config
            | Some false => inl FailInitLogging
            end
        end
    end.

(** * Properties *)

(** ** Strings *)

Lemma eqb_string_spec (a b : string) : reflect (a = b) (String.eqb a b).
Proof. apply String.eqb_spec. Qed.

Lemma split_on_nonempty sep s : split_on sep s ≠ [].
Proof. destruct s as [|c r]; simpl; [done|]. destruct (Ascii.eqb c sep); [done|]. by destruct (split_on sep r). Qed.

Lemma digit_val_range c d : digit_val c = Some d → 0 ≤ d ≤ 9.
Proof.
  unfold digit_val. case_match; [|done]. intros [= <-].
  apply andb_prop in H as [?%Nat.leb_le ?%Nat.leb_le]. lia.
Qed.

Lemma is_space_not_digit c : is_digit c = true → is_space c = false.
Proof.
  unfold is_digit, digit_val, is_space.
  destruct (_ && _) eqn:E; [|done]. intros _.
  apply andb_prop in E as [?%Nat.leb_le ?%Nat.leb_le].
  apply orb_false_iff; split; apply andb_false_iff.
  - right. apply Nat.leb_gt. lia.
  - right. apply Nat.leb_gt. lia.
Qed.

Lemma rstrip_all_digits s : all_digits s = true → rstrip s = s.
Proof.
  induction s as [|c r IH]; simpl; [done|].
  intros [Hc Hr]%andb_prop. rewrite IH by done.
  by rewrite (is_space_not_digit c Hc).
Qed.

Lemma strip_isdigit s : isdigit s = true → strip s = s.
Proof.
  unfold isdigit, strip. intros [Hne Hall]%andb_prop.
  destruct s as [|c r]; [done|]. simpl in Hall.
  apply andb_prop in Hall as [Hc Hr].
  cbn [lstrip]. rewrite (is_space_not_digit c Hc).
  apply rstrip_all_digits. simpl. by rewrite Hc, Hr.
Qed.

Lemma is_int_space_not_digit c : is_digit c = true → is_int_space c = false.
Proof.
  unfold is_digit, digit_val, is_int_space.
  destruct (_ && _) eqn:E; [|done]. intros _.
  apply andb_prop in E as [?%Nat.leb_le ?%Nat.leb_le].
  apply orb_false_iff; split; [apply andb_false_iff|apply Nat.eqb_neq; lia].
  right. apply Nat.leb_gt. lia.
Qed.

Lemma int_rstrip_all_digits s : all_digits s = true → int_rstrip s = s.
Proof.
  induction s as [|c r IH]; simpl; [done|].
  intros [Hc Hr]%andb_prop. rewrite IH by done.
  by rewrite (is_int_space_not_digit c Hc).
Qed.

Lemma int_strip_isdigit s :
  isdigit s = true → int_rstrip (int_lstrip s) = s.
Proof.
  unfold isdigit. intros [Hne Hall]%andb_prop.
  destruct s as [|c r]; [done|]. simpl in Hall.
  apply andb_prop in Hall as [Hc Hr].
  cbn [int_lstrip]. rewrite (is_int_space_not_digit c Hc).
  apply int_rstrip_all_digits. simpl. by rewrite Hc, Hr.
Qed.

Lemma int_tail_all_digits s acc :
  all_digits s = true → 0 ≤ acc → ∃ n, int_tail acc false s = Some n ∧ 0 ≤ n.
Proof.
  revert acc. induction s as [|c r IH]; simpl; intros acc Hall Hacc; [eauto|].
  apply andb_prop in Hall as [Hc Hr]. unfold is_digit in Hc.
  destruct (digit_val c) as [d|] eqn:Hd; [|done].
  apply digit_val_range in Hd. apply IH; [done|lia].
Qed.

(** [int] does not raise on a string that passed [isdigit], and its value
    is not negative. *)
Lemma py_int_isdigit s : isdigit s = true → ∃ n, py_int s = Some n ∧ 0 ≤ n.
Proof.
  intros Hs. unfold py_int. rewrite (int_strip_isdigit s Hs).
  unfold isdigit in Hs. apply andb_prop in Hs as [Hne Hall].
  destruct s as [|c r].
  - (* the empty string fails the first conjunct *) done.
  - simpl in Hall. apply andb_prop in Hall as [Hc Hr]. unfold is_digit in Hc.
    destruct (digit_val c) as [d|] eqn:Hd; [|done].
    assert (Ascii.eqb c "+" = false) as ->.
    { apply Ascii.eqb_neq. intros ->. done. }
    assert (Ascii.eqb c "-" = false) as ->.
    { apply Ascii.eqb_neq. intros ->. done. }
    simpl. rewrite Hd. apply int_tail_all_digits; [done|].
    apply digit_val_range in Hd. lia.
Qed.

(** ** The store *)

Section DictFacts.
Context {V : Type}.
Implicit Types (d : list (string * V)) (k : string) (f : V → V).

Lemma get_None_keys k d : Dict.get k d = None ↔ k ∉ Dict.keys d.
Proof.
  unfold Dict.keys. induction d as [|[k' v] d IH]; simpl.
  - split; [intros _; apply not_elem_of_nil|done].
  - rewrite not_elem_of_cons. destruct (eqb_string_spec k k') as [->|Hne].
    + split; [done|]. by intros [? _].
    + rewrite IH. tauto.
Qed.

Lemma get_is_Some_keys k d : is_Some (Dict.get k d) ↔ k ∈ Dict.keys d.
Proof.
  rewrite <- not_eq_None_Some, get_None_keys.
  destruct (decide (k ∈ Dict.keys d)); tauto.
Qed.

Lemma keys_update k f d : Dict.keys (Dict.update k f d) = Dict.keys d.
Proof.
  unfold Dict.keys. induction d as [|[k' v] d IH]; simpl; [done|].
  destruct (String.eqb k k'); simpl; [done|]. f_equal. apply IH.
Qed.

Lemma get_update_eq k f d :
  Dict.get k (Dict.update k f d) = f <$> Dict.get k d.
Proof.
  induction d as [|[k' v] d IH]; simpl; [done|].
  destruct (String.eqb k k') eqn:E; simpl; rewrite E; done.
Qed.

Lemma get_update_ne k k' f d :
  k ≠ k' → Dict.get k' (Dict.update k f d) = Dict.get k' d.
Proof.
  intros Hne. induction d as [|[k0 v] d IH]; simpl; [done|].
  destruct (eqb_string_spec k k0) as [->|Hk]; simpl.
  - destruct (eqb_string_spec k' k0) as [->|?]; done.
  - by rewrite IH.
Qed.

Lemma Forall_update (P : string * V → Prop) k f d :
  (∀ v, P (k, v) → P (k, f v)) → Forall P d → Forall P (Dict.update k f d).
Proof.
  intros Hf. induction 1 as [|[k' v] d Hx Hd IH]; simpl; [constructor|].
  destruct (eqb_string_spec k k') as [->|Hne]; constructor; auto.
Qed.

(** With unique keys, looking up the key of an entry finds that entry. *)
Lemma get_entry d k v :
  NoDup (Dict.keys d) → (k, v) ∈ d → Dict.get k d = Some v.
Proof.
  unfold Dict.keys. induction d as [|[k' v'] d IH]; simpl.
  - intros _ H. by apply elem_of_nil in H.
  - intros [Hk Hd]%NoDup_cons [[= -> ->]|Hin]%elem_of_cons.
    + by rewrite String.eqb_refl.
    + destruct (eqb_string_spec k k') as [->|Hne]; [|auto].
      exfalso. apply Hk. apply list_elem_of_fmap. by exists (k', v).
Qed.
End DictFacts.

Lemma obj_mutate_ne k k' f s : k ≠ k' → obj (mutate k f s) k' = obj s k'.
Proof. intros Hne. unfold obj, mutate; simpl. by rewrite get_update_ne. Qed.

Lemma obj_mutate_eq k f s :
  k ∈ Dict.keys (competitors s) → obj (mutate k f s) k = f (obj s k).
Proof.
  intros [c Hc]%get_is_Some_keys. unfold obj, mutate; simpl.
  by rewrite get_update_eq, Hc.
Qed.

Lemma keys_mutate k f s :
  Dict.keys (competitors (mutate k f s)) = Dict.keys (competitors s).
Proof. apply keys_update. Qed.

(** With unique keys the objects behind the keys are the dict's values. *)
Lemma obj_keys_values s :
  NoDup (Dict.keys (competitors s)) →
  obj s <$> Dict.keys (competitors s) = Dict.values (competitors s).
Proof.
  intros Hnd. unfold Dict.keys, Dict.values, obj.
  rewrite <- list_fmap_compose. apply Forall_fmap_ext_1, Forall_forall.
  intros [k v] Hin. simpl. by rewrite (get_entry _ k v Hnd Hin).
Qed.

(** ** Handlers preserve the invariant *)

Lemma convert_guard time_str :
  negb (is_empty time_str) && negb (String.eqb time_str sentinel) = false →
  convert_time_to_milliseconds time_str = 0.
Proof.
  unfold convert_time_to_milliseconds.
  destruct (is_empty time_str), (String.eqb time_str sentinel); done.
Qed.

Lemma set_total_time_fields time_str c :
  total_time (set_total_time time_str c) = time_str
  ∧ total_time_milliseconds (set_total_time time_str c)
    = convert_time_to_milliseconds time_str.
Proof.
  unfold set_total_time.
  destruct (negb _ && negb _) eqn:E; simpl; [done|].
  by rewrite convert_guard.
Qed.

Lemma set_best_time_fields time_str c :
  best_time (set_best_time time_str c) = time_str
  ∧ best_time_milliseconds (set_best_time time_str c)
    = convert_time_to_milliseconds time_str.
Proof.
  unfold set_best_time.
  destruct (negb _ && negb _) eqn:E; simpl; [done|].
  by rewrite convert_guard.
Qed.

Lemma keeps_set_total_time t : keeps_entry (set_total_time t).
Proof.
  intros [k c] (Hid & Ht & Hb); simpl in *.
  destruct (set_total_time_fields t c) as [H1 H2].
  unfold entry_ok; simpl. rewrite H1, H2. split_and!; [|done|].
  - unfold set_total_time. by case_match.
  - unfold set_total_time. by case_match.
Qed.

Lemma keeps_set_best_time t : keeps_entry (set_best_time t).
Proof.
  intros [k c] (Hid & Ht & Hb); simpl in *.
  destruct (set_best_time_fields t c) as [H1 H2].
  unfold entry_ok; simpl. rewrite H1, H2. split_and!; [| |done].
  - unfold set_best_time. by case_match.
  - unfold set_best_time. by case_match.
Qed.

Ltac keeps_plain := intros [k c] (Hid & Ht & Hb); simpl in *; by split_and!.

Lemma keeps_number v : keeps_entry (assign_number v).
Proof. keeps_plain. Qed.
Lemma keeps_transponder v : keeps_entry (assign_transponder v).
Proof. keeps_plain. Qed.
Lemma keeps_first_name v : keeps_entry (assign_first_name v).
Proof. keeps_plain. Qed.
Lemma keeps_last_name v : keeps_entry (assign_last_name v).
Proof. keeps_plain. Qed.
Lemma keeps_nationality v : keeps_entry (assign_nationality v).
Proof. keeps_plain. Qed.
Lemma keeps_category v : keeps_entry (assign_category v).
Proof. keeps_plain. Qed.
Lemma keeps_additional_data v : keeps_entry (assign_additional_data v).
Proof. keeps_plain. Qed.
Lemma keeps_position v : keeps_entry (assign_position v).
Proof. keeps_plain. Qed.
Lemma keeps_laps v : keeps_entry (assign_laps v).
Proof. keeps_plain. Qed.
Lemma keeps_best_position v : keeps_entry (assign_best_position v).
Proof. keeps_plain. Qed.
Lemma keeps_best_lap v : keeps_entry (assign_best_lap v).
Proof. keeps_plain. Qed.
Lemma keeps_last_lap_time v : keeps_entry (assign_last_lap_time v).
Proof. keeps_plain. Qed.
Lemma keeps_data_updated v : keeps_entry (assign_data_updated v).
Proof. keeps_plain. Qed.
Lemma keeps_calculated_gap v : keeps_entry (assign_calculated_gap v).
Proof. keeps_plain. Qed.
Lemma keeps_calculated_diff v : keeps_entry (assign_calculated_diff v).
Proof. keeps_plain. Qed.

Create HintDb store discriminated.
#[local] Hint Resolve keeps_number keeps_transponder keeps_first_name
  keeps_last_name keeps_nationality keeps_category keeps_additional_data
  keeps_position keeps_laps keeps_best_position keeps_best_lap
  keeps_last_lap_time keeps_data_updated keeps_calculated_gap
  keeps_calculated_diff keeps_set_total_time keeps_set_best_time : store.

Lemma inv_same_store s s' :
  competitors s' = competitors s →
  sorted_competitors s' = sorted_competitors s →
  session_inv s → session_inv s'.
Proof. intros Hc Hs [????]. split; rewrite ?Hc, ?Hs; done. Qed.

Lemma inv_mutate k f s :
  keeps_entry f → session_inv s → session_inv (mutate k f s).
Proof.
  intros Hf [Hk He Hr Hl]. split; simpl.
  - by rewrite keys_update.
  - apply Forall_update; [|done]. intros v. apply (Hf (k, v)).
  - done.
  - by rewrite keys_update.
Qed.

Lemma new_Competitor_ok k : entry_ok (k, new_Competitor k).
Proof. by split_and!. Qed.

Lemma inv_get_competitor k s : session_inv s → session_inv (get_competitor k s).
Proof.
  intros [Hk He Hr Hl]. unfold get_competitor.
  destruct (Dict.get k (competitors s)) eqn:E; [by split|].
  apply get_None_keys in E. split; simpl.
  - unfold Dict.keys in *. rewrite fmap_app. simpl.
    apply NoDup_app. split_and!; [done| |apply NoDup_singleton].
    intros x Hx ->%list_elem_of_singleton. done.
  - apply Forall_app. split; [done|]. constructor; [|constructor].
    apply new_Competitor_ok.
  - done.
  - unfold Dict.keys in *. rewrite fmap_app. intros x Hx.
    apply elem_of_app. left. by apply Hl.
Qed.

Lemma inv_reset s : session_inv (reset_session s).
Proof.
  split; simpl; [apply NoDup_nil_2|constructor|apply NoDup_nil_2|done].
Qed.

Lemma inv_new : session_inv new_Session.
Proof.
  split; simpl; [apply NoDup_nil_2|constructor|apply NoDup_nil_2|done].
Qed.

#[local] Hint Resolve inv_mutate inv_get_competitor inv_reset : store.

Ltac inv_scalar := eapply inv_same_store; [| |eassumption]; reflexivity.

Lemma inv_dispatch elements s :
  session_inv s → session_inv (dispatch elements s).
Proof.
  intros Hs. unfold dispatch.
  repeat case_match; try done.
  - unfold handle_race_progress_data. case_match; [inv_scalar|done].
  - unfold handle_driver_data. case_match; auto 10 with store.
  - unfold handle_race_session_data. case_match; [inv_scalar|done].
  - unfold handle_race_class_data. case_match; [inv_scalar|done].
  - unfold handle_extended_driver_data. case_match; auto 10 with store.
  - unfold handle_track_data. repeat case_match; try done; inv_scalar.
  - unfold handle_race_position_data. repeat case_match; auto 10 with store.
  - unfold handle_best_lap_time_data. repeat case_match; auto 10 with store.
  - apply inv_reset.
  - unfold handle_last_lap_time_data. case_match; auto 10 with store.
  - unfold handle_sort_mode_data. repeat case_match; try done; inv_scalar.
Qed.

(** ** Sorting *)

Section StableSortFacts.
Context {A K : Type} (ltb : K → K → bool) (key : A → K).
Hypothesis ltb_asym : ∀ a b, ltb a b = true → ltb b a = false.
Hypothesis geb_trans :
  ∀ a b c, ltb b a = false → ltb c b = false → ltb c a = false.

Lemma insert_by_perm x l : insert_by ltb key x l ≡ₚ x :: l.
Proof.
  induction l as [|y r IH]; simpl; [done|].
  destruct (ltb (key y) (key x)); [|done].
  rewrite IH. apply perm_swap.
Qed.

Lemma sort_by_perm l : sort_by ltb key l ≡ₚ l.
Proof.
  induction l as [|x l IH]; simpl; [done|].
  fold (sort_by ltb key l). by rewrite insert_by_perm, IH.
Qed.

Lemma insert_by_ascending x l :
  ascending ltb key l → ascending ltb key (insert_by ltb key x l).
Proof.
  unfold ascending. induction 1 as [|y r Hr IH Hy]; simpl.
  - repeat constructor.
  - destruct (ltb (key y) (key x)) eqn:E.
    + constructor; [done|].
      rewrite insert_by_perm. constructor; [by apply ltb_asym|done].
    + constructor; [by constructor|].
      constructor; [done|].
      eapply Forall_impl; [exact Hy|]. intros z Hz; simpl in *.
      by apply (geb_trans _ (key y)).
Qed.

Lemma sort_by_ascending l : ascending ltb key (sort_by ltb key l).
Proof.
  induction l as [|x l IH]; simpl; [constructor|].
  by apply insert_by_ascending.
Qed.

(** The sort is stable: within a class [P] of elements none of which has a
    smaller key than another, the input order is kept. *)
Lemma insert_by_stable (P : A → Prop) `{!∀ x, Decision (P x)} x l :
  (∀ y, y ∈ l → P x → P y → ltb (key y) (key x) = false) →
  filter P (insert_by ltb key x l) = filter P (x :: l).
Proof.
  induction l as [|y r IH]; intros Hx; [done|]. simpl.
  destruct (ltb (key y) (key x)) eqn:E; [|done].
  rewrite (filter_cons _ y), IH, !filter_cons.
  - destruct (decide (P x)) as [Px|], (decide (P y)) as [Py|]; try done.
    rewrite (Hx y) in E; [done|by left|done|done].
  - intros z Hz Px Pz. apply Hx; [by right|done|done].
Qed.

Lemma sort_by_stable (P : A → Prop) `{!∀ x, Decision (P x)} l :
  (∀ x y, x ∈ l → y ∈ l → P x → P y → ltb (key x) (key y) = false) →
  filter P (sort_by ltb key l) = filter P l.
Proof.
  induction l as [|x l IH]; intros Hl; [done|]. simpl.
  fold (sort_by ltb key l). rewrite insert_by_stable.
  - rewrite !filter_cons, IH; [done|].
    intros y z Hy Hz Py Pz. apply Hl; [by right|by right|done|done].
  - intros y Hy Px Py. rewrite sort_by_perm in Hy.
    apply Hl; [by right|by left|done|done].
Qed.

(** In an ascending list a strictly smaller key sits at a smaller index. *)
Lemma ascending_index l i j x y :
  ascending ltb key l → l !! i = Some x → l !! j = Some y →
  ltb (key x) (key y) = true → (i < j)%nat.
Proof.
  unfold ascending. intros Hl. revert i j.
  induction Hl as [|z r Hr IH Hz]; intros i j Hi Hj Hlt; [done|].
  destruct i as [|i], j as [|j]; simpl in *.
  - simplify_eq. apply ltb_asym in Hlt as Hlt'. congruence.
  - lia.
  - simplify_eq. rewrite Forall_forall in Hz.
    assert (x ∈ r) as Hx by (by eapply list_elem_of_lookup_2).
    apply Hz in Hx. congruence.
  - specialize (IH i j Hi Hj Hlt). lia.
Qed.
End StableSortFacts.

Lemma ext_ltb_asym a b : ext_ltb a b = true → ext_ltb b a = false.
Proof. destruct a, b; simpl; try done. intros ?%Z.ltb_lt. apply Z.ltb_ge. lia. Qed.

Lemma ext_geb_trans a b c :
  ext_ltb b a = false → ext_ltb c b = false → ext_ltb c a = false.
Proof.
  destruct a, b, c; simpl; try done.
  intros ?%Z.ltb_ge ?%Z.ltb_ge. apply Z.ltb_ge. lia.
Qed.

Lemma ext_eqb_eq a b : ext_eqb a b = true ↔ a = b.
Proof.
  destruct a, b; simpl; try done.
  rewrite Z.eqb_eq. split; congruence.
Qed.

Lemma ext_geb_antisym a b :
  ext_ltb a b = false → ext_ltb b a = false → a = b.
Proof.
  destruct a, b; simpl; try done.
  intros ?%Z.ltb_ge ?%Z.ltb_ge. f_equal. lia.
Qed.

(** [<] on RACE keys is the lexicographic order. *)
Lemma race_key_ltb_true a b :
  race_key_ltb a b = true ↔
  a.1.1 < b.1.1
  ∨ (a.1.1 = b.1.1
     ∧ (a.1.2 < b.1.2 ∨ (a.1.2 = b.1.2 ∧ ext_ltb a.2 b.2 = true))).
Proof.
  destruct a as [[a1 a2] a3], b as [[b1 b2] b3]; simpl.
  destruct (Z.eqb_spec a1 b1); simpl.
  - destruct (Z.eqb_spec a2 b2); simpl.
    + split; [intros ?; right; split; [done|]; right; by split|].
      intros [?|[_ [?|[_ ?]]]]; [lia|lia|done].
    + rewrite Z.ltb_lt. split; [intros ?; right; split; [done|]; by left|].
      intros [?|[_ [?|[? ?]]]]; [lia|done|lia].
  - rewrite Z.ltb_lt. split; [by left|]. intros [?|[? _]]; [done|lia].
Qed.

Lemma race_key_ltb_false a b :
  race_key_ltb a b = false ↔
  b.1.1 < a.1.1
  ∨ (a.1.1 = b.1.1
     ∧ (b.1.2 < a.1.2 ∨ (a.1.2 = b.1.2 ∧ ext_ltb a.2 b.2 = false))).
Proof.
  rewrite <- not_true_iff_false, race_key_ltb_true.
  destruct (ext_ltb a.2 b.2); split.
  - intros H. destruct (Z.lt_trichotomy a.1.1 b.1.1) as [?|[?|?]];
      [tauto| |by left]. right. split; [done|].
    destruct (Z.lt_trichotomy a.1.2 b.1.2) as [?|[?|?]]; [tauto|tauto|by left].
  - intros [?|[? [?|[? ?]]]]; [lia|lia|done].
  - intros H. destruct (Z.lt_trichotomy a.1.1 b.1.1) as [?|[?|?]];
      [tauto| |by left]. right. split; [done|].
    destruct (Z.lt_trichotomy a.1.2 b.1.2) as [?|[?|?]];
      [tauto|by right|by left].
  - intros [?|[? [?|[? _]]]] [?|[? [?|[? ?]]]]; try lia; done.
Qed.

Lemma race_key_ltb_asym a b : race_key_ltb a b = true → race_key_ltb b a = false.
Proof.
  rewrite race_key_ltb_true, race_key_ltb_false.
  intros [?|[? [?|[? ?%ext_ltb_asym]]]]; [by left| |].
  - right. split; [done|]. by left.
  - right. split; [done|]. by right.
Qed.

Lemma race_key_geb_trans a b c :
  race_key_ltb b a = false → race_key_ltb c b = false → race_key_ltb c a = false.
Proof.
  rewrite !race_key_ltb_false.
  intros [?|[? [?|[? H1]]]] [?|[? [?|[? H2]]]];
    first [left; lia | right; split; [lia|]; first [left; lia|right; split; [lia|]]].
  by apply (ext_geb_trans _ b.2).
Qed.

(** [<] on QUALIFYING keys is the lexicographic order. *)
Lemma qualifying_key_ltb_true a b :
  qualifying_key_ltb a b = true ↔
  ext_ltb a.1 b.1 = true ∨ (a.1 = b.1 ∧ a.2 < b.2).
Proof.
  destruct a as [a1 a2], b as [b1 b2]; unfold qualifying_key_ltb; cbn [fst snd].
  destruct (ext_eqb a1 b1) eqn:E; cbn [negb].
  - apply ext_eqb_eq in E as ->. rewrite Z.ltb_lt. split; [by right|].
    intros [H|[_ ?]]; [|done]. apply ext_ltb_asym in H as H'. congruence.
  - split; [by left|]. intros [?|[Heq _]]; [done|].
    apply ext_eqb_eq in Heq. congruence.
Qed.

Lemma qualifying_key_ltb_false a b :
  qualifying_key_ltb a b = false ↔
  (ext_ltb a.1 b.1 = false ∧ a.1 ≠ b.1) ∨ (a.1 = b.1 ∧ b.2 ≤ a.2).
Proof.
  rewrite <- not_true_iff_false, qualifying_key_ltb_true.
  destruct (ext_ltb a.1 b.1) eqn:E; split.
  - tauto.
  - intros [[? _]|[Heq _]] _; [done|]. rewrite Heq in E.
    apply ext_ltb_asym in E as E'. congruence.
  - intros H. destruct (decide (a.1 = b.1)) as [Heq|Hne].
    + right. split; [done|]. destruct (Z.le_gt_cases b.2 a.2); [done|].
      exfalso. apply H. right. split; [done|lia].
    + by left.
  - intros [[_ Hne]|[? ?]] [?|[? ?]]; [done|done|done|lia].
Qed.

Lemma qualifying_key_ltb_asym a b :
  qualifying_key_ltb a b = true → qualifying_key_ltb b a = false.
Proof.
  rewrite qualifying_key_ltb_true, qualifying_key_ltb_false.
  intros [H|[? ?]].
  - left. split; [by apply ext_ltb_asym|]. intros Heq. rewrite Heq in H.
    apply ext_ltb_asym in H as H'. congruence.
  - right. split; [done|lia].
Qed.

Lemma qualifying_key_geb_trans a b c :
  qualifying_key_ltb b a = false → qualifying_key_ltb c b = false →
  qualifying_key_ltb c a = false.
Proof.
  rewrite !qualifying_key_ltb_false.
  intros [[H1 N1]|[E1 ?]] [[H2 N2]|[E2 ?]].
  - left. split; [by apply (ext_geb_trans _ b.1)|].
    intros Heq. rewrite Heq in H2. apply N1. by apply ext_geb_antisym.
  - left. by rewrite E2.
  - left. by rewrite <- E1.
  - right. split; [congruence|lia].
Qed.

(** ** Presentation fields

    The ordering engine and the snapshot builder assign only
    [calculated_gap], [calculated_diff] and [data_updated]. *)

Lemma obj_mutate k f s k' :
  obj (mutate k f s) k' =
  if decide (k = k' ∧ k ∈ Dict.keys (competitors s)) then f (obj s k')
  else obj s k'.
Proof.
  case_decide as H.
  - destruct H as [<- Hk]. by apply obj_mutate_eq.
  - destruct (decide (k = k')) as [<-|Hne]; [|by apply obj_mutate_ne].
    assert (k ∉ Dict.keys (competitors s)) as Hk by tauto.
    apply get_None_keys in Hk. unfold obj, mutate; simpl.
    by rewrite get_update_eq, Hk.
Qed.

(** A mutation whose assignment is invisible to an observation [N] of
    objects is invisible to [N] on the whole store. *)
Lemma obj_mutate_unobserved {T} (N : Competitor → T) k f s k' :
  (∀ c, N (f c) = N c) → N (obj (mutate k f s) k') = N (obj s k').
Proof. intros Hf. rewrite obj_mutate. by case_decide. Qed.

Lemma race_key_timing c c' : timing c = timing c' → race_key c = race_key c'.
Proof. unfold timing, race_key. intros [= -> -> -> _ _]. done. Qed.

Lemma qualifying_key_timing c c' :
  timing c = timing c' → qualifying_key c = qualifying_key c'.
Proof. unfold timing, qualifying_key. intros [= _ _ _ -> ->]. done. Qed.

Lemma diff_against_timing c c' p p' :
  timing c = timing c' → timing p = timing p' →
  diff_against c p = diff_against c' p'.
Proof.
  unfold timing, diff_against, _calculate_time_difference, laps_int.
  intros [= _ -> -> _ ->] [= _ -> -> _ _]. done.
Qed.

Lemma ascending_keys {A K} (ltb : K → K → bool) (key : A → K) (l : list A) :
  ascending ltb key l ↔ StronglySorted (λ a b, ltb b a = false) (key <$> l).
Proof.
  unfold ascending. induction l as [|x l IH]; simpl.
  - split; constructor.
  - split; intros [H1 H2]%StronglySorted_inv; constructor.
    + by apply IH.
    + by apply Forall_fmap.
    + by apply IH.
    + by apply Forall_fmap in H2.
Qed.

Lemma ordered_by_mode_timing m v v' :
  timing <$> v = timing <$> v' → ordered_by_mode m v → ordered_by_mode m v'.
Proof.
  intros Hv. assert (race_key <$> v = race_key <$> v'
                     ∧ qualifying_key <$> v = qualifying_key <$> v') as [Hr Hq].
  { revert v' Hv. induction v as [|c v IH]; intros [|c' v'] [=]; [done|].
    destruct (IH v') as [E1 E2]; [done|]. csimpl.
    rewrite E1, E2, (race_key_timing c c'), (qualifying_key_timing c c')
      by (unfold timing; congruence). done. }
  destruct m; simpl; rewrite !ascending_keys; congruence.
Qed.

Lemma gap_ok_at_fields v v' i :
  gap_fields <$> v = gap_fields <$> v' → gap_ok_at v i → gap_ok_at v' i.
Proof.
  intros Hv.
  assert (∀ j c', v' !! j = Some c' →
            ∃ c, v !! j = Some c ∧ gap_fields c = gap_fields c') as Hlk.
  { intros j c' Hj. apply (f_equal (λ l, l !! j)) in Hv.
    rewrite !list_lookup_fmap, Hj in Hv. simpl in Hv.
    destruct (v !! j) as [c|]; [|done]. exists c. split; [done|].
    simpl in Hv. congruence. }
  destruct i as [|i]; simpl.
  - intros H leader (c & Hc & [= Hg Hd _])%Hlk.
    destruct (H c Hc). split; congruence.
  - intros H cur prev leader (c & Hc & [= Hg Hd Ht])%Hlk
      (p & Hp & [= _ _ Htp])%Hlk (l & Hl & [= _ _ Htl])%Hlk.
    specialize (H c p l Hc Hp Hl).
    assert (total_time_milliseconds c = total_time_milliseconds cur) as <-.
    { congruence. }
    rewrite <- (diff_against_timing c cur p prev),
            <- (diff_against_timing c cur l leader), <- Hg, <- Hd;
      [done|unfold timing; congruence..].
Qed.

(** ** [sort_competitors] *)

Lemma ascending_fmap {A B K} (ltb : K → K → bool) (key : B → K) (f : A → B) l :
  ascending ltb (λ x, key (f x)) l → ascending ltb key (f <$> l).
Proof.
  unfold ascending. induction 1 as [|x l Hl IH Hx]; simpl; constructor;
    [done|by apply Forall_fmap].
Qed.

Lemma sort_competitors_refs s :
  sorted_competitors (sort_competitors s) ≡ₚ Dict.keys (competitors s).
Proof.
  unfold sort_competitors, Dict.keys; simpl.
  destruct (sort_mode s); by rewrite sort_by_perm.
Qed.

Lemma sort_competitors_view s :
  NoDup (Dict.keys (competitors s)) →
  ordered_by_mode (sort_mode s) (sorted_view (sort_competitors s)).
Proof.
  intros Hnd. unfold sorted_view.
  set (sorted :=
    match sort_mode s with
    | QUALIFYING =>
        sort_by qualifying_key_ltb (λ x, qualifying_key x.2) (competitors s)
    | RACE => sort_by race_key_ltb (λ x, race_key x.2) (competitors s)
    end).
  assert (sorted ≡ₚ competitors s) as Hperm.
  { unfold sorted. destruct (sort_mode s); apply sort_by_perm. }
  assert (obj (sort_competitors s) <$> sorted_competitors (sort_competitors s)
          = sorted.*2) as ->.
  { unfold sort_competitors; simpl. fold sorted.
    rewrite <- list_fmap_compose. apply Forall_fmap_ext_1, Forall_forall.
    intros [k c] Hin. unfold obj; simpl.
    rewrite (get_entry _ k c Hnd); [done|]. by rewrite <- Hperm. }
  unfold sorted. destruct (sort_mode s); simpl; apply ascending_fmap.
  - apply sort_by_ascending;
      [apply race_key_ltb_asym|apply race_key_geb_trans].
  - apply sort_by_ascending;
      [apply qualifying_key_ltb_asym|apply qualifying_key_geb_trans].
Qed.

Lemma inv_sort_competitors s :
  session_inv s → session_inv (sort_competitors s).
Proof.
  intros [Hk He Hr Hl]. pose proof (sort_competitors_refs s) as Hp.
  split; try done.
  - by rewrite Hp.
  - intros x Hx. by rewrite Hp in Hx.
Qed.

(** ** The loops of [calculate_gaps_and_diffs] and [handle_session_update] *)

Lemma same_frame_refl s : same_frame s s.
Proof. by split. Qed.

Lemma same_frame_trans s1 s2 s3 :
  same_frame s1 s2 → same_frame s2 s3 → same_frame s1 s3.
Proof.
  intros [Hm Hr Hk Ht] [Hm' Hr' Hk' Ht']. split; congruence.
Qed.

Lemma same_frame_mutate k f s :
  (∀ c, timing (f c) = timing c) → same_frame s (mutate k f s).
Proof.
  intros Hf. split; try done.
  - apply keys_update.
  - intros k'. by apply obj_mutate_unobserved.
Qed.

Lemma same_frame_view s s' :
  same_frame s s' → timing <$> sorted_view s = timing <$> sorted_view s'.
Proof.
  intros [_ Hr _ Ht]. unfold sorted_view. rewrite Hr, <- !list_fmap_compose.
  apply Forall_fmap_ext_1, Forall_forall. intros k _. simpl. by rewrite Ht.
Qed.

Lemma timing_gap v c : timing (assign_calculated_gap v c) = timing c.
Proof. done. Qed.
Lemma timing_diff v c : timing (assign_calculated_diff v c) = timing c.
Proof. done. Qed.
Lemma timing_flag v c : timing (assign_data_updated v c) = timing c.
Proof. done. Qed.

#[local] Hint Resolve same_frame_refl same_frame_mutate timing_gap timing_diff
  timing_flag : store.

Lemma gap_step_frame s i : same_frame s (gap_step s i).
Proof.
  unfold gap_step. case_match;
    (eapply same_frame_trans; [|apply same_frame_mutate]); auto with store.
Qed.

Lemma inv_gap_step s i : session_inv s → session_inv (gap_step s i).
Proof. intros Hs. unfold gap_step. case_match; auto with store. Qed.

(** The iteration at index [i] leaves every other object as it is. *)
Lemma gap_step_others s i k :
  k ≠ nth i (sorted_competitors s) "" → obj (gap_step s i) k = obj s k.
Proof.
  intros Hk. unfold gap_step. simpl.
  case_match; rewrite !obj_mutate_ne; done.
Qed.

Lemma lookup_nth_refs (refs : list string) i k :
  refs !! i = Some k → nth i refs "" = k.
Proof. intros H. by rewrite (nth_lookup_Some _ _ _ _ H). Qed.

Lemma gap_step_lookup s i j :
  NoDup (sorted_competitors s) → (i < length (sorted_competitors s))%nat →
  j ≠ i → sorted_view (gap_step s i) !! j = sorted_view s !! j.
Proof.
  intros Hnd Hi Hj. unfold sorted_view.
  rewrite (frame_refs _ _ (gap_step_frame s i)), !list_lookup_fmap.
  destruct (sorted_competitors s !! j) as [k|] eqn:Hk; [|done]. simpl.
  f_equal. apply gap_step_others. intros ->.
  apply lookup_lt_is_Some_2 in Hi as [k' Hk'].
  rewrite (lookup_nth_refs _ _ _ Hk') in Hk.
  by apply Hj, (NoDup_lookup _ _ _ _ Hnd Hk Hk').
Qed.

(** The iteration at index [i] sets the two fields of the object at [i]. *)
Lemma gap_step_at s j :
  session_inv s → (S j < length (sorted_competitors s))%nat →
  gap_ok_at (sorted_view (gap_step s (S j))) (S j).
Proof.
  intros [_ _ Hnd Hlive] Hi. pose proof (gap_step_frame s (S j)) as Hfr.
  simpl. intros cur prev leader Hcur Hprev Hleader.
  unfold sorted_view in *. rewrite (frame_refs _ _ Hfr) in *.
  rewrite list_lookup_fmap in Hcur, Hprev, Hleader.
  destruct (sorted_competitors s !! S j) as [kc|] eqn:Hkc; [|done].
  destruct (sorted_competitors s !! j) as [kp|] eqn:Hkp; [|done].
  destruct (sorted_competitors s !! 0%nat) as [kl|] eqn:Hkl; [|done].
  simpl in *. simplify_eq.
  assert (kc ∈ Dict.keys (competitors s)) as Hc.
  { apply Hlive. by eapply list_elem_of_lookup_2. }
  pose proof (frame_timing _ _ Hfr kp) as Htp.
  pose proof (frame_timing _ _ Hfr kl) as Htl.
  revert Htp Htl. generalize (obj (gap_step s (S j)) kp) as prev.
  generalize (obj (gap_step s (S j)) kl) as leader. intros leader prev Htp Htl.
  unfold gap_step.
  rewrite (lookup_nth_refs _ _ _ Hkc), (lookup_nth_refs _ _ _ Hkl).
  replace (S j - 1)%nat with j by lia. rewrite (lookup_nth_refs _ _ _ Hkp).
  destruct (total_time_milliseconds (obj s kc) =? 0) eqn:E.
  - rewrite obj_mutate_eq by (by rewrite keys_mutate).
    rewrite obj_mutate_eq by done. simpl. by rewrite E.
  - rewrite obj_mutate_eq by (by rewrite keys_mutate).
    rewrite !obj_mutate_eq by done. simpl. rewrite E. split.
    + apply (diff_against_timing (obj s kc) _ (obj s kp) prev); done.
    + apply (diff_against_timing (assign_calculated_gap _ (obj s kc)) _
               (obj (mutate kc _ s) kl) leader); [done|].
      rewrite Htl. by apply obj_mutate_unobserved.
Qed.

Lemma gap_ok_at_lookup v v' j :
  (∀ j', (j' ≤ j)%nat → v' !! j' = v !! j') → gap_ok_at v j → gap_ok_at v' j.
Proof.
  intros Hlk. destruct j as [|j]; simpl.
  - rewrite Hlk by lia. done.
  - rewrite !Hlk by lia. done.
Qed.

Lemma gap_ok_at_beyond v j : (length v ≤ j)%nat → gap_ok_at v j.
Proof.
  intros Hj. destruct j as [|j]; simpl.
  - intros leader Hl%lookup_lt_Some. lia.
  - intros cur prev leader Hc%lookup_lt_Some. lia.
Qed.

Lemma length_sorted_view s : length (sorted_view s) = length (sorted_competitors s).
Proof. unfold sorted_view. by rewrite length_fmap. Qed.

(** The loop, run up to index [m]. *)
Lemma gap_loop s m :
  session_inv s → (m < length (sorted_competitors s))%nat →
  gap_ok_at (sorted_view s) 0 →
  let s' := foldl gap_step s (seq 1 m) in
  same_frame s s' ∧ session_inv s'
  ∧ ∀ j, (j ≤ m)%nat → gap_ok_at (sorted_view s') j.
Proof.
  intros Hs Hm H0. cbv zeta. induction m as [|m IH].
  - simpl. split_and!; [auto with store|done|]. intros j Hj.
    by replace j with 0%nat by lia.
  - destruct IH as (Hfr & Hinv & Hgaps); [lia|].
    rewrite seq_S, foldl_app. cbn [foldl Nat.add].
    set (s' := foldl gap_step s (seq 1 m)) in *.
    assert (S m < length (sorted_competitors s'))%nat as Hm'.
    { by rewrite (frame_refs _ _ Hfr). }
    split_and!.
    + eapply same_frame_trans; [done|apply gap_step_frame].
    + by apply inv_gap_step.
    + intros j Hj. destruct (decide (j = S m)) as [->|Hne].
      * by apply gap_step_at.
      * eapply gap_ok_at_lookup; [|apply Hgaps; lia].
        intros j' Hj'. apply gap_step_lookup; [apply Hinv|done|lia].
Qed.

Lemma calculate_gaps_and_diffs_spec s :
  session_inv s →
  let s' := calculate_gaps_and_diffs s in
  same_frame s s' ∧ session_inv s' ∧ ∀ j, gap_ok_at (sorted_view s') j.
Proof.
  intros Hs. unfold calculate_gaps_and_diffs.
  destruct (sorted_competitors s) as [|leader refs] eqn:Hrefs.
  - split_and!; [auto with store|done|]. intros j.
    apply gap_ok_at_beyond. rewrite length_sorted_view, Hrefs. simpl. lia.
  - set (s1 := s |> mutate leader (assign_calculated_gap "")
                 |> mutate leader (assign_calculated_diff "")).
    assert (same_frame s s1) as Hfr1.
    { eapply same_frame_trans; apply same_frame_mutate; auto with store. }
    assert (session_inv s1) as Hinv1 by (unfold s1; auto with store).
    assert (sorted_competitors s1 = leader :: refs) as Hrefs1.
    { by rewrite (frame_refs _ _ Hfr1). }
    assert (leader ∈ Dict.keys (competitors s)) as Hlive.
    { apply (inv_live _ Hs). rewrite Hrefs. by left. }
    destruct (gap_loop s1 (length (sorted_competitors s1) - 1))
      as (Hfr & Hinv & Hgaps); [done|rewrite Hrefs1; simpl; lia| |].
    { simpl. unfold sorted_view. rewrite Hrefs1. simpl. intros c [= <-].
      unfold s1. rewrite obj_mutate_eq by (by rewrite keys_mutate).
      by rewrite obj_mutate_eq. }
    split_and!; [by eapply same_frame_trans|done|].
    intros j. destruct (decide (j ≤ length (sorted_competitors s1) - 1)%nat).
    + by apply Hgaps.
    + apply gap_ok_at_beyond. rewrite length_sorted_view.
      rewrite (frame_refs _ _ Hfr). lia.
Qed.

(** The loop of the snapshot builder, for any property of the session that
    clearing [data_updated] on an object keeps. *)
Lemma snapshot_loop (P : Session → Prop) :
  (∀ k s, P s → P (mutate k (assign_data_updated false) s)) →
  ∀ entries s rows, P s → P (foldl snapshot_step (s, rows) entries).1.
Proof.
  intros HP. induction entries as [|[i k] entries IH]; intros s rows Hs;
    simpl; [done|].
  apply IH. by apply HP.
Qed.

Lemma gap_fields_flag v c : gap_fields (assign_data_updated v c) = gap_fields c.
Proof. done. Qed.

(** [handle_session_update] settles any session that satisfies the
    invariant. *)
Lemma handle_session_update_settled h :
  session_inv (session h) → settled (session (handle_session_update h)).
Proof.
  intros Hs. unfold handle_session_update.
  set (s1 := sort_competitors (session h)).
  set (s2 := calculate_gaps_and_diffs s1).
  destruct (calculate_gaps_and_diffs_spec s1) as (Hfr2 & Hinv2 & Hgaps2);
    [by apply inv_sort_competitors|]. fold s2 in Hfr2, Hinv2, Hgaps2.
  set (entries := imap pair (sorted_competitors s2)).
  pose proof (snapshot_loop (λ s, session_inv s) (λ k s H,
    inv_mutate k _ s (keeps_data_updated false) H) entries s2 [] Hinv2) as Hinv3.
  pose proof (snapshot_loop (same_frame s2) (λ k s H,
    same_frame_trans _ _ _ H (same_frame_mutate k _ s (timing_flag false)))
    entries s2 [] (same_frame_refl s2)) as Hfr3.
  pose proof (snapshot_loop
    (λ s, ∀ k, gap_fields (obj s k) = gap_fields (obj s2 k))
    (λ k s H k', eq_trans (obj_mutate_unobserved gap_fields k _ s k'
                             (gap_fields_flag false)) (H k'))
    entries s2 [] (λ k, eq_refl)) as Hgf3.
  simpl in Hinv3, Hfr3, Hgf3.
  destruct (foldl snapshot_step (s2, []) entries) as [s3 rows]. simpl in *.
  assert (same_frame s1 s3) as Hfr by (by eapply same_frame_trans).
  split.
  - done.
  - rewrite (frame_refs _ _ Hfr), (frame_keys _ _ Hfr).
    exact (sort_competitors_refs (session h)).
  - rewrite (frame_mode _ _ Hfr).
    eapply ordered_by_mode_timing; [by apply same_frame_view|].
    exact (sort_competitors_view _ (inv_keys _ Hs)).
  - intros i. eapply gap_ok_at_fields; [|apply Hgaps2].
    unfold sorted_view. rewrite (frame_refs _ _ Hfr3), <- !list_fmap_compose.
    apply Forall_fmap_ext_1, Forall_forall. intros k _. simpl. by rewrite Hgf3.
Qed.

(** ** The batch processor *)

Lemma parse_elements_nonempty line : parse_elements line ≠ [].
Proof.
  unfold parse_elements. pose proof (split_on_nonempty "," line).
  by destruct (split_on "," line).
Qed.

(** The loop of [process_data]: the flag is raised by every line that is not
    blank, whatever its tag and length. *)
Lemma process_line_eq st line :
  process_line st line =
  if blank line then st else (dispatch (parse_elements line) st.1, true).
Proof.
  unfold process_line. case_match; [done|].
  pose proof (parse_elements_nonempty line). by destruct (parse_elements line).
Qed.

Lemma process_lines_flag lines s b :
  (foldl process_line (s, b) lines).2 = b || existsb (λ l, negb (blank l)) lines.
Proof.
  revert s b. induction lines as [|line lines IH]; intros s b; simpl.
  - by rewrite orb_false_r.
  - rewrite process_line_eq. destruct (blank line); simpl; rewrite IH; [done|].
    by rewrite orb_true_r.
Qed.

Lemma process_lines_blank lines st :
  existsb (λ l, negb (blank l)) lines = false →
  foldl process_line st lines = st.
Proof.
  revert st. induction lines as [|line lines IH]; intros st; simpl; [done|].
  intros [Hb Hl]%orb_false_elim. rewrite process_line_eq.
  apply negb_false_iff in Hb. rewrite Hb. by apply IH.
Qed.

Lemma process_lines_inv lines s b :
  session_inv s → session_inv (foldl process_line (s, b) lines).1.
Proof.
  revert s b. induction lines as [|line lines IH]; intros s b Hs; simpl; [done|].
  rewrite process_line_eq. destruct (blank line); simpl; [by apply IH|].
  by apply IH, inv_dispatch.
Qed.

Lemma assign_session_same h : assign_session (session h) h = h.
Proof. by destruct h. Qed.

(** [process_data], by cases on the frame. *)
Lemma process_data_eq h data :
  process_data h data =
  if existsb (λ l, negb (blank l)) (frame_lines data)
  then handle_session_update
         (assign_session
            (foldl process_line (session h, false) (frame_lines data)).1 h)
  else h.
Proof.
  unfold process_data.
  pose proof (process_lines_flag (frame_lines data) (session h) false) as Hf.
  destruct (existsb _ _) eqn:E.
  - destruct (foldl process_line _ _) as [s b]. simpl in *. by rewrite Hf.
  - rewrite (process_lines_blank _ _ E). simpl. apply assign_session_same.
Qed.

Lemma process_data_settled h data :
  settled (session h) → settled (session (process_data h data)).
Proof.
  intros Hs. rewrite process_data_eq. case_match; [|done].
  apply handle_session_update_settled. simpl.
  apply process_lines_inv, Hs.
Qed.

Lemma settled_new : settled new_Session.
Proof.
  split; [apply inv_new|done|constructor|].
  intros i. by apply gap_ok_at_beyond; simpl; lia.
Qed.

Lemma foldl_process_data_settled frames h :
  settled (session h) → settled (session (foldl process_data h frames)).
Proof.
  revert h. induction frames as [|d frames IH]; intros h Hs; simpl; [done|].
  by apply IH, process_data_settled.
Qed.

(** After any sequence of frames the session is settled. *)
Lemma run_settled frames : settled (session (run frames)).
Proof. apply foldl_process_data_settled, settled_new. Qed.

Lemma settled_view_values s :
  settled s → sorted_view s ≡ₚ Dict.values (competitors s).
Proof.
  intros [Hinv Hperm _ _]. unfold sorted_view.
  rewrite Hperm. by rewrite obj_keys_values by apply Hinv.
Qed.

Lemma get_position_number_isdigit p :
  isdigit p = true → get_position_number p = int_of p.
Proof.
  intros Hp. unfold get_position_number, int_of.
  destruct (py_int_isdigit p Hp) as (n & -> & _).
  rewrite Hp. unfold isdigit in Hp. apply andb_prop in Hp as [-> _]. done.
Qed.

(** ** The code against the notions of the specification *)

Lemma pos_key_spec s : get_position_number s = pos_key_as_specified s.
Proof.
  unfold get_position_number, pos_key_as_specified.
  destruct (isdigit s) eqn:Hd.
  - unfold isdigit in Hd. apply andb_prop in Hd as [He _]. rewrite He. simpl.
    by destruct (py_int s).
  - rewrite andb_false_r. by destruct (py_int s).
Qed.

Lemma laps_spec c : laps_int c = laps_as_specified c.
Proof.
  unfold laps_int, int_of, laps_as_specified.
  by destruct (isdigit (laps c)), (py_int (laps c)).
Qed.

Lemma time_or_inf_spec ms : positive_or_inf ms = time_or_inf_as_amended ms.
Proof.
  unfold positive_or_inf, time_or_inf_as_amended.
  destruct (Z.ltb_spec 0 ms); case_decide; done || lia.
Qed.

Lemma race_key_spec x : race_key x = race_key_as_amended x.
Proof.
  unfold race_key, race_key_as_amended.
  rewrite pos_key_spec, time_or_inf_spec, <- laps_spec. unfold laps_int.
  by destruct (isdigit (laps x)).
Qed.

Lemma qualifying_key_spec x : qualifying_key x = qualifying_key_as_specified x.
Proof.
  unfold qualifying_key, qualifying_key_as_specified.
  by rewrite pos_key_spec, time_or_inf_spec.
Qed.

Lemma ext_ltb_spec a b : ext_ltb a b = true ↔ ext_lt_as_specified a b.
Proof. destruct a, b; simpl; rewrite ?Z.ltb_lt; done. Qed.

Lemma race_key_ltb_spec a b :
  race_key_ltb a b = true ↔ race_key_lt_as_specified a b.
Proof.
  rewrite race_key_ltb_true. unfold race_key_lt_as_specified.
  by rewrite ext_ltb_spec.
Qed.

Lemma qualifying_key_ltb_spec a b :
  qualifying_key_ltb a b = true ↔ qualifying_key_lt_as_specified a b.
Proof.
  rewrite qualifying_key_ltb_true. unfold qualifying_key_lt_as_specified.
  by rewrite ext_ltb_spec.
Qed.

Lemma two_digits_facts n :
  0 ≤ n < 100 →
  py_int (two_digits n "") = Some n ∧ fmt_d 2 n = two_digits n ""
  ∧ contains "." (two_digits n "") = false
  ∧ contains ":" (two_digits n "") = false.
Proof.
  intros Hn.
  assert (forallb two_digits_ok (seqZ 0 100) = true) as H
    by (vm_compute; reflexivity).
  rewrite forallb_forall in H. specialize (H n).
  unfold two_digits_ok in H. rewrite !andb_true_iff, !negb_true_iff in H.
  destruct H as [[[H1 H2] H3] H4].
  { apply list_elem_of_In, elem_of_seqZ. lia. }
  by apply bool_decide_eq_true in H1, H2.
Qed.

Lemma three_digits_facts n :
  0 ≤ n < 1000 →
  py_int (three_digits n "") = Some n ∧ fmt_d 3 n = three_digits n ""
  ∧ contains "." (three_digits n "") = false
  ∧ contains ":" (three_digits n "") = false.
Proof.
  intros Hn.
  assert (forallb three_digits_ok (seqZ 0 1000) = true) as H
    by (vm_compute; reflexivity).
  rewrite forallb_forall in H. specialize (H n).
  unfold three_digits_ok in H. rewrite !andb_true_iff, !negb_true_iff in H.
  destruct H as [[[H1 H2] H3] H4].
  { apply list_elem_of_In, elem_of_seqZ. lia. }
  by apply bool_decide_eq_true in H1, H2.
Qed.

(** From 10 on a number has two digits or more, and [format] adds no
    zero. *)
Lemma fmt_d_wide n : 10 ≤ n → fmt_d 2 n = str_of_Z n.
Proof.
  intros Hn. destruct n as [|p|p]; [lia| |lia].
  unfold fmt_d, str_of_Z.
  cbn [Z.ltb Z.compare Z.abs_N Z.to_int N.to_uint NilZero.string_of_int].
  pose proof (DecimalPos.Unsigned.of_to p) as E.
  destruct (Pos.to_uint p) as [|d|d|d|d|d|d|d|d|d|d];
    [discriminate E|..];
    destruct d; try reflexivity;
    vm_compute in E; first [discriminate E|injection E as <-; lia].
Qed.

Lemma fmt_d_pad2 n : 0 ≤ n → fmt_d 2 n = pad2_as_specified n.
Proof.
  intros Hn. unfold pad2_as_specified. case_decide.
  - by destruct (two_digits_facts n) as (_ & -> & _).
  - apply fmt_d_wide. lia.
Qed.

Lemma format_diff_spec ms :
  0 ≤ ms → _format_time_difference ms = format_diff_as_specified ms.
Proof.
  intros Hms. unfold _format_time_difference, format_diff_as_specified.
  destruct (Z.eqb_spec ms 0) as [E|E]; [by rewrite decide_True|].
  rewrite decide_False by done.
  assert (ms / (60 * 60 * 1000) = ms / 3600000) as -> by done.
  assert (ms mod (60 * 60 * 1000) / (60 * 1000) = ms / 60000 mod 60) as ->.
  { Z.div_mod_to_equations. lia. }
  assert (ms mod (60 * 1000) / 1000 = ms / 1000 mod 60) as ->.
  { Z.div_mod_to_equations. lia. }
  assert (0 ≤ ms / 3600000) by (Z.div_mod_to_equations; lia).
  assert (0 ≤ ms / 60000 mod 60 < 60) by (Z.div_mod_to_equations; lia).
  assert (0 ≤ ms / 1000 mod 60 < 60) by (Z.div_mod_to_equations; lia).
  assert (0 ≤ ms mod 1000 < 1000) as Hmmm by (Z.div_mod_to_equations; lia).
  rewrite !fmt_d_pad2 by lia.
  destruct (three_digits_facts _ Hmmm) as (_ & -> & _).
  destruct (Z.ltb_spec 0 (ms / 3600000));
    [by rewrite decide_True by lia|rewrite decide_False by lia].
  destruct (Z.ltb_spec 0 (ms / 60000 mod 60));
    [by rewrite decide_True by lia|by rewrite decide_False by lia].
Qed.

(** * The claims *)

(** ** C10: the competitor map is keyed by [racer_id] *)

(** C10.  After any sequence of frames every entry [(k, c)] of the
    competitor map has [c.racer_id == k]; and every record handler, run
    through the dispatcher on a session that satisfies the invariant,
    yields a map with that property. *)
Theorem competitors_keyed_by_racer_id :
  (∀ frames,
     Forall (λ e, racer_id e.2 = e.1) (competitors (session (run frames))))
  ∧ (∀ elements s, session_inv s →
       Forall (λ e, racer_id e.2 = e.1) (competitors (dispatch elements s))).
Proof.
  assert (∀ s, session_inv s →
               Forall (λ e, racer_id e.2 = e.1) (competitors s)) as H.
  { intros s Hs. eapply Forall_impl; [apply (inv_entries _ Hs)|].
    by intros e [? _]. }
  split.
  - intros frames. apply H, run_settled.
  - intros elements s Hs. by apply H, inv_dispatch.
Qed.

(** ** C2: millisecond fields and their strings *)

(** C2, counterexample.  The record [$G,1,7,3,00:00:00.000] leaves competitor
    7 with [total_time_milliseconds == 0] although [total_time] is neither
    empty nor the sentinel. *)
Lemma zero_total_with_time_string :
  (λ c, (total_time c, total_time_milliseconds c))
    <$> Dict.values (competitors (session (run ["$G,1,7,3,00:00:00.000"])))
  = [("00:00:00.000", 0)]
  ∧ ¬ Forall zero_iff_no_time_as_specified
        (Dict.values (competitors (session (run ["$G,1,7,3,00:00:00.000"])))).
Proof.
  set (v := Dict.values (competitors (session (run ["$G,1,7,3,00:00:00.000"])))).
  vm_compute in v. split; [reflexivity|].
  intros [[H _] _]%Forall_inv.
  destruct H as [H|H]; [reflexivity|discriminate H..].
Qed.

(** C2, as amended.  After any sequence of frames, for every competitor of
    the map [total_time_milliseconds] is [convert_time_to_milliseconds] of
    [total_time], so it is 0 when [total_time] is empty or the sentinel;
    the same holds of [best_time_milliseconds] and [best_time]. *)
Theorem milliseconds_follow_time_strings frames :
  Forall (λ c,
    total_time_milliseconds c = convert_time_to_milliseconds (total_time c)
    ∧ best_time_milliseconds c = convert_time_to_milliseconds (best_time c)
    ∧ (total_time c = "" ∨ total_time c = sentinel →
       total_time_milliseconds c = 0)
    ∧ (best_time c = "" ∨ best_time c = sentinel →
       best_time_milliseconds c = 0))
    (Dict.values (competitors (session (run frames)))).
Proof.
  pose proof (inv_entries _ (settled_inv _ (run_settled frames))) as H.
  unfold Dict.values. apply Forall_fmap. eapply Forall_impl; [exact H|].
  intros [k c] (_ & Ht & Hb); simpl in *. split_and!; [done|done| |].
  - intros [E|E]; rewrite Ht, E; done.
  - intros [E|E]; rewrite Hb, E; done.
Qed.

(** ** C5: the RACE order *)




(** ** C6: gap and diff *)

Lemma diff_against_spec slower faster :
  diff_against slower faster = diff_against_as_specified slower faster.
Proof.
  unfold diff_against, diff_against_as_specified, _calculate_time_difference.
  rewrite <- !laps_spec.
  destruct (Z.eqb_spec (total_time_milliseconds faster) 0) as [E|E];
    [by rewrite decide_True|]. rewrite decide_False by done.
  set (lap_diff := laps_int faster - laps_int slower).
  set (time_diff :=
         total_time_milliseconds slower - total_time_milliseconds faster).
  destruct (Z.ltb_spec 0 lap_diff), (Z.ltb_spec 0 (best_time_milliseconds slower)),
    (Z.ltb_spec (best_time_milliseconds slower) time_diff); simpl;
    try (rewrite decide_False by lia; apply format_diff_spec; lia).
  rewrite decide_True by lia.
  destruct (Z.eqb_spec lap_diff 1) as [->|?];
    [by rewrite decide_True|by rewrite decide_False].
Qed.



(** The two-car race: Prost, 2.5 s behind on the same lap. *)
Example two_car_race_rows :
  (λ r, (col_Pos r, col_Name r, col_Time r, col_Diff r, col_Gap r))
    <$> competitors_df (run [two_car_race])
  = [("1", "Ayrton Senna", "00:20:00.000", "-", "-");
     ("2", "Alain Prost", "00:20:02.500", "+02.500", "+02.500")].
Proof. vm_compute. reflexivity. Qed.

(** Lap-down rendering: Prost a lap behind, and further back than his best
    lap. *)
Example lap_down_rows :
  (λ r, (col_Name r, col_Laps r, col_Diff r, col_Gap r))
    <$> competitors_df (run [two_car_race; lap_down])
  = [("Ayrton Senna", "10", "-", "-"); ("Alain Prost", "9", "+1 LAP", "+1 LAP")].
Proof. vm_compute. reflexivity. Qed.

(** A record with too few fields is skipped, the others are applied. *)
Example malformed_record_rows :
  (λ r, (col_RacerID r, col_Time r, col_Diff r))
    <$> competitors_df (run [malformed_record])
  = [("1", "00:20:00.000", "-"); ("2", "00:20:01.000", "+01.000")].
Proof. vm_compute. reflexivity. Qed.

(** ** C7: the QUALIFYING order *)

(** C7, counterexample.  In the qualifying-reorder scenario the diff of row 1
    is the difference of the total times, [+02.500], and not
    [format_diff(1400)], the difference of the best times. *)
Lemma qualifying_diff_is_of_totals :
  col_Diff <$> competitors_df (run [two_car_race; qualifying_reorder]) !! 1%nat
  = Some "+02.500"
  ∧ _format_time_difference 1400 = "+01.400"
  ∧ col_Diff <$> competitors_df (run [two_car_race; qualifying_reorder]) !! 1%nat
    ≠ Some (_format_time_difference 1400).
Proof.
  set (d := col_Diff <$> competitors_df (run [two_car_race; qualifying_reorder])
              !! 1%nat).
  vm_compute in d. set (f := _format_time_difference 1400). vm_compute in f.
  split_and!; [reflexivity..|]. intros H. discriminate H.
Qed.

(** C7, as amended.  In QUALIFYING mode, after any sequence of frames,
    [sorted_competitors] holds the values of the competitor map in ascending
    order of the pair [(best_or_inf, pos_key(best_position))], compared
    lexicographically, where [best_or_inf] is infinite when
    [best_time_milliseconds <= 0] and the value itself otherwise, and
    [pos_key(s)] is [int(s)] when [s] is non-empty and all digits and 9999
    otherwise: the key of the code is this pair and its order the
    lexicographic one, and after plain frames a competitor with the smaller
    pair is listed first, so one without a best time after those that have
    one, and of two with the same best time the one with the smaller
    [pos_key(best_position)] first.  In the qualifying-reorder scenario the
    order becomes racer 2, racer 1, and the diff of row 1 is
    [format_diff(2500)], that is [+02.500], the difference of the total
    times. *)
Theorem qualifying_order :
  (∀ frames,
     sort_mode (session (run frames)) = QUALIFYING →
     sorted_view (session (run frames))
       ≡ₚ Dict.values (competitors (session (run frames)))
     ∧ ascending qualifying_key_ltb qualifying_key
         (sorted_view (session (run frames))))
  ∧ (∀ x, qualifying_key x = qualifying_key_as_specified x)
  ∧ (∀ a b,
       qualifying_key_ltb a b = true ↔ qualifying_key_lt_as_specified a b)
  ∧ (∀ frames i j A B,
       plain_frames frames = true →
       sort_mode (session (run frames)) = QUALIFYING →
       sorted_view (session (run frames)) !! i = Some A →
       sorted_view (session (run frames)) !! j = Some B →
       qualifying_key_lt_as_specified (qualifying_key_as_specified A)
         (qualifying_key_as_specified B) →
       (i < j)%nat)
  ∧ racer_id
      <$> sorted_view (session (run [two_car_race; qualifying_reorder]))
    = ["2"; "1"]
  ∧ col_Diff <$> competitors_df (run [two_car_race; qualifying_reorder])
    = ["-"; _format_time_difference 2500]
  ∧ _format_time_difference 2500 = "+02.500"
  ∧ format_diff_as_specified 2500 = "+02.500".
Proof.
  split_and!.
  - intros frames Hmode. pose proof (run_settled frames) as Hs.
    pose proof (settled_order _ Hs) as Hord. rewrite Hmode in Hord.
    split; [by apply settled_view_values|done].
  - apply qualifying_key_spec.
  - apply qualifying_key_ltb_spec.
  - intros frames i j A B _ Hmode HA HB Hlt.
    pose proof (settled_order _ (run_settled frames)) as Hord.
    rewrite Hmode in Hord. simpl in Hord.
    eapply (ascending_index qualifying_key_ltb qualifying_key
              qualifying_key_ltb_asym); [exact Hord|exact HA|exact HB|].
    by rewrite qualifying_key_ltb_spec, !qualifying_key_spec.
  - vm_compute. reflexivity.
  - vm_compute. reflexivity.
  - vm_compute. reflexivity.
  - vm_compute. reflexivity.
Qed.

(** C7, witness: the qualifying-reorder scenario. *)
Lemma qualifying_order_witness :
  sort_mode (session (run [two_car_race; qualifying_reorder])) = QUALIFYING
  ∧ ascending qualifying_key_ltb qualifying_key
      (sorted_view (session (run [two_car_race; qualifying_reorder]))).
Proof.
  split; [vm_compute; reflexivity|].
  apply (proj1 qualifying_order [two_car_race; qualifying_reorder]).
  vm_compute; reflexivity.
Defined.

(** ** C3: when a batch emits a snapshot *)

(** C3, counterexample.  A frame whose only line carries an unknown tag
    emits a snapshot: the session table, empty before, has its row. *)
Lemma unknown_tag_emits_snapshot :
  session_df new_Handler = []
  ∧ session_df (process_data new_Handler "$X") = [session_row new_Session]
  ∧ emitted (process_data new_Handler "$X") = 1%nat
  ∧ session_df (process_data new_Handler "$X") ≠ session_df new_Handler.
Proof.
  set (h := process_data new_Handler "$X"). vm_compute in h.
  split_and!; [reflexivity..|]. intros H. discriminate H.
Qed.

Lemma emitted_handle_session_update h :
  emitted (handle_session_update h) = S (emitted h).
Proof.
  unfold handle_session_update. by destruct (foldl snapshot_step _ _).
Qed.

(** C3, as amended.  [process_data] runs [handle_session_update], once, if
    and only if some line of the frame is not blank; a line with an unknown
    tag or with too few fields counts like any other.  A frame whose lines
    are all blank leaves the handler, and so the published tables, as they
    were. *)
Theorem snapshot_iff_some_line_not_blank h data :
  (emitted (process_data h data) = S (emitted h)
   ↔ ∃ line, line ∈ frame_lines data ∧ blank line = false)
  ∧ (emitted (process_data h data) = emitted h
     ↔ ∀ line, line ∈ frame_lines data → blank line = true)
  ∧ ((∀ line, line ∈ frame_lines data → blank line = true) →
     process_data h data = h).
Proof.
  rewrite process_data_eq.
  destruct (existsb _ _) eqn:E.
  - apply existsb_exists in E as (line & Hin%list_elem_of_In & Hb%negb_true_iff).
    rewrite emitted_handle_session_update. simpl. split_and!.
    + split; [eauto|done].
    + split; [lia|]. intros H. rewrite (H line Hin) in Hb. done.
    + intros H. rewrite (H line Hin) in Hb. done.
  - assert (∀ line, line ∈ frame_lines data → blank line = true) as Hall.
    { intros line Hin%list_elem_of_In. apply negb_false_iff.
      destruct (negb (blank line)) eqn:Hl; [|done].
      rewrite <- E. symmetry. apply existsb_exists. eauto. }
    split_and!; [|done|done].
    split; [lia|]. intros (line & Hin & Hb). rewrite (Hall line Hin) in Hb. done.
Qed.

(** ** C1: reset *)

(** What [reset_session] assigns and what it leaves. *)
Lemma reset_session_effect s :
  classes (reset_session s) = ∅
  ∧ competitors (reset_session s) = []
  ∧ sorted_competitors (reset_session s) = []
  ∧ session_id (reset_session s) = ""
  ∧ session_name (reset_session s) = ""
  ∧ track_name (reset_session s) = ""
  ∧ current_time (reset_session s) = ""
  ∧ session_time (reset_session s) = ""
  ∧ time_to_go (reset_session s) = ""
  ∧ laps_to_go (reset_session s) = ""
  ∧ flag_status (reset_session s) = ""
  ∧ sort_mode (reset_session s) = sort_mode s
  ∧ track_length (reset_session s) = track_length s.
Proof. by split_and!. Qed.

(** Reset preserves the mode: [$RMS,qualifying] then [$I]. *)
Example reset_preserves_mode :
  sort_mode (session (run ["$RMS,qualifying"; "$I"])) = QUALIFYING
  ∧ competitors (session (run ["$RMS,qualifying"; "$I"])) = []
  ∧ classes (session (run ["$RMS,qualifying"; "$I"])) = ∅.
Proof.
  set (s := session (run ["$RMS,qualifying"; "$I"])). vm_compute in s.
  by split_and!.
Qed.

(** C1, at the failing input.  After [$E,TRACKLENGTH,4309] the record [$I]
    leaves [track_length] at [4309]: [reset_session] assigns every other
    scalar of the session, [track_name] among them, and not this one. *)
Theorem reset_keeps_track_length :
  track_length (session (run ["$E,TRACKLENGTH,4309"; "$I"])) = "4309"
  ∧ track_length (session (run ["$E,TRACKLENGTH,4309"; "$I"]))
    ≠ track_length new_Session.
Proof.
  set (t := track_length (session (run ["$E,TRACKLENGTH,4309"; "$I"]))).
  vm_compute in t. split; [reflexivity|]. intros H. discriminate H.
Qed.

(** ** C4: quotes in fields *)

Lemma contains_remove_char c s : contains c (remove_char c s) = false.
Proof.
  induction s as [|a r IH]; simpl; [done|].
  destruct (Ascii.eqb a c) eqn:E; simpl; [done|]. by rewrite E.
Qed.

Lemma remove_char_id c s : contains c s = false → remove_char c s = s.
Proof.
  induction s as [|a r IH]; simpl; [done|].
  intros [-> Hr]%orb_false_elim. by rewrite IH.
Qed.

Lemma remove_char_drop_last c r :
  last_char r = Some c → remove_char c r = remove_char c (drop_last r).
Proof.
  induction r as [|a r IH]; [done|]. destruct r as [|b r].
  - simpl. intros [= ->]. by rewrite Ascii.eqb_refl.
  - intros H. change (last_char (String b r) = Some c) in H.
    specialize (IH H).
    change (remove_char c (String a (String b r)))
      with (if Ascii.eqb a c then remove_char c (String b r)
            else String a (remove_char c (String b r))).
    change (remove_char c (drop_last (String a (String b r))))
      with (if Ascii.eqb a c then remove_char c (drop_last (String b r))
            else String a (remove_char c (drop_last (String b r)))).
    by rewrite IH.
Qed.

(** C4, counterexample.  In the line [$B,"S1,x"y] the second field has a
    quote on one side only and the third an interior quote; the parser
    removes both, where the specification keeps them. *)
Lemma one_sided_and_interior_quotes_removed :
  parse_elements
    ("$B," +:+ String dquote "S1,x" +:+ String dquote "y")
  = ["$B"; "S1"; "xy"]
  ∧ parse_elements_as_specified
      ("$B," +:+ String dquote "S1,x" +:+ String dquote "y")
    = ["$B"; String dquote "S1"; "x" +:+ String dquote "y"]
  ∧ parse_elements
      ("$B," +:+ String dquote "S1,x" +:+ String dquote "y")
    ≠ parse_elements_as_specified
        ("$B," +:+ String dquote "S1,x" +:+ String dquote "y").
Proof.
  split_and!; [vm_compute; reflexivity..|].
  intros H. vm_compute in H. discriminate H.
Qed.

(** C4, as amended.  The record parser splits the line on [,] and removes
    every ASCII double quote from each field, so that no field contains
    one; on a field this agrees with stripping one surrounding pair exactly
    when that leaves no quote in the field. *)
Theorem parser_removes_every_quote line :
  parse_elements line = remove_char dquote <$> split_on "," line
  ∧ Forall (λ field, contains dquote field = false) (parse_elements line)
  ∧ ∀ field,
      remove_char dquote field = strip_quote_pair_as_specified field
      ↔ contains dquote (strip_quote_pair_as_specified field) = false.
Proof.
  split_and!; [done| |].
  - unfold parse_elements. apply Forall_fmap, Forall_forall. intros f _.
    apply contains_remove_char.
  - intros field. split.
    + intros <-. apply contains_remove_char.
    + destruct field as [|c r]; [done|]. unfold strip_quote_pair_as_specified.
      destruct (Ascii.eqb c dquote) eqn:Ec; cbn [andb].
      * case_bool_decide as Hl.
        -- intros Hno. cbn [remove_char]. rewrite Ec.
           by rewrite (remove_char_drop_last _ _ Hl), remove_char_id.
        -- apply remove_char_id.
      * apply remove_char_id.
Qed.

(** ** C8: the time round trip *)

Lemma contains_app c a b : contains c (a +:+ b) = contains c a || contains c b.
Proof.
  induction a as [|x a IH]; [done|].
  change (String x a +:+ b) with (String x (a +:+ b)). cbn [contains].
  by rewrite IH, orb_assoc.
Qed.

Lemma split_on_app sep a b :
  contains sep a = false →
  split_on sep (a +:+ String sep b) = a :: split_on sep b.
Proof.
  induction a as [|x a IH].
  - intros _. change ("" +:+ String sep b) with (String sep b).
    cbn [split_on]. by rewrite Ascii.eqb_refl.
  - change (String x a +:+ String sep b) with (String x (a +:+ String sep b)).
    cbn [split_on contains]. intros [-> Ha]%orb_false_elim. by rewrite IH.
Qed.

Lemma split_on_absent sep a : contains sep a = false → split_on sep a = [a].
Proof.
  induction a as [|x a IH]; cbn [split_on contains]; [done|].
  intros [-> Ha]%orb_false_elim. by rewrite IH.
Qed.

Lemma clock_string_app h m s ms :
  clock_string h m s ms =
  (two_digits h "" +:+ String ":" (two_digits m "" +:+ String ":" (two_digits s "")))
  +:+ String "." (three_digits ms "").
Proof. reflexivity. Qed.

(** Parsing a clock string gives its reading in milliseconds. *)
Lemma parse_clock_string h m s ms :
  0 ≤ h < 100 → 0 ≤ m < 100 → 0 ≤ s < 100 → 0 ≤ ms < 1000 →
  parse_clock (clock_string h m s ms)
  = Some (h * 3600000 + m * 60000 + s * 1000 + ms).
Proof.
  intros Hh Hm Hs Hms.
  destruct (two_digits_facts h Hh) as (Ih & _ & Dh & Ch).
  destruct (two_digits_facts m Hm) as (Im & _ & Dm & Cm).
  destruct (two_digits_facts s Hs) as (Is & _ & Ds & Cs).
  destruct (three_digits_facts ms Hms) as (Ims & _ & Dms & _).
  unfold parse_clock. rewrite clock_string_app.
  set (hms := two_digits h "" +:+ String ":" (two_digits m "" +:+ String ":" (two_digits s ""))).
  assert (contains "." hms = false) as Dhms.
  { unfold hms. rewrite !contains_app. cbn [contains].
    rewrite !contains_app. cbn [contains]. by rewrite Dh, Dm, Ds. }
  rewrite contains_app. cbn [contains]. rewrite Ascii.eqb_refl, orb_true_r.
  rewrite split_on_app, split_on_absent by done.
  rewrite Ims. cbn [mbind option_bind].
  unfold hms. rewrite !split_on_app, split_on_absent by done.
  cbn [mapM mbind option_bind mret option_ret]. rewrite Ih, Im, Is.
  cbn. f_equal. lia.
Qed.

(** C8, counterexample.  The valid time [00:00:00.000] is not the sentinel;
    it converts to 0, which is formatted as the empty string, and padding
    the empty string does not give [+00:00:00.000]. *)
Lemma zero_time_formats_empty :
  clock_string 0 0 0 0 = "00:00:00.000"
  ∧ _format_time_difference (convert_time_to_milliseconds "00:00:00.000") = ""
  ∧ normalize_padding
      (_format_time_difference (convert_time_to_milliseconds "00:00:00.000"))
    ≠ "+" +:+ "00:00:00.000".
Proof.
  set (out := _format_time_difference
                (convert_time_to_milliseconds "00:00:00.000")).
  vm_compute in out. split_and!; [reflexivity..|].
  intros H. vm_compute in H. discriminate H.
Qed.

(** C8, as amended.  For every time string [HH:MM:SS.mmm] with [H < 24],
    [M < 60], [S < 60], [mmm < 1000] that is neither the sentinel nor
    [00:00:00.000], formatting the converted time gives [+] and the string
    again, once the omitted leading components are padded back. *)
Theorem time_round_trip h m s ms :
  0 ≤ h < 24 → 0 ≤ m < 60 → 0 ≤ s < 60 → 0 ≤ ms < 1000 →
  clock_string h m s ms ≠ sentinel →
  clock_string h m s ms ≠ "00:00:00.000" →
  normalize_padding
    (_format_time_difference
       (convert_time_to_milliseconds (clock_string h m s ms)))
  = "+" +:+ clock_string h m s ms.
Proof.
  intros Hh Hm Hs Hms Hsent Hzero.
  assert (convert_time_to_milliseconds (clock_string h m s ms)
          = h * 3600000 + m * 60000 + s * 1000 + ms) as ->.
  { unfold convert_time_to_milliseconds.
    destruct (eqb_string_spec (clock_string h m s ms) sentinel); [done|].
    cbn [is_empty clock_string two_digits orb].
    change (String _ (String _ _)) with (clock_string h m s ms).
    rewrite parse_clock_string by lia. done. }
  assert (¬ (h = 0 ∧ m = 0 ∧ s = 0 ∧ ms = 0)) as Hnz.
  { intros (-> & -> & -> & ->). by apply Hzero. }
  set (total := h * 3600000 + m * 60000 + s * 1000 + ms).
  destruct (two_digits_facts h ltac:(lia)) as (_ & Fh & _ & Ch).
  destruct (two_digits_facts m ltac:(lia)) as (_ & Fm & _ & Cm).
  destruct (two_digits_facts s ltac:(lia)) as (_ & Fs & _ & Cs).
  destruct (three_digits_facts ms ltac:(lia)) as (_ & Fms & _ & Cms).
  unfold _format_time_difference.
  assert (total / (60 * 60 * 1000) = h) as ->.
  { symmetry. apply (Z.div_unique _ _ _ (m * 60000 + s * 1000 + ms));
      unfold total; lia. }
  assert (total mod (60 * 60 * 1000) / (60 * 1000) = m) as ->.
  { rewrite <- (Z.mod_unique total (60 * 60 * 1000) h
                  (m * 60000 + s * 1000 + ms)) by (unfold total; lia).
    symmetry. apply (Z.div_unique _ _ _ (s * 1000 + ms)); lia. }
  assert (total mod (60 * 1000) / 1000 = s) as ->.
  { rewrite <- (Z.mod_unique total (60 * 1000) (h * 60 + m)
                  (s * 1000 + ms)) by (unfold total; lia).
    symmetry. apply (Z.div_unique _ _ _ ms); lia. }
  assert (total mod 1000 = ms) as ->.
  { symmetry. apply (Z.mod_unique _ _ (h * 3600 + m * 60 + s));
      unfold total; lia. }
  assert ((total =? 0) = false) as -> by (apply Z.eqb_neq; unfold total; lia).
  rewrite Fh, Fm, Fs, Fms.
  assert (contains ":" (two_digits s "" +:+ String "." (three_digits ms ""))
          = false) as Csms.
  { rewrite contains_app. cbn [contains]. by rewrite Cs, Cms. }
  destruct (Z.ltb_spec 0 h); [|destruct (Z.ltb_spec 0 m)].
  - change (normalize_padding (String "+" (clock_string h m s ms))
            = String "+" (clock_string h m s ms)).
    unfold normalize_padding. change (Ascii.eqb "+" "+") with true. cbv iota.
    change (clock_string h m s ms)
      with (two_digits h "" +:+ String ":" (two_digits m "" +:+ String ":"
              (two_digits s "" +:+ String "." (three_digits ms "")))) at 1.
    rewrite !split_on_app, split_on_absent by done. reflexivity.
  - assert (h = 0) as -> by lia.
    set (rest := two_digits m "" +:+ String ":"
                   (two_digits s "" +:+ String "." (three_digits ms ""))).
    change (normalize_padding (String "+" rest) = "+00:" +:+ rest).
    unfold normalize_padding. change (Ascii.eqb "+" "+") with true. cbv iota.
    unfold rest at 1.
    rewrite !split_on_app, split_on_absent by done. reflexivity.
  - assert (h = 0) as -> by lia. assert (m = 0) as -> by lia.
    set (rest := two_digits s "" +:+ String "." (three_digits ms "")).
    change (normalize_padding (String "+" rest) = "+00:00:" +:+ rest).
    unfold normalize_padding. change (Ascii.eqb "+" "+") with true. cbv iota.
    rewrite split_on_absent by done. reflexivity.
Qed.

(** C8, witness: [01:02:03.004]. *)
Lemma time_round_trip_witness :
  clock_string 1 2 3 4 = "01:02:03.004"
  ∧ normalize_padding
      (_format_time_difference (convert_time_to_milliseconds "01:02:03.004"))
    = "+01:02:03.004".
Proof.
  split; [reflexivity|].
  apply (time_round_trip 1 2 3 4); try lia; intros H; discriminate H.
Defined.

(** ** C9: [connect] *)

(** A library in which both calls succeed, and two in which one fails. *)
Example connect_on_fresh_handler :
  connect {| WebSocketApp_call := Returns; Thread_start := Returns |}
    "wss://host/feed" new_Handler new_World
  = (new_Handler |> assign_websocket (Some 0%nat) |> assign_running true
                 |> assign_listen_thread (Some 0%nat),
     {| sockets_created := 1; threads_created := 1; workers_started := [0%nat];
        logged := [INFO] |},
     Returns).
Proof. reflexivity. Qed.

(** C9, counterexample.  A second [connect] on a running client is not
    rejected: it replaces the socket and starts a second worker.  And a
    failing [connect] returns to its caller, having logged the error. *)
Lemma second_connect_replaces_socket :
  let lib := {| WebSocketApp_call := Returns; Thread_start := Returns |} in
  let broken := {| WebSocketApp_call := Raises; Thread_start := Returns |} in
  let first := connect lib "wss://host/feed" new_Handler new_World in
  let second := connect lib "wss://host/feed" first.1.1 first.1.2 in
  let failed := connect broken "wss://host/feed" new_Handler new_World in
  running first.1.1 = true
  ∧ websocket first.1.1 = Some 0%nat
  ∧ websocket second.1.1 = Some 1%nat
  ∧ workers_started second.1.2 = [0%nat; 1%nat]
  ∧ websocket second.1.1 ≠ websocket first.1.1
  ∧ failed.2 = Returns
  ∧ logged failed.1.2 = [INFO; ERROR; DEBUG].
Proof. cbv zeta. split_and!; [reflexivity..|discriminate|reflexivity|reflexivity]. Qed.

(** C9, as amended.  [connect] does not look at [running]: on any client,
    running or not, a successful call stores a new socket, sets [running]
    and starts one more worker; when the socket constructor or the thread
    start raises, the exception is caught and logged, [running] is [False]
    afterwards and no worker was started; in every case [connect] returns
    to its caller without raising.  A failure that the socket library
    reports later reaches [on_error], which logs it and leaves the handler
    as it is; [on_close] sets [running] to [False]. *)
Theorem connect_behaviour lib ws_url h w :
  (connect lib ws_url h w).2 = Returns
  ∧ (WebSocketApp_call lib = Returns → Thread_start lib = Returns →
     running (connect lib ws_url h w).1.1 = true
     ∧ websocket (connect lib ws_url h w).1.1 = Some (sockets_created w)
     ∧ workers_started (connect lib ws_url h w).1.2
       = workers_started w ++ [sockets_created w])
  ∧ (WebSocketApp_call lib = Raises ∨ Thread_start lib = Raises →
     running (connect lib ws_url h w).1.1 = false
     ∧ ERROR ∈ logged (connect lib ws_url h w).1.2
     ∧ workers_started (connect lib ws_url h w).1.2 = workers_started w)
  ∧ (on_error h w).1 = h
  ∧ running (on_close h w).1 = false.
Proof.
  unfold connect, connect_except.
  destruct (WebSocketApp_call lib), (Thread_start lib); simpl;
    split_and!; try done; try (intros [?|?]; done); intros _.
  all: split_and!; try done; set_solver.
Qed.

(** * Further properties of the code *)

(** ** Records that are skipped *)

Lemma dispatch_skipped elements s :
  skipped elements = true → dispatch elements s = s.
Proof.
  unfold skipped, min_fields, dispatch.
  repeat case_match; simplify_eq; try done; intros Hlen%Nat.ltb_lt;
    try lia;
    unfold handle_race_progress_data, handle_driver_data,
      handle_race_session_data, handle_race_class_data,
      handle_extended_driver_data, handle_track_data,
      handle_race_position_data, handle_best_lap_time_data,
      handle_last_lap_time_data, handle_sort_mode_data;
    by rewrite (proj2 (Nat.leb_gt _ _)) by lia.
Qed.

(** X1.  A record with a tag that [process_data] does not list, or with fewer
    elements than its handler asks for, changes nothing in the session. *)
Theorem skipped_record_changes_nothing elements s :
  skipped elements = true → dispatch elements s = s.
Proof. apply dispatch_skipped. Qed.

(** X1, witness: a [$G] record of two elements. *)
Lemma skipped_record_changes_nothing_witness :
  skipped ["$G"; "broken"] = true
  ∧ dispatch ["$G"; "broken"] new_Session = new_Session.
Proof.
  split; [reflexivity|].
  apply (skipped_record_changes_nothing ["$G"; "broken"]). reflexivity.
Defined.

(** ** Upserts *)

Section UpdateFacts.
Context {V : Type}.
Implicit Types (d : list (string * V)) (k : string) (f g : V → V).

Lemma update_update k f g d :
  Dict.update k f (Dict.update k g d) = Dict.update k (f ∘ g) d.
Proof.
  induction d as [|[k' v] d IH]; simpl; [done|].
  destruct (String.eqb k k') eqn:E; simpl; rewrite E; [done|].
  by rewrite IH.
Qed.

Lemma update_ext k f g d :
  (∀ v, Dict.get k d = Some v → f v = g v) →
  Dict.update k f d = Dict.update k g d.
Proof.
  induction d as [|[k' v] d IH]; simpl; [done|].
  destruct (String.eqb k k') eqn:E; intros H.
  - by rewrite H.
  - by rewrite IH.
Qed.

Lemma update_id k f d :
  (∀ v, Dict.get k d = Some v → f v = v) → Dict.update k f d = d.
Proof.
  induction d as [|[k' v] d IH]; simpl; [done|].
  destruct (String.eqb k k') eqn:E; intros H.
  - by rewrite H.
  - by rewrite IH.
Qed.

Lemma get_app_new k k' v d :
  Dict.get k' (d ++ [(k, v)]) =
  match Dict.get k' d with
  | Some x => Some x
  | None => if String.eqb k' k then Some v else None
  end.
Proof.
  induction d as [|[k0 v0] d IH]; simpl; [done|].
  by destruct (String.eqb k' k0).
Qed.
End UpdateFacts.

Lemma assign_competitors_same s : assign_competitors (competitors s) s = s.
Proof. by destruct s. Qed.

Lemma mutate_mutate k f g s :
  mutate k f (mutate k g s) = mutate k (f ∘ g) s.
Proof. unfold mutate; simpl. by rewrite update_update. Qed.

Lemma mutate_ext k f g s :
  (k ∈ Dict.keys (competitors s) → f (obj s k) = g (obj s k)) →
  mutate k f s = mutate k g s.
Proof.
  intros H. unfold mutate. f_equal. apply update_ext. intros c Hc.
  unfold obj in H. rewrite Hc in H. apply H, get_is_Some_keys. by exists c.
Qed.

Lemma mutate_id k f s :
  (k ∈ Dict.keys (competitors s) → f (obj s k) = obj s k) →
  mutate k f s = s.
Proof.
  intros H. unfold mutate. rewrite update_id; [apply assign_competitors_same|].
  intros c Hc. unfold obj in H. rewrite Hc in H.
  apply H, get_is_Some_keys. by exists c.
Qed.

Lemma get_obj s k :
  k ∈ Dict.keys (competitors s) → Dict.get k (competitors s) = Some (obj s k).
Proof. intros [c Hc]%get_is_Some_keys. unfold obj. by rewrite Hc. Qed.

Lemma live_get_competitor k s :
  k ∈ Dict.keys (competitors (get_competitor k s)).
Proof.
  unfold get_competitor. destruct (Dict.get k (competitors s)) eqn:E.
  - apply get_is_Some_keys. by rewrite E.
  - simpl. unfold Dict.keys. rewrite fmap_app. apply elem_of_app. right.
    by left.
Qed.

Lemma keys_get_competitor k s :
  Dict.keys (competitors (get_competitor k s)) =
  Dict.keys (competitors s)
  ++ (if decide (k ∈ Dict.keys (competitors s)) then [] else [k]).
Proof.
  unfold get_competitor. destruct (Dict.get k (competitors s)) eqn:E.
  - rewrite decide_True; [by rewrite app_nil_r|].
    apply get_is_Some_keys. by rewrite E.
  - apply get_None_keys in E. rewrite decide_False by done.
    simpl. unfold Dict.keys. by rewrite fmap_app.
Qed.

Lemma obj_get_competitor k s k' : obj (get_competitor k s) k' = obj s k'.
Proof.
  unfold get_competitor, obj. destruct (Dict.get k (competitors s)) eqn:E;
    [done|]. simpl. rewrite get_app_new.
  destruct (Dict.get k' (competitors s)) eqn:E'; [done|].
  destruct (eqb_string_spec k' k) as [->|]; done.
Qed.

Lemma get_get_competitor_ne k k' s :
  k ≠ k' →
  Dict.get k' (competitors (get_competitor k s)) = Dict.get k' (competitors s).
Proof.
  intros Hne. unfold get_competitor.
  destruct (Dict.get k (competitors s)) eqn:E; [done|]. simpl.
  rewrite get_app_new. destruct (Dict.get k' (competitors s)); [done|].
  destruct (eqb_string_spec k' k) as [->|]; done.
Qed.

(** What an upsert does to the map and to the rest of the session. *)
Lemma upsert_spec k f s :
  Dict.get k (competitors (upsert k f s)) = Some (f (obj s k))
  ∧ (∀ k', k ≠ k' →
       Dict.get k' (competitors (upsert k f s)) = Dict.get k' (competitors s))
  ∧ Dict.keys (competitors (upsert k f s))
    = Dict.keys (competitors s)
      ++ (if decide (k ∈ Dict.keys (competitors s)) then [] else [k])
  ∧ outside_competitors (upsert k f s) = outside_competitors s.
Proof.
  unfold upsert. split_and!.
  - rewrite get_obj by (rewrite keys_mutate; apply live_get_competitor).
    rewrite obj_mutate_eq by apply live_get_competitor.
    by rewrite obj_get_competitor.
  - intros k' Hne. simpl. rewrite get_update_ne by done.
    by apply get_get_competitor_ne.
  - rewrite keys_mutate. apply keys_get_competitor.
  - unfold get_competitor. by destruct (Dict.get k (competitors s)).
Qed.

Lemma upsert_upsert k f g s :
  upsert k f (upsert k g s) = upsert k (f ∘ g) s.
Proof.
  unfold upsert at 1. unfold get_competitor.
  destruct (upsert_spec k g s) as (-> & _). unfold upsert.
  apply mutate_mutate.
Qed.

Lemma upsert_ext k f g s :
  f (obj s k) = g (obj s k) → upsert k f s = upsert k g s.
Proof.
  intros H. unfold upsert. apply mutate_ext. intros _.
  by rewrite obj_get_competitor.
Qed.

(** The handlers of the records that name a racer, as upserts. *)
Lemma handle_driver_data_upsert elements s :
  (8 ≤ length elements)%nat →
  handle_driver_data elements s
  = upsert (item elements 1)
      (λ c, c |> assign_number (item elements 2)
              |> assign_transponder (item elements 3)
              |> assign_first_name (item elements 4)
              |> assign_last_name (item elements 5)
              |> assign_nationality (item elements 6)
              |> assign_category (item elements 7)) s.
Proof.
  intros Hlen%Nat.leb_le. unfold handle_driver_data, upsert. rewrite Hlen.
  by rewrite !mutate_mutate.
Qed.

Lemma handle_extended_driver_data_upsert elements s :
  (8 ≤ length elements)%nat →
  handle_extended_driver_data elements s
  = upsert (item elements 1)
      (λ c, c |> assign_number (item elements 2)
              |> assign_category (item elements 3)
              |> assign_first_name (item elements 4)
              |> assign_last_name (item elements 5)
              |> assign_nationality (item elements 6)
              |> assign_additional_data (item elements 7)) s.
Proof.
  intros Hlen%Nat.leb_le. unfold handle_extended_driver_data, upsert.
  rewrite Hlen. by rewrite !mutate_mutate.
Qed.

Lemma handle_race_position_data_upsert elements s :
  (5 ≤ length elements)%nat →
  handle_race_position_data elements s
  = upsert (item elements 2)
      (λ c, (if standing_differs (item elements 1) (item elements 3)
                  (item elements 4) c
             then assign_data_updated true c else c)
              |> assign_position (item elements 1)
              |> assign_laps (item elements 3)
              |> set_total_time (item elements 4)) s.
Proof.
  intros Hlen%Nat.leb_le. unfold handle_race_position_data, upsert.
  rewrite Hlen. fold (standing_differs (item elements 1) (item elements 3)
    (item elements 4) (obj (get_competitor (item elements 2) s)
                         (item elements 2))).
  set (s1 := get_competitor (item elements 2) s).
  destruct (standing_differs _ _ _ (obj s1 _)) eqn:E.
  - rewrite !mutate_mutate. apply mutate_ext. intros _. simpl. by rewrite E.
  - rewrite !mutate_mutate. apply mutate_ext. intros _. simpl. by rewrite E.
Qed.

Lemma handle_best_lap_time_data_upsert elements s :
  (5 ≤ length elements)%nat →
  handle_best_lap_time_data elements s
  = upsert (item elements 2)
      (λ c, (if best_differs (item elements 1) (item elements 3)
                  (item elements 4) c
             then assign_data_updated true c else c)
              |> assign_best_position (item elements 1)
              |> assign_best_lap (item elements 3)
              |> set_best_time (item elements 4)) s.
Proof.
  intros Hlen%Nat.leb_le. unfold handle_best_lap_time_data, upsert.
  rewrite Hlen. fold (best_differs (item elements 1) (item elements 3)
    (item elements 4) (obj (get_competitor (item elements 2) s)
                         (item elements 2))).
  set (s1 := get_competitor (item elements 2) s).
  destruct (best_differs _ _ _ (obj s1 _)) eqn:E.
  - rewrite !mutate_mutate. apply mutate_ext. intros _. simpl. by rewrite E.
  - rewrite !mutate_mutate. apply mutate_ext. intros _. simpl. by rewrite E.
Qed.

Lemma handle_last_lap_time_data_upsert elements s :
  (4 ≤ length elements)%nat →
  handle_last_lap_time_data elements s
  = upsert (item elements 1)
      (λ c, c |> assign_last_lap_time (item elements 2)
              |> set_total_time (item elements 3)
              |> assign_data_updated true) s.
Proof.
  intros Hlen%Nat.leb_le. unfold handle_last_lap_time_data, upsert.
  rewrite Hlen. by rewrite !mutate_mutate.
Qed.

Lemma dispatch_A elements s :
  item elements 0 = "$A" → dispatch elements s = handle_driver_data elements s.
Proof. intros H. unfold dispatch. by rewrite H. Qed.

Lemma dispatch_COMP elements s :
  item elements 0 = "$COMP" →
  dispatch elements s = handle_extended_driver_data elements s.
Proof. intros H. unfold dispatch. by rewrite H. Qed.

Lemma dispatch_G elements s :
  item elements 0 = "$G" →
  dispatch elements s = handle_race_position_data elements s.
Proof. intros H. unfold dispatch. by rewrite H. Qed.

Lemma dispatch_H elements s :
  item elements 0 = "$H" →
  dispatch elements s = handle_best_lap_time_data elements s.
Proof. intros H. unfold dispatch. by rewrite H. Qed.

Lemma dispatch_J elements s :
  item elements 0 = "$J" →
  dispatch elements s = handle_last_lap_time_data elements s.
Proof. intros H. unfold dispatch. by rewrite H. Qed.

Lemma dispatch_C elements s :
  item elements 0 = "$C" →
  dispatch elements s = handle_race_class_data elements s.
Proof. intros H. unfold dispatch. by rewrite H. Qed.

(** X2.  A [$A] or [$COMP] record with at least eight elements creates the
    competitor named by element 1 when absent and assigns its six identity
    fields; the competitor's standing (position, laps, times) is what it
    was, or the default when created; no other competitor and nothing else
    in the session changes, and a created key goes to the end of the map. *)
Theorem identity_record_upserts elements s :
  (8 ≤ length elements)%nat →
  item elements 0 = "$A" ∨ item elements 0 = "$COMP" →
  ∃ c,
    Dict.get (item elements 1) (competitors (dispatch elements s)) = Some c
    ∧ c = (if String.eqb (item elements 0) "$A"
           then obj s (item elements 1)
                  |> assign_number (item elements 2)
                  |> assign_transponder (item elements 3)
                  |> assign_first_name (item elements 4)
                  |> assign_last_name (item elements 5)
                  |> assign_nationality (item elements 6)
                  |> assign_category (item elements 7)
           else obj s (item elements 1)
                  |> assign_number (item elements 2)
                  |> assign_category (item elements 3)
                  |> assign_first_name (item elements 4)
                  |> assign_last_name (item elements 5)
                  |> assign_nationality (item elements 6)
                  |> assign_additional_data (item elements 7))
    ∧ gap_fields c = gap_fields (obj s (item elements 1))
    ∧ (∀ k, item elements 1 ≠ k →
         Dict.get k (competitors (dispatch elements s))
         = Dict.get k (competitors s))
    ∧ Dict.keys (competitors (dispatch elements s))
      = Dict.keys (competitors s)
        ++ (if decide (item elements 1 ∈ Dict.keys (competitors s))
            then [] else [item elements 1])
    ∧ outside_competitors (dispatch elements s) = outside_competitors s.
Proof.
  intros Hlen [Htag|Htag].
  - rewrite (dispatch_A _ _ Htag), handle_driver_data_upsert, Htag by done.
    destruct (upsert_spec (item elements 1)
      (λ c, c |> assign_number (item elements 2)
              |> assign_transponder (item elements 3)
              |> assign_first_name (item elements 4)
              |> assign_last_name (item elements 5)
              |> assign_nationality (item elements 6)
              |> assign_category (item elements 7)) s) as (H1 & H2 & H3 & H4).
    eexists. split_and!; [exact H1|done|done|exact H2|exact H3|exact H4].
  - rewrite (dispatch_COMP _ _ Htag), handle_extended_driver_data_upsert, Htag
      by done.
    destruct (upsert_spec (item elements 1)
      (λ c, c |> assign_number (item elements 2)
              |> assign_category (item elements 3)
              |> assign_first_name (item elements 4)
              |> assign_last_name (item elements 5)
              |> assign_nationality (item elements 6)
              |> assign_additional_data (item elements 7)) s)
      as (H1 & H2 & H3 & H4).
    eexists. split_and!; [exact H1|done|done|exact H2|exact H3|exact H4].
Qed.

(** X2, witness: Senna's [$A] record on a fresh session. *)
Lemma identity_record_upserts_witness :
  ∃ c,
    Dict.get "1"
      (competitors
         (dispatch ["$A"; "1"; "11"; "T1"; "Ayrton"; "Senna"; "BR"; "A"]
            new_Session))
    = Some c
    ∧ first_name c = "Ayrton" ∧ position c = "".
Proof.
  destruct (identity_record_upserts
              ["$A"; "1"; "11"; "T1"; "Ayrton"; "Senna"; "BR"; "A"]
              new_Session) as (c & Hc & -> & _); [simpl; lia|by left|].
  exists (obj new_Session "1"
          |> assign_number "11" |> assign_transponder "T1"
          |> assign_first_name "Ayrton" |> assign_last_name "Senna"
          |> assign_nationality "BR" |> assign_category "A").
  split_and!; [exact Hc|reflexivity|reflexivity].
Defined.

(** X3.  A [$G] record with at least five elements creates the competitor
    named by element 2 when absent and assigns position, laps and total
    time, with the milliseconds of the total; [data_updated] is raised when
    one of the three differs from the value held before, and is never
    lowered; best-lap and identity fields, the other competitors and the
    rest of the session are untouched. *)
Theorem position_record_upserts elements s :
  (5 ≤ length elements)%nat → item elements 0 = "$G" →
  ∃ c,
    Dict.get (item elements 2) (competitors (dispatch elements s)) = Some c
    ∧ c = ((if standing_differs (item elements 1) (item elements 3)
                 (item elements 4) (obj s (item elements 2))
            then assign_data_updated true (obj s (item elements 2))
            else obj s (item elements 2))
             |> assign_position (item elements 1)
             |> assign_laps (item elements 3)
             |> set_total_time (item elements 4))
    ∧ position c = item elements 1
    ∧ laps c = item elements 3
    ∧ total_time c = item elements 4
    ∧ total_time_milliseconds c
      = convert_time_to_milliseconds (item elements 4)
    ∧ data_updated c
      = data_updated (obj s (item elements 2))
        || standing_differs (item elements 1) (item elements 3)
             (item elements 4) (obj s (item elements 2))
    ∧ (∀ k, item elements 2 ≠ k →
         Dict.get k (competitors (dispatch elements s))
         = Dict.get k (competitors s))
    ∧ outside_competitors (dispatch elements s) = outside_competitors s.
Proof.
  intros Hlen Htag.
  rewrite (dispatch_G _ _ Htag), handle_race_position_data_upsert by done.
  match goal with |- context [upsert ?k ?f s] =>
    destruct (upsert_spec k f s) as (H1 & H2 & _ & H4) end.
  eexists. split; [exact H1|]. split; [reflexivity|].
  destruct (set_total_time_fields (item elements 4)
    ((if standing_differs (item elements 1) (item elements 3)
           (item elements 4) (obj s (item elements 2))
      then assign_data_updated true (obj s (item elements 2))
      else obj s (item elements 2))
       |> assign_position (item elements 1)
       |> assign_laps (item elements 3))) as [Ht Hms].
  split_and!; [| |exact Ht|exact Hms| |exact H2|exact H4];
    unfold set_total_time; repeat case_match; simpl; try done.
  all: by rewrite ?orb_true_r, ?orb_false_r.
Qed.

(** X3, witness. *)
Lemma position_record_upserts_witness :
  ∃ c,
    Dict.get "1"
      (competitors (dispatch ["$G"; "1"; "1"; "10"; "00:20:00.000"] new_Session))
    = Some c
    ∧ total_time_milliseconds c = 1200000 ∧ data_updated c = true.
Proof.
  destruct (position_record_upserts ["$G"; "1"; "1"; "10"; "00:20:00.000"]
              new_Session) as (c & Hc & _ & _ & _ & _ & Hms & Hf & _);
    [simpl; lia|reflexivity|].
  exists c. split_and!; [exact Hc|exact Hms|exact Hf].
Defined.

(** X4.  A [$H] record with at least five elements creates the competitor
    named by element 2 when absent and assigns best position, best lap and
    best time, with the milliseconds of the best time; [data_updated] is
    raised when one of the three differs from the value held before;
    position, laps and total time are untouched. *)
Theorem best_lap_record_upserts elements s :
  (5 ≤ length elements)%nat → item elements 0 = "$H" →
  ∃ c,
    Dict.get (item elements 2) (competitors (dispatch elements s)) = Some c
    ∧ c = ((if best_differs (item elements 1) (item elements 3)
                 (item elements 4) (obj s (item elements 2))
            then assign_data_updated true (obj s (item elements 2))
            else obj s (item elements 2))
             |> assign_best_position (item elements 1)
             |> assign_best_lap (item elements 3)
             |> set_best_time (item elements 4))
    ∧ best_position c = item elements 1
    ∧ best_lap c = item elements 3
    ∧ best_time c = item elements 4
    ∧ best_time_milliseconds c
      = convert_time_to_milliseconds (item elements 4)
    ∧ data_updated c
      = data_updated (obj s (item elements 2))
        || best_differs (item elements 1) (item elements 3)
             (item elements 4) (obj s (item elements 2))
    ∧ (position c, laps c, total_time c, total_time_milliseconds c)
      = (position (obj s (item elements 2)), laps (obj s (item elements 2)),
         total_time (obj s (item elements 2)),
         total_time_milliseconds (obj s (item elements 2)))
    ∧ (∀ k, item elements 2 ≠ k →
         Dict.get k (competitors (dispatch elements s))
         = Dict.get k (competitors s))
    ∧ outside_competitors (dispatch elements s) = outside_competitors s.
Proof.
  intros Hlen Htag.
  rewrite (dispatch_H _ _ Htag), handle_best_lap_time_data_upsert by done.
  match goal with |- context [upsert ?k ?f s] =>
    destruct (upsert_spec k f s) as (H1 & H2 & _ & H4) end.
  eexists. split; [exact H1|]. split; [reflexivity|].
  destruct (set_best_time_fields (item elements 4)
    ((if best_differs (item elements 1) (item elements 3)
           (item elements 4) (obj s (item elements 2))
      then assign_data_updated true (obj s (item elements 2))
      else obj s (item elements 2))
       |> assign_best_position (item elements 1)
       |> assign_best_lap (item elements 3))) as [Ht Hms].
  split_and!; [| |exact Ht|exact Hms| | |exact H2|exact H4];
    unfold set_best_time; repeat case_match; simpl; try done.
  all: by rewrite ?orb_true_r, ?orb_false_r.
Qed.

(** X4, witness. *)
Lemma best_lap_record_upserts_witness :
  ∃ c,
    Dict.get "2"
      (competitors (dispatch ["$H"; "2"; "2"; "8"; "00:01:28.100"] new_Session))
    = Some c
    ∧ best_time_milliseconds c = 88100 ∧ total_time c = "".
Proof.
  destruct (best_lap_record_upserts ["$H"; "2"; "2"; "8"; "00:01:28.100"]
              new_Session) as (c & Hc & _ & _ & _ & _ & Hms & _ & Hst & _);
    [simpl; lia|reflexivity|].
  exists c. split_and!; [exact Hc|exact Hms|]. by injection Hst.
Defined.

(** X5.  A [$J] record with at least four elements creates the competitor
    named by element 1 when absent, assigns the last lap time and the total
    time with its milliseconds, and raises [data_updated] whether or not a
    value changed; position and laps are untouched. *)
Theorem last_lap_record_upserts elements s :
  (4 ≤ length elements)%nat → item elements 0 = "$J" →
  ∃ c,
    Dict.get (item elements 1) (competitors (dispatch elements s)) = Some c
    ∧ c = (obj s (item elements 1)
             |> assign_last_lap_time (item elements 2)
             |> set_total_time (item elements 3)
             |> assign_data_updated true)
    ∧ last_lap_time c = item elements 2
    ∧ total_time c = item elements 3
    ∧ total_time_milliseconds c
      = convert_time_to_milliseconds (item elements 3)
    ∧ data_updated c = true
    ∧ (position c, laps c)
      = (position (obj s (item elements 1)), laps (obj s (item elements 1)))
    ∧ (∀ k, item elements 1 ≠ k →
         Dict.get k (competitors (dispatch elements s))
         = Dict.get k (competitors s))
    ∧ outside_competitors (dispatch elements s) = outside_competitors s.
Proof.
  intros Hlen Htag.
  rewrite (dispatch_J _ _ Htag), handle_last_lap_time_data_upsert by done.
  match goal with |- context [upsert ?k ?f s] =>
    destruct (upsert_spec k f s) as (H1 & H2 & _ & H4) end.
  eexists. split; [exact H1|]. split; [reflexivity|].
  destruct (set_total_time_fields (item elements 3)
    (assign_last_lap_time (item elements 2) (obj s (item elements 1))))
    as [Ht Hms].
  split_and!; [|exact Ht|exact Hms|done| |exact H2|exact H4];
    unfold set_total_time; repeat case_match; simpl; done.
Qed.

(** X5, witness. *)
Lemma last_lap_record_upserts_witness :
  ∃ c,
    Dict.get "3"
      (competitors (dispatch ["$J"; "3"; "00:01:31.000"; "00:05:00.000"]
                      new_Session))
    = Some c
    ∧ last_lap_time c = "00:01:31.000" ∧ total_time_milliseconds c = 300000.
Proof.
  destruct (last_lap_record_upserts ["$J"; "3"; "00:01:31.000"; "00:05:00.000"]
              new_Session) as (c & Hc & _ & Hl & _ & Hms & _);
    [simpl; lia|reflexivity|].
  exists c. split_and!; [exact Hc|exact Hl|exact Hms].
Defined.

(** ** Replaying a record *)

Lemma upsert_idem k f s :
  f (f (obj s k)) = f (obj s k) → upsert k f (upsert k f s) = upsert k f s.
Proof. intros H. rewrite upsert_upsert. by apply upsert_ext. Qed.

Lemma standing_differs_same p l t c :
  position c = p → laps c = l → total_time c = t →
  standing_differs p l t c = false.
Proof.
  intros <- <- <-. unfold standing_differs. by rewrite !String.eqb_refl.
Qed.

Lemma best_differs_same p l t c :
  best_position c = p → best_lap c = l → best_time c = t →
  best_differs p l t c = false.
Proof.
  intros <- <- <-. unfold best_differs. by rewrite !String.eqb_refl.
Qed.

Lemma handle_driver_data_idem elements s :
  handle_driver_data elements (handle_driver_data elements s)
  = handle_driver_data elements s.
Proof.
  destruct (Nat.leb_spec 8 (length elements)) as [Hlen|Hlen].
  - rewrite !handle_driver_data_upsert by done. by apply upsert_idem.
  - unfold handle_driver_data. by rewrite (proj2 (Nat.leb_gt _ _)) by lia.
Qed.

Lemma handle_extended_driver_data_idem elements s :
  handle_extended_driver_data elements (handle_extended_driver_data elements s)
  = handle_extended_driver_data elements s.
Proof.
  destruct (Nat.leb_spec 8 (length elements)) as [Hlen|Hlen].
  - rewrite !handle_extended_driver_data_upsert by done. by apply upsert_idem.
  - unfold handle_extended_driver_data.
    by rewrite (proj2 (Nat.leb_gt _ _)) by lia.
Qed.

Lemma standing_again p l t c :
  let c1 := c |> assign_position p |> assign_laps l |> set_total_time t in
  position c1 = p ∧ laps c1 = l
  ∧ (c1 |> assign_position p |> assign_laps l |> set_total_time t) = c1.
Proof.
  unfold set_total_time. destruct (negb _ && negb _); by destruct c.
Qed.

Lemma best_again p l t c :
  let c1 := c |> assign_best_position p |> assign_best_lap l
              |> set_best_time t in
  best_position c1 = p ∧ best_lap c1 = l
  ∧ (c1 |> assign_best_position p |> assign_best_lap l |> set_best_time t)
    = c1.
Proof.
  unfold set_best_time. destruct (negb _ && negb _); by destruct c.
Qed.

Lemma last_lap_again l t c :
  let c1 := c |> assign_last_lap_time l |> set_total_time t
              |> assign_data_updated true in
  (c1 |> assign_last_lap_time l |> set_total_time t
      |> assign_data_updated true) = c1.
Proof.
  unfold set_total_time. destruct (negb _ && negb _); by destruct c.
Qed.

Lemma handle_race_position_data_idem elements s :
  handle_race_position_data elements (handle_race_position_data elements s)
  = handle_race_position_data elements s.
Proof.
  destruct (Nat.leb_spec 5 (length elements)) as [Hlen|Hlen].
  - rewrite !handle_race_position_data_upsert by done. apply upsert_idem.
    set (c := obj s (item elements 2)).
    set (c0 := if standing_differs _ _ _ c then _ else _).
    destruct (standing_again (item elements 1) (item elements 3)
                (item elements 4) c0) as (Hp & Hl & Hc).
    destruct (set_total_time_fields (item elements 4)
      (c0 |> assign_position (item elements 1)
          |> assign_laps (item elements 3))) as [Ht _].
    rewrite (standing_differs_same _ _ _ _ Hp Hl Ht). exact Hc.
  - unfold handle_race_position_data.
    by rewrite (proj2 (Nat.leb_gt _ _)) by lia.
Qed.

Lemma handle_best_lap_time_data_idem elements s :
  handle_best_lap_time_data elements (handle_best_lap_time_data elements s)
  = handle_best_lap_time_data elements s.
Proof.
  destruct (Nat.leb_spec 5 (length elements)) as [Hlen|Hlen].
  - rewrite !handle_best_lap_time_data_upsert by done. apply upsert_idem.
    set (c := obj s (item elements 2)).
    set (c0 := if best_differs _ _ _ c then _ else _).
    destruct (best_again (item elements 1) (item elements 3)
                (item elements 4) c0) as (Hp & Hl & Hc).
    destruct (set_best_time_fields (item elements 4)
      (c0 |> assign_best_position (item elements 1)
          |> assign_best_lap (item elements 3))) as [Ht _].
    rewrite (best_differs_same _ _ _ _ Hp Hl Ht). exact Hc.
  - unfold handle_best_lap_time_data.
    by rewrite (proj2 (Nat.leb_gt _ _)) by lia.
Qed.

Lemma handle_last_lap_time_data_idem elements s :
  handle_last_lap_time_data elements (handle_last_lap_time_data elements s)
  = handle_last_lap_time_data elements s.
Proof.
  destruct (Nat.leb_spec 4 (length elements)) as [Hlen|Hlen].
  - rewrite !handle_last_lap_time_data_upsert by done. apply upsert_idem.
    apply last_lap_again.
  - unfold handle_last_lap_time_data.
    by rewrite (proj2 (Nat.leb_gt _ _)) by lia.
Qed.

Lemma reset_session_idem s : reset_session (reset_session s) = reset_session s.
Proof. destruct s. vm_compute. reflexivity. Qed.

(** The [match] statement selects one handler, or none. *)
Lemma dispatch_eq elements :
  (∀ s, dispatch elements s = handle_race_progress_data elements s)
  ∨ (∀ s, dispatch elements s = handle_driver_data elements s)
  ∨ (∀ s, dispatch elements s = handle_race_session_data elements s)
  ∨ (∀ s, dispatch elements s = handle_race_class_data elements s)
  ∨ (∀ s, dispatch elements s = handle_extended_driver_data elements s)
  ∨ (∀ s, dispatch elements s = handle_track_data elements s)
  ∨ (∀ s, dispatch elements s = handle_race_position_data elements s)
  ∨ (∀ s, dispatch elements s = handle_best_lap_time_data elements s)
  ∨ (∀ s, dispatch elements s = handle_reset_data s)
  ∨ (∀ s, dispatch elements s = handle_last_lap_time_data elements s)
  ∨ (∀ s, dispatch elements s = handle_sort_mode_data elements s)
  ∨ (∀ s, dispatch elements s = s).
Proof.
  unfold dispatch.
  destruct (String.eqb (item elements 0) "$F"); [by left|right].
  destruct (String.eqb (item elements 0) "$A"); [by left|right].
  destruct (String.eqb (item elements 0) "$B"); [by left|right].
  destruct (String.eqb (item elements 0) "$C"); [by left|right].
  destruct (String.eqb (item elements 0) "$COMP"); [by left|right].
  destruct (String.eqb (item elements 0) "$E"); [by left|right].
  destruct (String.eqb (item elements 0) "$G"); [by left|right].
  destruct (String.eqb (item elements 0) "$H"); [by left|right].
  destruct (String.eqb (item elements 0) "$I"); [by left|right].
  destruct (String.eqb (item elements 0) "$J"); [by left|right].
  destruct (String.eqb (item elements 0) "$RMS"); [by left|by right].
Qed.

(** X6.  Handling a record a second time changes nothing: every handler is
    idempotent on the session, the [data_updated] test of [$G] and [$H]
    included, since the second time nothing differs. *)
Theorem dispatch_idempotent elements s :
  dispatch elements (dispatch elements s) = dispatch elements s.
Proof.
  destruct (dispatch_eq elements)
    as [H|[H|[H|[H|[H|[H|[H|[H|[H|[H|[H|H]]]]]]]]]]]; rewrite !H.
  - unfold handle_race_progress_data. by destruct (_ <=? _)%nat.
  - apply handle_driver_data_idem.
  - unfold handle_race_session_data. by destruct (_ <=? _)%nat.
  - unfold handle_race_class_data. destruct (_ <=? _)%nat; [|done]. simpl.
    by rewrite insert_insert_eq.
  - apply handle_extended_driver_data_idem.
  - unfold handle_track_data. destruct (_ <=? _)%nat; [|done].
    destruct (String.eqb _ "TRACKNAME"); [done|].
    by destruct (String.eqb _ "TRACKLENGTH").
  - apply handle_race_position_data_idem.
  - apply handle_best_lap_time_data_idem.
  - apply reset_session_idem.
  - apply handle_last_lap_time_data_idem.
  - unfold handle_sort_mode_data. destruct (_ <=? _)%nat; [|done].
    by destruct (String.eqb _ "qualifying").
  - done.
Qed.

(** ** What a record can change *)

Lemma upsert_keys_grow k f s :
  ∃ new,
    Dict.keys (competitors (upsert k f s)) = Dict.keys (competitors s) ++ new
    ∧ (length new ≤ 1)%nat
    ∧ sorted_competitors (upsert k f s) = sorted_competitors s
    ∧ sort_mode (upsert k f s) = sort_mode s
    ∧ classes (upsert k f s) = classes s.
Proof.
  destruct (upsert_spec k f s) as (_ & _ & Hk & Ho).
  eexists. split; [exact Hk|]. split; [case_decide; simpl; lia|].
  apply (f_equal sorted_competitors) in Ho as H1.
  apply (f_equal sort_mode) in Ho as H2.
  apply (f_equal classes) in Ho as H3. done.
Qed.

(** X7.  Only a reset removes or reorders competitors: any record but [$I]
    leaves the keys of the map in place and adds at most one at the end,
    and leaves [sorted_competitors] alone; the sort mode changes under
    [$RMS] only, and the class map under [$C] and [$I] only. *)
Theorem record_frame elements s :
  (item elements 0 ≠ "$I" →
   ∃ new,
     Dict.keys (competitors (dispatch elements s))
     = Dict.keys (competitors s) ++ new
     ∧ (length new ≤ 1)%nat
     ∧ sorted_competitors (dispatch elements s) = sorted_competitors s)
  ∧ (item elements 0 ≠ "$RMS" →
     sort_mode (dispatch elements s) = sort_mode s)
  ∧ (item elements 0 ≠ "$C" → item elements 0 ≠ "$I" →
     classes (dispatch elements s) = classes s).
Proof.
  assert (∀ s' : Session,
    competitors s' = competitors s →
    sorted_competitors s' = sorted_competitors s →
    ∃ new, Dict.keys (competitors s') = Dict.keys (competitors s) ++ new
           ∧ (length new ≤ 1)%nat
           ∧ sorted_competitors s' = sorted_competitors s) as Hsame.
  { intros s' -> ->. exists []. rewrite app_nil_r. split_and!; [done|simpl; lia|done]. }
  unfold dispatch.
  destruct (eqb_string_spec (item elements 0) "$F") as [E|_].
  { unfold handle_race_progress_data.
    split_and!; intros; case_match; try done; by apply Hsame. }
  destruct (eqb_string_spec (item elements 0) "$A") as [E|_].
  { destruct (Nat.leb_spec 8 (length elements)) as [Hlen|Hlen].
    - rewrite handle_driver_data_upsert by done.
      match goal with |- context [upsert ?k ?f s] =>
        destruct (upsert_keys_grow k f s) as (new & ? & ? & ? & ? & ?) end.
      split_and!; intros; eauto.
    - unfold handle_driver_data. rewrite (proj2 (Nat.leb_gt _ _)) by lia.
      split_and!; intros; try done; by apply Hsame. }
  destruct (eqb_string_spec (item elements 0) "$B") as [E|_].
  { unfold handle_race_session_data.
    split_and!; intros; case_match; try done; by apply Hsame. }
  destruct (eqb_string_spec (item elements 0) "$C") as [E|_].
  { unfold handle_race_class_data.
    split_and!; intros; case_match; try done; by apply Hsame. }
  destruct (eqb_string_spec (item elements 0) "$COMP") as [E|_].
  { destruct (Nat.leb_spec 8 (length elements)) as [Hlen|Hlen].
    - rewrite handle_extended_driver_data_upsert by done.
      match goal with |- context [upsert ?k ?f s] =>
        destruct (upsert_keys_grow k f s) as (new & ? & ? & ? & ? & ?) end.
      split_and!; intros; eauto.
    - unfold handle_extended_driver_data.
      rewrite (proj2 (Nat.leb_gt _ _)) by lia.
      split_and!; intros; try done; by apply Hsame. }
  destruct (eqb_string_spec (item elements 0) "$E") as [E|_].
  { unfold handle_track_data.
    split_and!; intros; repeat case_match; try done; by apply Hsame. }
  destruct (eqb_string_spec (item elements 0) "$G") as [E|_].
  { destruct (Nat.leb_spec 5 (length elements)) as [Hlen|Hlen].
    - rewrite handle_race_position_data_upsert by done.
      match goal with |- context [upsert ?k ?f s] =>
        destruct (upsert_keys_grow k f s) as (new & ? & ? & ? & ? & ?) end.
      split_and!; intros; eauto.
    - unfold handle_race_position_data.
      rewrite (proj2 (Nat.leb_gt _ _)) by lia.
      split_and!; intros; try done; by apply Hsame. }
  destruct (eqb_string_spec (item elements 0) "$H") as [E|_].
  { destruct (Nat.leb_spec 5 (length elements)) as [Hlen|Hlen].
    - rewrite handle_best_lap_time_data_upsert by done.
      match goal with |- context [upsert ?k ?f s] =>
        destruct (upsert_keys_grow k f s) as (new & ? & ? & ? & ? & ?) end.
      split_and!; intros; eauto.
    - unfold handle_best_lap_time_data.
      rewrite (proj2 (Nat.leb_gt _ _)) by lia.
      split_and!; intros; try done; by apply Hsame. }
  destruct (eqb_string_spec (item elements 0) "$I") as [E|_].
  { split_and!; intros; done. }
  destruct (eqb_string_spec (item elements 0) "$J") as [E|_].
  { destruct (Nat.leb_spec 4 (length elements)) as [Hlen|Hlen].
    - rewrite handle_last_lap_time_data_upsert by done.
      match goal with |- context [upsert ?k ?f s] =>
        destruct (upsert_keys_grow k f s) as (new & ? & ? & ? & ? & ?) end.
      split_and!; intros; eauto.
    - unfold handle_last_lap_time_data.
      rewrite (proj2 (Nat.leb_gt _ _)) by lia.
      split_and!; intros; try done; by apply Hsame. }
  destruct (eqb_string_spec (item elements 0) "$RMS") as [E|_].
  { unfold handle_sort_mode_data.
    split_and!; intros; repeat case_match; try done; by apply Hsame. }
  split_and!; intros; try done; by apply Hsame.
Qed.

(** ** The class map *)

(** X8.  A [$C] record with at least three elements stores the class under
    its id, replacing a class stored there before; the other classes, the
    competitors and the rest of the session are as they were. *)
Theorem class_record_inserts elements s :
  (3 ≤ length elements)%nat → item elements 0 = "$C" →
  classes (dispatch elements s) !! item elements 1
  = Some {| class_id := item elements 1; description := item elements 2 |}
  ∧ (∀ id, id ≠ item elements 1 →
       classes (dispatch elements s) !! id = classes s !! id)
  ∧ assign_classes ∅ (dispatch elements s) = assign_classes ∅ s.
Proof.
  intros Hlen%Nat.leb_le Htag. rewrite (dispatch_C _ _ Htag).
  unfold handle_race_class_data. rewrite Hlen. simpl. split_and!.
  - apply lookup_insert_eq.
  - intros id Hne. by apply lookup_insert_ne.
  - done.
Qed.

(** X8, witness. *)
Lemma class_record_inserts_witness :
  classes (dispatch ["$C"; "5"; "Formula"] new_Session) !! "5"
  = Some {| class_id := "5"; description := "Formula" |}.
Proof.
  apply (class_record_inserts ["$C"; "5"; "Formula"] new_Session);
    [simpl; lia|reflexivity].
Defined.

(** ** The content of a session and its presentation *)

Lemma get_fmap_core k (d : list (string * Competitor)) :
  Dict.get k (prod_map id core <$> d) = core <$> Dict.get k d.
Proof.
  induction d as [|[k' c] d IH]; simpl; [done|].
  by destruct (String.eqb k k').
Qed.

Lemma keys_fmap_core (d : list (string * Competitor)) :
  Dict.keys (prod_map id core <$> d) = Dict.keys d.
Proof.
  unfold Dict.keys. rewrite <- list_fmap_compose.
  apply Forall_fmap_ext_1, Forall_forall. by intros [k c] _.
Qed.

Lemma core_obj s k :
  core (obj s k)
  = default (new_Competitor k) (Dict.get k (competitors (core_session s))).
Proof.
  unfold obj. simpl. rewrite get_fmap_core.
  by destruct (Dict.get k (competitors s)).
Qed.

Lemma core_session_obj s s' k :
  core_session s = core_session s' → core (obj s k) = core (obj s' k).
Proof. intros H. by rewrite !core_obj, H. Qed.

Lemma core_session_keys s s' :
  core_session s = core_session s' →
  Dict.keys (competitors s) = Dict.keys (competitors s').
Proof.
  intros H. apply (f_equal (λ x, Dict.keys (competitors x))) in H.
  simpl in H. by rewrite !keys_fmap_core in H.
Qed.

Lemma core_timing c c' : core c = core c' → timing c = timing c'.
Proof. intros H. by apply (f_equal timing) in H. Qed.

Lemma core_inj c c' :
  core c = core c' →
  calculated_gap c = calculated_gap c' →
  calculated_diff c = calculated_diff c' →
  data_updated c = data_updated c' →
  c = c'.
Proof.
  destruct c, c'. unfold core. simpl. intros [=] ? ? ?. by simplify_eq.
Qed.

Lemma competitors_as_keys s :
  NoDup (Dict.keys (competitors s)) →
  competitors s = (λ k, (k, obj s k)) <$> Dict.keys (competitors s).
Proof.
  intros Hnd. unfold Dict.keys. rewrite <- list_fmap_compose.
  rewrite <- (list_fmap_id (competitors s)) at 1.
  apply Forall_fmap_ext_1, Forall_forall. intros [k c] Hin. simpl.
  unfold obj. by rewrite (get_entry _ k c Hnd Hin).
Qed.

Section SortCongruence.
Context {A K : Type} (ltb : K → K → bool) (key key' : A → K).
Context (R : A → A → Prop).
Hypothesis R_key : ∀ x y, R x y → key x = key' y.

Lemma insert_by_Forall2 x y l l' :
  R x y → Forall2 R l l' →
  Forall2 R (insert_by ltb key x l) (insert_by ltb key' y l').
Proof.
  intros Hxy. induction 1 as [|a b l l' Hab Hl IH]; simpl.
  - by repeat constructor.
  - rewrite (R_key _ _ Hxy), (R_key _ _ Hab).
    destruct (ltb (key' b) (key' y)); by repeat constructor.
Qed.

Lemma sort_by_Forall2 l l' :
  Forall2 R l l' → Forall2 R (sort_by ltb key l) (sort_by ltb key' l').
Proof.
  induction 1 as [|a b l l' Hab Hl IH]; simpl; [constructor|].
  by apply insert_by_Forall2.
Qed.
End SortCongruence.

(** Sorting depends on the keys of the map and on the timing of its
    objects only. *)
Lemma sort_competitors_congruence s s' :
  sort_mode s = sort_mode s' →
  Dict.keys (competitors s) = Dict.keys (competitors s') →
  NoDup (Dict.keys (competitors s)) →
  (∀ k, timing (obj s k) = timing (obj s' k)) →
  sorted_competitors (sort_competitors s)
  = sorted_competitors (sort_competitors s').
Proof.
  intros Hmode Hkeys Hnd Hobj.
  set (R := λ e e' : string * Competitor,
              e.1 = e'.1 ∧ timing e.2 = timing e'.2).
  assert (Forall2 R (competitors s) (competitors s')) as HR.
  { rewrite (competitors_as_keys s), (competitors_as_keys s')
      by (by rewrite <- ?Hkeys).
    rewrite <- Hkeys. apply Forall2_fmap, Forall_Forall2_diag, Forall_forall.
    intros k _. split; [done|apply Hobj]. }
  assert (∀ l l', Forall2 R l l' → l.*1 = l'.*1) as Hfst.
  { induction 1 as [|e e' l l' [He _] _ IH]; [done|]. csimpl. by f_equal. }
  unfold sort_competitors. simpl. rewrite <- Hmode.
  destruct (sort_mode s); apply Hfst, sort_by_Forall2; try done.
  - intros e e' [_ Ht]. by apply race_key_timing.
  - intros e e' [_ Ht]. by apply qualifying_key_timing.
Qed.

Lemma sorted_view_lookup s j c :
  sorted_view s !! j = Some c →
  ∃ k, sorted_competitors s !! j = Some k ∧ c = obj s k.
Proof.
  unfold sorted_view. rewrite list_lookup_fmap.
  destruct (sorted_competitors s !! j) as [k|]; [|done].
  intros [= <-]. eauto.
Qed.

(** In a settled session the gap and diff of an object of the sorted list
    are functions of the timing of the list's objects. *)
Lemma settled_gaps_determined s s' j k :
  settled s → settled s' →
  sorted_competitors s = sorted_competitors s' →
  (∀ k, timing (obj s k) = timing (obj s' k)) →
  sorted_competitors s !! j = Some k →
  calculated_gap (obj s k) = calculated_gap (obj s' k)
  ∧ calculated_diff (obj s k) = calculated_diff (obj s' k).
Proof.
  intros Hs Hs' Hrefs Ht Hj.
  pose proof (settled_gaps _ Hs j) as G. pose proof (settled_gaps _ Hs' j) as G'.
  assert (∀ s0 i k0, sorted_competitors s0 !! i = Some k0 →
            sorted_view s0 !! i = Some (obj s0 k0)) as Hview.
  { intros s0 i k0 H. unfold sorted_view. by rewrite list_lookup_fmap, H. }
  destruct j as [|j]; simpl in G, G'.
  - destruct (G _ (Hview _ _ _ Hj)) as [-> ->].
    rewrite Hrefs in Hj. by destruct (G' _ (Hview _ _ _ Hj)) as [-> ->].
  - assert (is_Some (sorted_competitors s !! j)) as [kp Hp].
    { apply lookup_lt_is_Some. apply lookup_lt_Some in Hj. lia. }
    assert (is_Some (sorted_competitors s !! 0%nat)) as [kl Hl].
    { apply lookup_lt_is_Some. apply lookup_lt_Some in Hj. lia. }
    specialize (G _ _ _ (Hview _ _ _ Hj) (Hview _ _ _ Hp) (Hview _ _ _ Hl)).
    rewrite Hrefs in Hj, Hp, Hl.
    specialize (G' _ _ _ (Hview _ _ _ Hj) (Hview _ _ _ Hp) (Hview _ _ _ Hl)).
    assert (total_time_milliseconds (obj s k)
            = total_time_milliseconds (obj s' k)) as E.
    { pose proof (Ht k) as H. unfold timing in H. congruence. }
    rewrite <- E in G'.
    destruct (total_time_milliseconds (obj s k) =? 0).
    + destruct G as [-> ->], G' as [-> ->]. done.
    + destruct G as [-> ->], G' as [-> ->].
      split; apply diff_against_timing; apply Ht.
Qed.

(** Two published handlers with the same content have the same session and
    the same tables. *)
Lemma published_canonical h h' :
  published h → published h' →
  core_session (session h) = core_session (session h') →
  session h = session h'
  ∧ competitors_df h = competitors_df h'
  ∧ session_df h = session_df h'.
Proof.
  intros [Hs Hsort Hfl Hcdf Hsdf _] [Hs' Hsort' Hfl' Hcdf' Hsdf' _] Hcore.
  pose proof (core_session_keys _ _ Hcore) as Hkeys.
  pose proof (inv_keys _ (settled_inv _ Hs)) as Hnd.
  pose proof (inv_keys _ (settled_inv _ Hs')) as Hnd'.
  assert (∀ k, timing (obj (session h) k) = timing (obj (session h') k)) as Ht.
  { intros k. by apply core_timing, core_session_obj. }
  assert (sort_mode (session h) = sort_mode (session h')) as Hmode.
  { by apply (f_equal sort_mode) in Hcore. }
  assert (sorted_competitors (session h) = sorted_competitors (session h'))
    as Hrefs.
  { rewrite <- Hsort, <- Hsort'. by apply sort_competitors_congruence. }
  assert (∀ k, k ∈ Dict.keys (competitors (session h)) →
               obj (session h) k = obj (session h') k) as Hobj.
  { intros k Hk. apply core_inj.
    - by apply core_session_obj.
    - rewrite <- (settled_perm _ Hs) in Hk.
      apply list_elem_of_lookup in Hk as [j Hj].
      by eapply settled_gaps_determined.
    - rewrite <- (settled_perm _ Hs) in Hk.
      apply list_elem_of_lookup in Hk as [j Hj].
      by eapply settled_gaps_determined.
    - rewrite Forall_forall in Hfl, Hfl'.
      transitivity false; [|symmetry].
      + apply (Hfl (k, obj (session h) k)).
        rewrite (competitors_as_keys (session h)) by done.
        apply list_elem_of_fmap. by exists k.
      + apply (Hfl' (k, obj (session h') k)).
        rewrite (competitors_as_keys (session h')) by done.
        apply list_elem_of_fmap. exists k. by rewrite <- Hkeys. }
  assert (competitors (session h) = competitors (session h')) as Hcomp.
  { rewrite (competitors_as_keys (session h)),
            (competitors_as_keys (session h')) by done.
    rewrite <- Hkeys. apply Forall_fmap_ext_1, Forall_forall.
    intros k Hk. by rewrite Hobj. }
  assert (session h = session h') as Heq.
  { destruct (session h), (session h'). simpl in *.
    unfold core_session in Hcore. simpl in Hcore.
    injection Hcore as -> -> -> -> -> -> -> -> -> -> -> _. by subst. }
  split; [done|]. by rewrite Hcdf, Hcdf', Hsdf, Hsdf', Heq.
Qed.

(** ** What the ordering engine and the snapshot builder leave alone *)

Lemma core_flag v c : core (assign_data_updated v c) = core c.
Proof. by destruct c. Qed.

Lemma core_gap v c : core (assign_calculated_gap v c) = core c.
Proof. by destruct c. Qed.

Lemma core_diff v c : core (assign_calculated_diff v c) = core c.
Proof. by destruct c. Qed.

Lemma core_core c : core (core c) = core c.
Proof. by destruct c. Qed.

Lemma fmap_core_update k f (d : list (string * Competitor)) :
  (∀ c, core (f c) = core c) →
  prod_map id core <$> Dict.update k f d = prod_map id core <$> d.
Proof.
  intros Hf. induction d as [|[k' c] d IH]; simpl; [done|].
  destruct (String.eqb k k'); csimpl; f_equal; [|done].
  unfold prod_map. simpl. by rewrite Hf.
Qed.

Lemma core_session_mutate k f s :
  (∀ c, core (f c) = core c) → core_session (mutate k f s) = core_session s.
Proof.
  intros Hf. destruct s. unfold core_session, mutate. simpl.
  by rewrite fmap_core_update.
Qed.

Lemma core_session_sort s : core_session (sort_competitors s) = core_session s.
Proof. by destruct s. Qed.

Lemma core_session_gap_step s i : core_session (gap_step s i) = core_session s.
Proof.
  unfold gap_step. destruct (_ =? 0);
    rewrite !core_session_mutate; auto using core_gap, core_diff.
Qed.

Lemma core_session_gaps s :
  core_session (calculate_gaps_and_diffs s) = core_session s.
Proof.
  assert (∀ l s0, core_session (foldl gap_step s0 l) = core_session s0) as H.
  { induction l as [|i l IH]; intros s0; simpl; [done|].
    by rewrite IH, core_session_gap_step. }
  unfold calculate_gaps_and_diffs. destruct (sorted_competitors s); [done|].
  rewrite H, !core_session_mutate; auto using core_gap, core_diff.
Qed.

(** The parts of [handle_session_update]. *)
Lemma handle_session_update_parts h :
  let s2 := calculate_gaps_and_diffs (sort_competitors (session h)) in
  let r := foldl snapshot_step (s2, []) (imap pair (sorted_competitors s2)) in
  session (handle_session_update h) = r.1
  ∧ competitors_df (handle_session_update h) = r.2
  ∧ session_df (handle_session_update h) = [session_row r.1]
  ∧ emitted (handle_session_update h) = S (emitted h).
Proof.
  unfold handle_session_update. cbv zeta. by destruct (foldl snapshot_step _ _).
Qed.

(** The snapshot does not touch the content of the session. *)
Lemma core_session_handle_session_update h :
  core_session (session (handle_session_update h)) = core_session (session h).
Proof.
  destruct (handle_session_update_parts h) as (-> & _).
  set (s2 := calculate_gaps_and_diffs _).
  rewrite (snapshot_loop (λ s, core_session s = core_session s2)).
  - unfold s2. by rewrite core_session_gaps, core_session_sort.
  - intros k s H. rewrite core_session_mutate; auto using core_flag.
  - done.
Qed.

(** The rows of the snapshot are those of the objects as the loop finds
    them; clearing the flag of an object does not show in a row. *)
Lemma snapshot_rows entries :
  ∀ s s0 rows,
    (∀ k, assign_data_updated false (obj s k)
          = assign_data_updated false (obj s0 k)) →
    (foldl snapshot_step (s, rows) entries).2
    = rows ++ ((λ e, competitor_row e.1 (obj s0 e.2)) <$> entries).
Proof.
  induction entries as [|[i k] entries IH]; intros s s0 rows Hs; simpl.
  - by rewrite app_nil_r.
  - rewrite (IH _ s0).
    + rewrite <- app_assoc. do 2 f_equal. simpl. f_equal.
      change (competitor_row i (obj s k))
        with (competitor_row i (assign_data_updated false (obj s k))).
      by rewrite Hs.
    + intros k'. rewrite <- Hs.
      apply (obj_mutate_unobserved (assign_data_updated false)).
      by intros [].
Qed.

Lemma imap_pair_snd {A} (l : list A) : (imap pair l).*2 = l.
Proof.
  rewrite fmap_imap. rewrite <- (list_fmap_id l) at 2.
  rewrite <- (imap_const id l). by apply imap_ext.
Qed.

(** After the loop the flag of every object that the loop met is down. *)
Lemma snapshot_flags entries :
  ∀ s rows k,
    k ∈ Dict.keys (competitors s) →
    k ∈ entries.*2 ∨ data_updated (obj s k) = false →
    data_updated (obj (foldl snapshot_step (s, rows) entries).1 k) = false.
Proof.
  induction entries as [|[i k0] entries IH]; intros s rows k Hk H; simpl.
  - destruct H as [H|H]; [by apply elem_of_nil in H|done].
  - apply IH; [by rewrite keys_mutate|].
    destruct (decide (k0 = k)) as [->|Hne].
    + right. by rewrite obj_mutate_eq.
    + rewrite obj_mutate_ne by done. destruct H as [H|H]; [|by right].
      csimpl in H. apply elem_of_cons in H as [H|H]; [congruence|by left].
Qed.

(** After a snapshot the handler is published. *)
Lemma published_handle_session_update h :
  session_inv (session h) → published (handle_session_update h).
Proof.
  intros Hs.
  pose proof (handle_session_update_settled h Hs) as Hset.
  destruct (handle_session_update_parts h) as (Es & Ec & Ed & Ee).
  set (s1 := sort_competitors (session h)) in *.
  set (s2 := calculate_gaps_and_diffs s1) in *.
  destruct (calculate_gaps_and_diffs_spec s1) as (Hfr2 & Hinv2 & _);
    [by apply inv_sort_competitors|]. fold s2 in Hfr2, Hinv2.
  set (entries := imap pair (sorted_competitors s2)) in *.
  pose proof (snapshot_loop (same_frame s2) (λ k s H,
    same_frame_trans _ _ _ H (same_frame_mutate k _ s (timing_flag false)))
    entries s2 [] (same_frame_refl s2)) as Hfr3.
  pose proof (snapshot_loop
    (λ s, ∀ k, assign_data_updated false (obj s k)
               = assign_data_updated false (obj s2 k))
    (λ k s H k', eq_trans
       (obj_mutate_unobserved (assign_data_updated false) k _ s k'
          (λ c, match c with Build_Competitor _ _ _ _ _ _ _ _ _ _ _ _ _ _ _ _
                  _ _ _ _ _ _ _ _ => eq_refl end)) (H k'))
    entries s2 [] (λ k, eq_refl)) as HN.
  pose proof (snapshot_rows entries s2 s2 [] (λ k, eq_refl)) as Hrows.
  assert (same_frame s1 (session (handle_session_update h))) as Hfr.
  { rewrite Es. by eapply same_frame_trans. }
  assert (sorted_competitors s2 ≡ₚ Dict.keys (competitors s2)) as Hperm.
  { rewrite (frame_refs _ _ Hfr2), (frame_keys _ _ Hfr2).
    exact (sort_competitors_refs (session h)). }
  split.
  - done.
  - rewrite (frame_refs _ _ Hfr).
    apply sort_competitors_congruence.
    + by rewrite (frame_mode _ _ Hfr).
    + by rewrite (frame_keys _ _ Hfr).
    + apply (inv_keys _ (settled_inv _ Hset)).
    + intros k. by rewrite (frame_timing _ _ Hfr).
  - rewrite (competitors_as_keys _ (inv_keys _ (settled_inv _ Hset))).
    apply Forall_fmap, Forall_forall. intros k Hk. simpl.
    rewrite Es in Hk |- *. rewrite (frame_keys _ _ Hfr3) in Hk.
    apply snapshot_flags; [done|]. left. unfold entries.
    by rewrite imap_pair_snd, Hperm.
  - rewrite Ec, Hrows. simpl. unfold sorted_view.
    rewrite Es, (frame_refs _ _ Hfr3). unfold entries.
    rewrite imap_fmap, fmap_imap. apply imap_ext. intros i k _. simpl.
    change (competitor_row i (obj s2 k))
      with (competitor_row i (assign_data_updated false (obj s2 k))).
    by rewrite <- HN.
  - by rewrite Ed, Es.
  - by rewrite Ee.
Qed.

(** ** Records read the content of the session only *)

Lemma fmap_core_idem (d : list (string * Competitor)) :
  prod_map id core <$> (prod_map id core <$> d) = prod_map id core <$> d.
Proof.
  rewrite <- list_fmap_compose. apply Forall_fmap_ext_1, Forall_forall.
  intros [k c] _. unfold prod_map. simpl. by rewrite core_core.
Qed.

Lemma core_session_idem s : core_session (core_session s) = core_session s.
Proof.
  destruct s. unfold core_session. simpl. by rewrite fmap_core_idem.
Qed.

Lemma fmap_core_update_core k f (d : list (string * Competitor)) :
  (∀ c, core (f c) = core (f (core c))) →
  prod_map id core <$> Dict.update k f d
  = prod_map id core <$> Dict.update k f (prod_map id core <$> d).
Proof.
  intros Hf. induction d as [|[k' c] d IH]; [done|]. csimpl.
  destruct (String.eqb k k'); csimpl; f_equal.
  - unfold prod_map. simpl. by rewrite Hf.
  - by rewrite fmap_core_idem.
  - done.
Qed.

Lemma core_session_upsert k f s :
  (∀ c, core (f c) = core (f (core c))) →
  core_session (upsert k f s) = core_session (upsert k f (core_session s)).
Proof.
  intros Hf. destruct s as [? ? ? ? ? ? ? ? ? ? ? d ?].
  unfold core_session, upsert, mutate, get_competitor. simpl.
  rewrite get_fmap_core. destruct (Dict.get k d); simpl.
  - by rewrite fmap_core_update_core.
  - by rewrite fmap_core_update_core, fmap_app.
Qed.

Lemma core_session_dispatch elements s :
  core_session (dispatch elements s)
  = core_session (dispatch elements (core_session s)).
Proof.
  destruct (dispatch_eq elements)
    as [H|[H|[H|[H|[H|[H|[H|[H|[H|[H|[H|H]]]]]]]]]]]; rewrite !H.
  - unfold handle_race_progress_data. destruct (_ <=? _)%nat.
    + destruct s. unfold core_session. simpl. by rewrite fmap_core_idem.
    + by rewrite core_session_idem.
  - destruct (Nat.leb_spec 8 (length elements)) as [Hlen|Hlen].
    + rewrite !handle_driver_data_upsert by done.
      apply core_session_upsert. by intros [].
    + unfold handle_driver_data. rewrite (proj2 (Nat.leb_gt _ _)) by lia.
      by rewrite core_session_idem.
  - unfold handle_race_session_data. destruct (_ <=? _)%nat.
    + destruct s. unfold core_session. simpl. by rewrite fmap_core_idem.
    + by rewrite core_session_idem.
  - unfold handle_race_class_data. destruct (_ <=? _)%nat.
    + destruct s. unfold core_session. simpl. by rewrite fmap_core_idem.
    + by rewrite core_session_idem.
  - destruct (Nat.leb_spec 8 (length elements)) as [Hlen|Hlen].
    + rewrite !handle_extended_driver_data_upsert by done.
      apply core_session_upsert. by intros [].
    + unfold handle_extended_driver_data.
      rewrite (proj2 (Nat.leb_gt _ _)) by lia. by rewrite core_session_idem.
  - unfold handle_track_data. destruct (_ <=? _)%nat;
      [|by rewrite core_session_idem].
    destruct (String.eqb _ "TRACKNAME").
    { destruct s. unfold core_session. simpl. by rewrite fmap_core_idem. }
    destruct (String.eqb _ "TRACKLENGTH").
    { destruct s. unfold core_session. simpl. by rewrite fmap_core_idem. }
    by rewrite core_session_idem.
  - destruct (Nat.leb_spec 5 (length elements)) as [Hlen|Hlen].
    + rewrite !handle_race_position_data_upsert by done.
      apply core_session_upsert. intros c.
      unfold set_total_time, standing_differs. destruct c. simpl.
      destruct (negb _ && negb _), (_ || _); reflexivity.
    + unfold handle_race_position_data.
      rewrite (proj2 (Nat.leb_gt _ _)) by lia. by rewrite core_session_idem.
  - destruct (Nat.leb_spec 5 (length elements)) as [Hlen|Hlen].
    + rewrite !handle_best_lap_time_data_upsert by done.
      apply core_session_upsert. intros c.
      unfold set_best_time, best_differs. destruct c. simpl.
      destruct (negb _ && negb _), (_ || _); reflexivity.
    + unfold handle_best_lap_time_data.
      rewrite (proj2 (Nat.leb_gt _ _)) by lia. by rewrite core_session_idem.
  - unfold handle_reset_data, reset_session. destruct s. reflexivity.
  - destruct (Nat.leb_spec 4 (length elements)) as [Hlen|Hlen].
    + rewrite !handle_last_lap_time_data_upsert by done.
      apply core_session_upsert. intros c.
      unfold set_total_time. destruct c. simpl.
      destruct (negb _ && negb _); reflexivity.
    + unfold handle_last_lap_time_data.
      rewrite (proj2 (Nat.leb_gt _ _)) by lia. by rewrite core_session_idem.
  - unfold handle_sort_mode_data. destruct (_ <=? _)%nat;
      [|by rewrite core_session_idem].
    destruct (String.eqb _ "qualifying");
      destruct s; unfold core_session; simpl; by rewrite fmap_core_idem.
  - by rewrite core_session_idem.
Qed.

Lemma core_session_dispatch_congruence elements s s' :
  core_session s = core_session s' →
  core_session (dispatch elements s) = core_session (dispatch elements s').
Proof.
  intros H. rewrite (core_session_dispatch _ s), H.
  by rewrite <- core_session_dispatch.
Qed.

(** ** Frames and records *)

Lemma process_lines_replay lines s b :
  (foldl process_line (s, b) lines).1
  = replay (List.filter (λ line, negb (blank line)) lines) s.
Proof.
  revert s b. induction lines as [|line lines IH]; intros s b; [done|].
  simpl. rewrite process_line_eq. destruct (blank line); simpl; apply IH.
Qed.

Lemma replay_app l1 l2 s : replay (l1 ++ l2) s = replay l2 (replay l1 s).
Proof. apply foldl_app. Qed.

Lemma replay_core lines s s' :
  core_session s = core_session s' →
  core_session (replay lines s) = core_session (replay lines s').
Proof.
  revert s s'. induction lines as [|line lines IH]; intros s s' H; [done|].
  simpl. by apply IH, core_session_dispatch_congruence.
Qed.

Lemma records_snoc frames data :
  records (frames ++ [data])
  = records frames
    ++ List.filter (λ line, negb (blank line)) (frame_lines data).
Proof.
  unfold records. rewrite fmap_app, concat_app, List.filter_app. simpl.
  by rewrite app_nil_r.
Qed.

Lemma existsb_filter {A} (p : A → bool) l :
  existsb p l = false ↔ List.filter p l = [].
Proof.
  induction l as [|x l IH]; simpl; [done|].
  destruct (p x); simpl; [split; discriminate|done].
Qed.

Lemma run_snoc frames data :
  run (frames ++ [data]) = process_data (run frames) data.
Proof. unfold run. by rewrite foldl_app. Qed.

(** The content of the session after a sequence of frames is that of the
    session after their records, whatever the frames were. *)
Lemma core_run frames :
  core_session (session (run frames))
  = core_session (replay (records frames) new_Session).
Proof.
  induction frames as [|data frames IH] using rev_ind; [done|].
  rewrite run_snoc, records_snoc, replay_app, process_data_eq.
  destruct (existsb _ _) eqn:E.
  - rewrite core_session_handle_session_update. simpl.
    rewrite process_lines_replay. by apply replay_core.
  - apply existsb_filter in E. by rewrite E.
Qed.

(** A handler is as created until the first record, and published from
    then on. *)
Lemma run_published frames :
  (records frames = [] ∧ run frames = new_Handler)
  ∨ (records frames ≠ [] ∧ published (run frames)).
Proof.
  induction frames as [|data frames IH] using rev_ind; [by left|].
  rewrite run_snoc, records_snoc, process_data_eq.
  destruct (existsb _ _) eqn:E.
  - right. split.
    + apply not_false_iff_true in E. rewrite existsb_filter in E.
      intros [_ H]%app_eq_nil. done.
    + apply published_handle_session_update. simpl.
      apply process_lines_inv, settled_inv, run_settled.
  - apply existsb_filter in E. rewrite E, app_nil_r. done.
Qed.

(** ** The published tables *)

(** ** Plain frames store plain laps

    What the hypothesis [plain_frames] gives of the strings that the sort
    key and [_calculate_time_difference] convert: the parser only cuts a
    frame and removes characters, so after plain frames the [laps] of every
    competitor is plain. *)

Lemma plain_fits s : plain s = true ↔ fits 4300 s.
Proof.
  unfold plain, fits. rewrite andb_true_iff, Nat.leb_le. done.
Qed.

Lemma fits_empty n : fits n "".
Proof. split; [done|simpl; lia]. Qed.

Lemma fits_tail n c s : fits n (String c s) → fits n s.
Proof.
  intros [Ha Hl]. simpl in *. apply andb_prop in Ha as [_ Ha].
  split; [done|lia].
Qed.

Lemma lstrip_fits n s : fits n s → fits n (lstrip s).
Proof.
  induction s as [|c r IH]; intros H; [done|]. simpl.
  destruct (is_space c); [|done]. by eapply IH, fits_tail.
Qed.

Lemma rstrip_sub s :
  (ascii_text s = true → ascii_text (rstrip s) = true)
  ∧ (String.length (rstrip s) ≤ String.length s)%nat.
Proof.
  induction s as [|c r [IHa IHl]]; [done|]. cbn [rstrip].
  destruct (is_space c && is_empty (rstrip r)).
  - split; [done|simpl; lia].
  - simpl. split; [|lia].
    intros [Hc Hr]%andb_prop. by rewrite Hc, IHa.
Qed.

Lemma rstrip_fits n s : fits n s → fits n (rstrip s).
Proof.
  intros [Ha Hl]. destruct (rstrip_sub s) as [Ha' Hl'].
  split; [by apply Ha'|lia].
Qed.

Lemma split_on_fits sep n s :
  fits n s → Forall (fits n) (split_on sep s).
Proof.
  revert n. induction s as [|c r IH]; intros n H.
  { constructor; [done|constructor]. }
  destruct H as [Ha Hl]. simpl in Ha, Hl. apply andb_prop in Ha as [Hc Ha].
  destruct n as [|n]; [lia|].
  assert (Forall (fits n) (split_on sep r)) as Hr.
  { apply IH. split; [done|lia]. }
  assert (Forall (fits (S n)) (split_on sep r)) as Hr'.
  { eapply Forall_impl; [exact Hr|]. intros x [? ?]. split; [done|lia]. }
  cbn [split_on]. destruct (Ascii.eqb c sep).
  - constructor; [apply fits_empty|done].
  - destruct (split_on sep r) as [|h t].
    + constructor; [|constructor]. split; [simpl; by rewrite Hc|simpl; lia].
    + apply Forall_cons in Hr as [[Hh Hhl] _].
      apply Forall_cons in Hr' as [_ Ht]. constructor; [|done].
      split; [simpl; by rewrite Hc, Hh|simpl; lia].
Qed.

Lemma remove_char_sub c s :
  (ascii_text s = true → ascii_text (remove_char c s) = true)
  ∧ (String.length (remove_char c s) ≤ String.length s)%nat.
Proof.
  induction s as [|a r [IHa IHl]]; [done|]. cbn [remove_char].
  destruct (Ascii.eqb a c); simpl.
  - split; [|lia]. intros [_ Hr]%andb_prop. by apply IHa.
  - split; [|lia]. intros [Ha Hr]%andb_prop. by rewrite Ha, IHa.
Qed.

Lemma frame_lines_fits n data :
  fits n data → Forall (fits n) (frame_lines data).
Proof.
  intros H. apply split_on_fits. by apply rstrip_fits, lstrip_fits.
Qed.

Lemma parse_elements_fits n line :
  fits n line → Forall (fits n) (parse_elements line).
Proof.
  intros H. unfold parse_elements. apply Forall_fmap.
  eapply Forall_impl; [by apply (split_on_fits "," n line)|].
  intros s [Ha Hl]. destruct (remove_char_sub dquote s) as [Ha' Hl'].
  split; [by apply Ha'|simpl; lia].
Qed.

Lemma item_fits n elements i :
  Forall (fits n) elements → fits n (item elements i).
Proof.
  intros H. unfold item. destruct (nth_in_or_default i elements "") as [Hi| ->].
  - rewrite Forall_forall in H. apply H. by apply list_elem_of_In.
  - apply fits_empty.
Qed.

Lemma laps_plain_update k f d :
  (∀ c, plain (laps c) = true → plain (laps (f c)) = true) →
  Forall (λ e : string * Competitor, plain (laps e.2) = true) d →
  Forall (λ e : string * Competitor, plain (laps e.2) = true)
    (Dict.update k f d).
Proof.
  intros Hf. induction 1 as [|[k' c] d Hc Hd IH]; simpl; [constructor|].
  destruct (String.eqb k k'); constructor; simpl in *; auto.
Qed.

Lemma laps_plain_upsert k f s :
  (∀ c, plain (laps c) = true → plain (laps (f c)) = true) →
  laps_plain s → laps_plain (upsert k f s).
Proof.
  intros Hf Hs. unfold laps_plain, upsert, mutate. simpl.
  apply laps_plain_update; [done|]. unfold get_competitor.
  destruct (Dict.get k (competitors s)); [done|]. simpl.
  apply Forall_app. split; [done|]. by constructor.
Qed.

Lemma laps_plain_same s s' :
  competitors s' = competitors s → laps_plain s → laps_plain s'.
Proof. unfold laps_plain. by intros ->. Qed.

Lemma laps_plain_dispatch elements s :
  Forall (fits 4300) elements → laps_plain s →
  laps_plain (dispatch elements s).
Proof.
  intros He Hs.
  destruct (dispatch_eq elements)
    as [H|[H|[H|[H|[H|[H|[H|[H|[H|[H|[H|H]]]]]]]]]]]; rewrite !H.
  - unfold handle_race_progress_data. destruct (_ <=? _)%nat; [|done].
    by apply (laps_plain_same s).
  - destruct (Nat.leb_spec 8 (length elements)) as [Hlen|Hlen].
    + rewrite handle_driver_data_upsert by done.
      apply laps_plain_upsert; [|done]. by intros [].
    + unfold handle_driver_data. by rewrite (proj2 (Nat.leb_gt _ _)) by lia.
  - unfold handle_race_session_data. destruct (_ <=? _)%nat; [|done].
    by apply (laps_plain_same s).
  - unfold handle_race_class_data. destruct (_ <=? _)%nat; [|done].
    by apply (laps_plain_same s).
  - destruct (Nat.leb_spec 8 (length elements)) as [Hlen|Hlen].
    + rewrite handle_extended_driver_data_upsert by done.
      apply laps_plain_upsert; [|done]. by intros [].
    + unfold handle_extended_driver_data.
      by rewrite (proj2 (Nat.leb_gt _ _)) by lia.
  - unfold handle_track_data. destruct (_ <=? _)%nat; [|done].
    destruct (String.eqb _ "TRACKNAME"); [by apply (laps_plain_same s)|].
    destruct (String.eqb _ "TRACKLENGTH"); [by apply (laps_plain_same s)|done].
  - destruct (Nat.leb_spec 5 (length elements)) as [Hlen|Hlen].
    + rewrite handle_race_position_data_upsert by done.
      apply laps_plain_upsert; [|done]. intros c _.
      assert (laps ((if standing_differs (item elements 1) (item elements 3)
                          (item elements 4) c
                     then assign_data_updated true c else c)
                      |> assign_position (item elements 1)
                      |> assign_laps (item elements 3)
                      |> set_total_time (item elements 4))
              = item elements 3) as ->.
      { unfold set_total_time. by destruct (negb _ && negb _). }
      by apply plain_fits, item_fits.
    + unfold handle_race_position_data.
      by rewrite (proj2 (Nat.leb_gt _ _)) by lia.
  - destruct (Nat.leb_spec 5 (length elements)) as [Hlen|Hlen].
    + rewrite handle_best_lap_time_data_upsert by done.
      apply laps_plain_upsert; [|done]. intros c Hc.
      unfold set_best_time. destruct c. simpl in *.
      by destruct (negb _ && negb _), (best_differs _ _ _ _).
    + unfold handle_best_lap_time_data.
      by rewrite (proj2 (Nat.leb_gt _ _)) by lia.
  - unfold handle_reset_data, reset_session, laps_plain. simpl. constructor.
  - destruct (Nat.leb_spec 4 (length elements)) as [Hlen|Hlen].
    + rewrite handle_last_lap_time_data_upsert by done.
      apply laps_plain_upsert; [|done]. intros c Hc.
      unfold set_total_time. destruct c. simpl in *.
      by destruct (negb _ && negb _).
    + unfold handle_last_lap_time_data.
      by rewrite (proj2 (Nat.leb_gt _ _)) by lia.
  - unfold handle_sort_mode_data. destruct (_ <=? _)%nat; [|done].
    destruct (String.eqb _ "qualifying"); by apply (laps_plain_same s).
  - done.
Qed.

Lemma laps_plain_replay lines s :
  Forall (fits 4300) lines → laps_plain s → laps_plain (replay lines s).
Proof.
  intros Hl. revert s. induction Hl as [|line lines Hline _ IH]; intros s Hs;
    [done|].
  simpl. by apply IH, laps_plain_dispatch; [apply parse_elements_fits|].
Qed.

Lemma records_fits frames :
  plain_frames frames = true → Forall (fits 4300) (records frames).
Proof.
  intros H. unfold records. apply Forall_forall. intros line Hin.
  apply list_elem_of_In, filter_In in Hin as [Hin _].
  apply in_concat in Hin as (ls & Hls & Hline).
  apply list_elem_of_In, list_elem_of_fmap in Hls as (data & -> & Hdata).
  unfold plain_frames in H. rewrite forallb_forall in H.
  apply list_elem_of_In, H, plain_fits, (frame_lines_fits 4300) in Hdata.
  rewrite Forall_forall in Hdata. by apply Hdata, list_elem_of_In.
Qed.

Lemma laps_plain_core s s' :
  core_session s = core_session s' → laps_plain s' → laps_plain s.
Proof.
  intros H%(f_equal competitors). simpl in H. unfold laps_plain. intros Hs'.
  assert (laps <$> (competitors s).*2 = laps <$> (competitors s').*2) as E.
  { transitivity (laps <$> (prod_map id core <$> competitors s).*2).
    - rewrite <- !list_fmap_compose. apply list_fmap_ext. by intros _ [? []] _.
    - rewrite H, <- !list_fmap_compose. apply list_fmap_ext.
      by intros _ [? []] _. }
  rewrite <- !list_fmap_compose in E.
  apply (Forall_fmap (laps ∘ snd) (λ l, plain l = true)).
  rewrite E. by apply Forall_fmap.
Qed.

(** After plain frames the [laps] of every competitor is plain. *)
Lemma plain_frames_laps frames :
  plain_frames frames = true → laps_plain (session (run frames)).
Proof.
  intros H. apply (laps_plain_core _ _ (core_run frames)).
  apply laps_plain_replay; [by apply records_fits|]. constructor.
Qed.

Lemma live_entry_ok s k :
  session_inv s → k ∈ Dict.keys (competitors s) → entry_ok (k, obj s k).
Proof.
  intros Hs Hk. pose proof (inv_entries _ Hs) as H.
  rewrite (competitors_as_keys _ (inv_keys _ Hs)) in H.
  rewrite Forall_fmap, Forall_forall in H. by apply H.
Qed.

Lemma nonempty_records_witness :
  records ["$A,7,12,T7,Ayrton,Senna,BR,F1"] ≠ [].
Proof. vm_compute. discriminate. Qed.

(** X9.  With plain frames, once a record has come in, the two tables are
    those of the session as it stands: [competitors_df] has the row of each
    object of [sorted_competitors], in that order and numbered from 0, and
    [session_df] has one row, whose cells are the values that
    [get_session_info] returns.  No table is stale, also after frames that
    emit no snapshot. *)
Theorem tables_follow_session frames :
  plain_frames frames = true →
  records frames ≠ [] →
  competitors_df (run frames)
  = imap competitor_row (sorted_view (session (run frames)))
  ∧ session_cells <$> session_df (run frames)
    = [(get_session_info (run frames)).*2].
Proof.
  intros _ Hne. destruct (run_published frames) as [[H _]|[_ Hp]]; [done|].
  split; [apply (pub_competitors_df _ Hp)|].
  by rewrite (pub_session_df _ Hp).
Qed.

(** X9, witness. *)
Lemma tables_follow_session_witness :
  plain_frames ["$A,7,12,T7,Ayrton,Senna,BR,F1"] = true
  ∧ records ["$A,7,12,T7,Ayrton,Senna,BR,F1"] ≠ []
  ∧ competitors_df (run ["$A,7,12,T7,Ayrton,Senna,BR,F1"])
    = imap competitor_row
        (sorted_view (session (run ["$A,7,12,T7,Ayrton,Senna,BR,F1"]))).
Proof.
  split; [vm_compute; reflexivity|].
  split; [apply nonempty_records_witness|].
  apply (tables_follow_session ["$A,7,12,T7,Ayrton,Senna,BR,F1"]).
  - vm_compute. reflexivity.
  - apply nonempty_records_witness.
Defined.

(** X10.  Between plain frames no competitor has [data_updated] raised:
    whatever [$G], [$H] and [$J] raise within a frame, the snapshot at its
    end clears, for every object of the map and not only for those listed
    in the frame. *)
Theorem flags_down_between_frames frames :
  plain_frames frames = true →
  Forall (λ e, data_updated e.2 = false) (get_competitors (run frames)).
Proof.
  intros _.
  destruct (run_published frames) as [[_ ->]|[_ Hp]]; [by constructor|].
  apply (pub_flags _ Hp).
Qed.

(** X10, witness: the two-car race, whose [$G] records raise the flag of
    both competitors. *)
Lemma flags_down_between_frames_witness :
  plain_frames [two_car_race] = true
  ∧ length (get_competitors (run [two_car_race])) = 2%nat
  ∧ Forall (λ e, data_updated e.2 = false)
      (get_competitors (run [two_car_race])).
Proof.
  split; [vm_compute; reflexivity|]. split; [vm_compute; reflexivity|].
  apply (flags_down_between_frames [two_car_race]). vm_compute. reflexivity.
Defined.

Lemma stored_order_is_current_aux frames :
  sorted_competitors (sort_competitors (session (run frames)))
  = sorted_competitors (session (run frames)).
Proof.
  destruct (run_published frames) as [[_ ->]|[_ Hp]]; [done|].
  apply (pub_sorted _ Hp).
Qed.

(** X11.  The stored order is never stale: after any sequence of plain
    frames [sort_competitors] would find [sorted_competitors] as it is. *)
Theorem stored_order_is_current frames :
  plain_frames frames = true →
  sorted_competitors (sort_competitors (session (run frames)))
  = sorted_competitors (session (run frames)).
Proof. intros _. apply stored_order_is_current_aux. Qed.

(** X11, witness: the two-car race and the qualifying reorder, after which
    the order is racer 2, racer 1. *)
Lemma stored_order_is_current_witness :
  plain_frames [two_car_race; qualifying_reorder] = true
  ∧ sorted_competitors
      (sort_competitors (session (run [two_car_race; qualifying_reorder])))
    = sorted_competitors (session (run [two_car_race; qualifying_reorder]))
  ∧ sorted_competitors (session (run [two_car_race; qualifying_reorder]))
    = ["2"; "1"].
Proof.
  split; [vm_compute; reflexivity|]. split; [|vm_compute; reflexivity].
  apply (stored_order_is_current [two_car_race; qualifying_reorder]).
  vm_compute. reflexivity.
Defined.

Section SortOrder.
Context {A K : Type} (ltb : K → K → bool) (key : A → K).

Lemma insert_by_sublist x l : l `sublist_of` insert_by ltb key x l.
Proof.
  induction l as [|y r IH]; simpl; [apply sublist_nil_l|].
  destruct (ltb (key y) (key x)); [by apply sublist_skip|by apply sublist_cons].
Qed.

Lemma insert_by_before x y l :
  y ∈ l → ltb (key y) (key x) = false →
  [x; y] `sublist_of` insert_by ltb key x l.
Proof.
  induction l as [|z r IH]; simpl; intros Hy Hxy.
  - by apply elem_of_nil in Hy.
  - destruct (ltb (key z) (key x)) eqn:E.
    + apply elem_of_cons in Hy as [->|Hy]; [congruence|].
      apply sublist_cons. by apply IH.
    + apply sublist_skip. by apply singleton_sublist_l.
Qed.

Lemma sort_by_before x y l :
  [x; y] `sublist_of` l → ltb (key y) (key x) = false →
  [x; y] `sublist_of` sort_by ltb key l.
Proof.
  induction l as [|z l IH]; intros Hl Hxy.
  - by apply sublist_nil_r in Hl.
  - simpl. fold (sort_by ltb key l).
    apply sublist_cons_r in Hl as [Hl|(l' & [= -> <-] & Hl)].
    + etrans; [by apply IH|apply insert_by_sublist].
    + apply insert_by_before; [|done].
      rewrite sort_by_perm. by apply singleton_sublist_l.
Qed.
End SortOrder.

(** X12.  What decides the order of two competitors after plain frames: the
    one whose key is smaller under the running mode is listed first, and of
    two with keys of which neither is smaller, the one that entered the map
    first.  So a competitor [k1] that entered before [k2] and whose key is
    not larger is listed before [k2]. *)
Theorem order_by_key_then_arrival frames k1 k2 :
  plain_frames frames = true →
  [k1; k2] `sublist_of` Dict.keys (competitors (session (run frames))) →
  precedes (sort_mode (session (run frames)))
    (obj (session (run frames)) k2) (obj (session (run frames)) k1) = false →
  [k1; k2] `sublist_of` sorted_competitors (session (run frames)).
Proof.
  intros _ Hk Hkey. rewrite <- stored_order_is_current_aux.
  set (s := session (run frames)) in *.
  assert ([(k1, obj s k1); (k2, obj s k2)] `sublist_of` competitors s) as Hl.
  { rewrite (competitors_as_keys s)
      by apply (inv_keys _ (settled_inv _ (run_settled frames))).
    exact (fmap_sublist (λ k, (k, obj s k)) _ _ Hk). }
  unfold sort_competitors. simpl. unfold precedes in Hkey.
  destruct (sort_mode s);
    apply (fmap_sublist fst [(k1, obj s k1); (k2, obj s k2)]);
    by apply sort_by_before.
Qed.

(** X12, witness: two competitors without a position, 9 entered first. *)
Lemma order_by_key_then_arrival_witness :
  plain_frames [frame ["$A,9,99,T9,Alain,Prost,FR,A";
                       "$A,7,77,T7,Ayrton,Senna,BR,A"]] = true
  ∧ ["9"; "7"] `sublist_of`
      sorted_competitors
        (session (run [frame ["$A,9,99,T9,Alain,Prost,FR,A";
                              "$A,7,77,T7,Ayrton,Senna,BR,A"]])).
Proof.
  split; [vm_compute; reflexivity|].
  apply (order_by_key_then_arrival
           [frame ["$A,9,99,T9,Alain,Prost,FR,A";
                   "$A,7,77,T7,Ayrton,Senna,BR,A"]] "9" "7").
  - vm_compute. reflexivity.
  - vm_compute. reflexivity.
  - vm_compute. reflexivity.
Defined.

(** X13.  After plain frames every competitor of the map has one row, and a
    row is of one competitor: the column [RacerID] lists the keys of the
    map, each once. *)
Theorem every_competitor_has_one_row frames :
  plain_frames frames = true →
  col_RacerID <$> competitors_df (run frames)
  ≡ₚ Dict.keys (get_competitors (run frames))
  ∧ NoDup (col_RacerID <$> competitors_df (run frames)).
Proof.
  intros _.
  destruct (run_published frames) as [[_ ->]|[_ Hp]].
  { split; [done|constructor]. }
  pose proof (pub_settled _ Hp) as Hs.
  assert (col_RacerID <$> competitors_df (run frames)
          = sorted_competitors (session (run frames))) as ->.
  { rewrite (pub_competitors_df _ Hp). unfold sorted_view.
    rewrite imap_fmap, fmap_imap.
    rewrite <- (list_fmap_id (sorted_competitors _)) at 2.
    rewrite <- (imap_const id). apply imap_ext. intros i k Hk. simpl.
    apply (live_entry_ok _ k (settled_inv _ Hs)).
    apply (inv_live _ (settled_inv _ Hs)). by eapply list_elem_of_lookup_2. }
  split; [apply (settled_perm _ Hs)|apply (inv_refs _ (settled_inv _ Hs))].
Qed.

(** X13, witness: the two-car race and the qualifying reorder; the map has
    racer 1 before racer 2 and the table racer 2 before racer 1. *)
Lemma every_competitor_has_one_row_witness :
  plain_frames [two_car_race; qualifying_reorder] = true
  ∧ Dict.keys (get_competitors (run [two_car_race; qualifying_reorder]))
    = ["1"; "2"]
  ∧ col_RacerID <$> competitors_df (run [two_car_race; qualifying_reorder])
    ≡ₚ Dict.keys (get_competitors (run [two_car_race; qualifying_reorder])).
Proof.
  split; [vm_compute; reflexivity|]. split; [vm_compute; reflexivity|].
  apply (every_competitor_has_one_row [two_car_race; qualifying_reorder]).
  vm_compute. reflexivity.
Defined.

Lemma or_dash_dash x :
  or_dash x = "-" → convert_time_to_milliseconds x = 0.
Proof.
  unfold or_dash. destruct x as [|a x]; [done|]. simpl. by intros ->.
Qed.

(** X14.  In [competitors_df] the first row shows a dash in [Diff] and in
    [Gap], and so does every row that shows a dash in [Time]. *)
Theorem rows_without_time_show_dashes frames i row :
  competitors_df (run frames) !! i = Some row →
  i = 0%nat ∨ col_Time row = "-" →
  col_Diff row = "-" ∧ col_Gap row = "-".
Proof.
  intros Hrow Hi.
  destruct (run_published frames) as [[_ E]|[_ Hp]].
  { by rewrite E in Hrow. }
  pose proof (pub_settled _ Hp) as Hs.
  rewrite (pub_competitors_df _ Hp), list_lookup_imap in Hrow.
  destruct (sorted_view (session (run frames)) !! i) as [c|] eqn:Hc; [|done].
  simpl in Hrow. injection Hrow as <-. simpl.
  pose proof (settled_gaps _ Hs i) as G.
  assert (calculated_gap c = "" ∧ calculated_diff c = "") as [-> ->]; [|done].
  destruct i as [|j]; simpl in G; [by apply G|].
  destruct Hi as [?|Ht]; [done|]. simpl in Ht.
  assert (is_Some (sorted_view (session (run frames)) !! j)) as [prev Hprev].
  { apply lookup_lt_is_Some. apply lookup_lt_Some in Hc. lia. }
  assert (is_Some (sorted_view (session (run frames)) !! 0%nat))
    as [leader Hleader].
  { apply lookup_lt_is_Some. apply lookup_lt_Some in Hc. lia. }
  specialize (G _ _ _ Hc Hprev Hleader).
  apply sorted_view_lookup in Hc as (k & Hk & ->).
  assert (entry_ok (k, obj (session (run frames)) k)) as (_ & E & _).
  { apply live_entry_ok; [apply Hs|].
    apply (inv_live _ (settled_inv _ Hs)). by eapply list_elem_of_lookup_2. }
  simpl in E. rewrite E, (or_dash_dash _ Ht) in G. done.
Qed.

(** X14, witness: the leader of the two-car race. *)
Lemma rows_without_time_show_dashes_witness :
  ∃ row, competitors_df (run [two_car_race]) !! 0%nat = Some row
         ∧ col_Diff row = "-" ∧ col_Gap row = "-".
Proof.
  eexists. split; [vm_compute; reflexivity|].
  apply (rows_without_time_show_dashes [two_car_race] 0);
    [vm_compute; reflexivity|by left].
Defined.

(** X15.  How the records are cut into plain frames does not show: two
    sequences of plain frames with the same records, blank lines aside,
    leave the same session and the same two tables. *)
Theorem framing_is_immaterial frames frames' :
  plain_frames frames = true →
  plain_frames frames' = true →
  records frames = records frames' →
  session (run frames) = session (run frames')
  ∧ competitors_df (run frames) = competitors_df (run frames')
  ∧ session_df (run frames) = session_df (run frames').
Proof.
  intros _ _ Hr.
  destruct (run_published frames) as [[E ->]|[E Hp]],
    (run_published frames') as [[E' ->]|[E' Hp']]; try congruence; [done|].
  apply published_canonical; [done..|]. by rewrite !core_run, Hr.
Qed.

(** X15, witness: the two-car race in one frame, and record by record with a
    blank frame in between. *)
Lemma framing_is_immaterial_witness :
  plain_frames [two_car_race] = true
  ∧ plain_frames
      ["$A,1,11,T1,Ayrton,Senna,BR,A"; "$A,2,22,T2,Alain,Prost,FR,A";
       "  "; "$G,1,1,10,00:20:00.000"; "$G,2,2,10,00:20:02.500"] = true
  ∧ competitors_df (run [two_car_race])
    = competitors_df
        (run ["$A,1,11,T1,Ayrton,Senna,BR,A"; "$A,2,22,T2,Alain,Prost,FR,A";
              "  "; "$G,1,1,10,00:20:00.000"; "$G,2,2,10,00:20:02.500"]).
Proof.
  split; [vm_compute; reflexivity|]. split; [vm_compute; reflexivity|].
  apply (framing_is_immaterial [two_car_race]
    ["$A,1,11,T1,Ayrton,Senna,BR,A"; "$A,2,22,T2,Alain,Prost,FR,A";
     "  "; "$G,1,1,10,00:20:00.000"; "$G,2,2,10,00:20:02.500"]);
    vm_compute; reflexivity.
Defined.

Lemma replay_skipped lines s :
  Forall (λ line, skipped (parse_elements line) = true) lines →
  replay lines s = s.
Proof.
  induction 1 as [|line lines Hl _ IH]; simpl; [done|].
  by rewrite dispatch_skipped.
Qed.

(** X16.  A frame none of whose lines is acted on (each is blank, has a tag
    that is not listed, or has too few elements) leaves the session and
    both tables as they were, although [process_data] rebuilds them when
    one of the lines is not blank. *)
Theorem idle_frame_republishes frames data :
  records frames ≠ [] →
  Forall (λ line, blank line = true ∨ skipped (parse_elements line) = true)
    (frame_lines data) →
  session (process_data (run frames) data) = session (run frames)
  ∧ competitors_df (process_data (run frames) data)
    = competitors_df (run frames)
  ∧ session_df (process_data (run frames) data) = session_df (run frames).
Proof.
  intros Hne Hl.
  destruct (run_published frames) as [[E _]|[_ Hp]]; [done|].
  rewrite process_data_eq. destruct (existsb _ _); [|done].
  rewrite process_lines_replay, replay_skipped, assign_session_same.
  - apply published_canonical; [|done|].
    + apply published_handle_session_update, settled_inv, run_settled.
    + apply core_session_handle_session_update.
  - clear -Hl. induction Hl as [|line lines Hl _ IH]; simpl; [constructor|].
    destruct (blank line) eqn:E; simpl; [done|].
    constructor; [|done]. by destruct Hl.
Qed.

(** X16, witness: after the two-car race, a frame with a short [$G] record
    and a record of an unlisted tag. *)
Lemma idle_frame_republishes_witness :
  competitors_df
    (process_data (run [two_car_race]) (frame ["$G,broken"; "$X,1,2"]))
  = competitors_df (run [two_car_race]).
Proof.
  apply (idle_frame_republishes [two_car_race]
           (frame ["$G,broken"; "$X,1,2"])).
  - vm_compute. discriminate.
  - assert (frame_lines (frame ["$G,broken"; "$X,1,2"])
            = ["$G,broken"; "$X,1,2"]) as -> by (vm_compute; reflexivity).
    constructor; [right; vm_compute; reflexivity|].
    constructor; [right; vm_compute; reflexivity|]. constructor.
Defined.

(** ** Differences as strings *)

Lemma signed_two_digits n :
  0 ≤ n < 100 → py_int (String "+" (two_digits n "")) = Some n.
Proof.
  intros Hn.
  assert (forallb
            (λ n, bool_decide (py_int (String "+" (two_digits n "")) = Some n))
            (seqZ 0 100) = true) as H by (vm_compute; reflexivity).
  rewrite forallb_forall in H.
  eapply bool_decide_eq_true_1, H, list_elem_of_In, elem_of_seqZ. lia.
Qed.

Lemma parse_clock_three a b c d h m s ms :
  py_int a = Some h → py_int b = Some m → py_int c = Some s →
  py_int d = Some ms →
  contains "." a = false → contains "." b = false → contains "." c = false →
  contains "." d = false →
  contains ":" a = false → contains ":" b = false → contains ":" c = false →
  parse_clock ((a +:+ String ":" (b +:+ String ":" c)) +:+ String "." d)
  = Some (h * 3600000 + m * 60000 + s * 1000 + ms).
Proof.
  intros Ia Ib Ic Id Da Db Dc Dd Ca Cb Cc. unfold parse_clock.
  set (hms := a +:+ String ":" (b +:+ String ":" c)).
  assert (contains "." hms = false) as Dhms.
  { unfold hms. rewrite !contains_app. cbn [contains].
    rewrite !contains_app. cbn [contains]. by rewrite Da, Db, Dc. }
  rewrite contains_app. cbn [contains]. rewrite Ascii.eqb_refl, orb_true_r.
  rewrite split_on_app, split_on_absent by done.
  rewrite Id. cbn [mbind option_bind].
  unfold hms. rewrite !split_on_app, split_on_absent by done.
  cbn [mapM mbind option_bind mret option_ret]. rewrite Ia, Ib, Ic.
  cbn. f_equal; lia.
Qed.

Lemma parse_clock_two b c d m s ms :
  py_int b = Some m → py_int c = Some s → py_int d = Some ms →
  contains "." b = false → contains "." c = false → contains "." d = false →
  contains ":" b = false → contains ":" c = false →
  parse_clock ((b +:+ String ":" c) +:+ String "." d)
  = Some (m * 60000 + s * 1000 + ms).
Proof.
  intros Ib Ic Id Db Dc Dd Cb Cc. unfold parse_clock.
  set (hms := b +:+ String ":" c).
  assert (contains "." hms = false) as Dhms.
  { unfold hms. rewrite !contains_app. cbn [contains]. by rewrite Db, Dc. }
  rewrite contains_app. cbn [contains]. rewrite Ascii.eqb_refl, orb_true_r.
  rewrite split_on_app, split_on_absent by done.
  rewrite Id. cbn [mbind option_bind].
  unfold hms. rewrite !split_on_app, split_on_absent by done.
  cbn [mapM mbind option_bind mret option_ret]. rewrite Ib, Ic.
  cbn. f_equal; lia.
Qed.

Lemma parse_clock_one c d s ms :
  py_int c = Some s → py_int d = Some ms →
  contains "." c = false → contains "." d = false → contains ":" c = false →
  parse_clock (c +:+ String "." d) = Some (s * 1000 + ms).
Proof.
  intros Ic Id Dc Dd Cc. unfold parse_clock.
  rewrite contains_app. cbn [contains]. rewrite Ascii.eqb_refl, orb_true_r.
  rewrite split_on_app, split_on_absent by done.
  rewrite Id. cbn [mbind option_bind].
  rewrite split_on_absent by done.
  cbn [mapM mbind option_bind mret option_ret]. rewrite Ic.
  cbn. f_equal; lia.
Qed.

Lemma convert_signed x :
  convert_time_to_milliseconds (String "+" x)
  = default 0 (parse_clock (String "+" x)).
Proof. reflexivity. Qed.

(** X17.  A difference as [_format_time_difference] writes it converts back
    to the same number of milliseconds, in each of its three shapes (with
    hours, with minutes, seconds only), and so does the empty string that
    stands for 0: below 100 hours the format loses nothing. *)
Theorem difference_converts_back n :
  0 ≤ n < 360000000 →
  convert_time_to_milliseconds (_format_time_difference n) = n.
Proof.
  intros Hn. unfold _format_time_difference.
  destruct (Z.eqb_spec n 0) as [->|Hnz]; [done|].
  set (h := n / (60 * 60 * 1000)).
  set (m := n mod (60 * 60 * 1000) / (60 * 1000)).
  set (s := n mod (60 * 1000) / 1000).
  set (ms := n mod 1000).
  assert (0 ≤ h < 100 ∧ 0 ≤ m < 60 ∧ 0 ≤ s < 60 ∧ 0 ≤ ms < 1000
          ∧ n = h * 3600000 + m * 60000 + s * 1000 + ms) as (Hh & Hm & Hs & Hms & E).
  { unfold h, m, s, ms. clear h m s ms Hnz. Z.div_mod_to_equations. lia. }
  destruct (two_digits_facts h Hh) as (_ & Fh & Dh & Ch).
  destruct (two_digits_facts m ltac:(lia)) as (Im & Fm & Dm & Cm).
  destruct (two_digits_facts s ltac:(lia)) as (Is & Fs & Ds & Cs).
  destruct (three_digits_facts ms Hms) as (Ims & Fms & Dms & _).
  rewrite Fh, Fm, Fs, Fms.
  destruct (Z.ltb_spec 0 h); [|destruct (Z.ltb_spec 0 m)].
  - change (convert_time_to_milliseconds
              (String "+" ((two_digits h "" +:+ String ":"
                 (two_digits m "" +:+ String ":" (two_digits s "")))
               +:+ String "." (three_digits ms ""))) = n).
    rewrite convert_signed.
    change (String "+" ((two_digits h "" +:+ String ":"
                 (two_digits m "" +:+ String ":" (two_digits s "")))
               +:+ String "." (three_digits ms "")))
      with ((String "+" (two_digits h "") +:+ String ":"
               (two_digits m "" +:+ String ":" (two_digits s "")))
            +:+ String "." (three_digits ms "")).
    rewrite (parse_clock_three _ _ _ _ h m s ms);
      [simpl; lia|by apply signed_two_digits|done..].
  - assert (h = 0) as Eh by lia.
    change (convert_time_to_milliseconds
              (String "+" ((two_digits m "" +:+ String ":" (two_digits s ""))
               +:+ String "." (three_digits ms ""))) = n).
    rewrite convert_signed.
    change (String "+" ((two_digits m "" +:+ String ":" (two_digits s ""))
               +:+ String "." (three_digits ms "")))
      with ((String "+" (two_digits m "") +:+ String ":" (two_digits s ""))
            +:+ String "." (three_digits ms "")).
    rewrite (parse_clock_two _ _ _ m s ms);
      [simpl; lia|by apply signed_two_digits; lia|done..].
  - assert (h = 0) as Eh by lia. assert (m = 0) as Em by lia.
    change (convert_time_to_milliseconds
              (String "+" (two_digits s "" +:+ String "." (three_digits ms "")))
            = n).
    rewrite convert_signed.
    change (String "+" (two_digits s "" +:+ String "." (three_digits ms "")))
      with (String "+" (two_digits s "") +:+ String "." (three_digits ms "")).
    rewrite (parse_clock_one _ _ s ms);
      [simpl; lia|by apply signed_two_digits; lia|done..].
Qed.

(** X17, witness: two and a half seconds. *)
Lemma difference_converts_back_witness :
  convert_time_to_milliseconds (_format_time_difference 2500) = 2500.
Proof. apply (difference_converts_back 2500). lia. Defined.

(** ** Consequences of the two sort keys *)

(** X18.  In QUALIFYING mode a competitor with a best time is listed before
    every competitor with a larger best time and before every competitor
    without one. *)
Theorem qualifying_best_times_first frames i j A B :
  sort_mode (session (run frames)) = QUALIFYING →
  sorted_view (session (run frames)) !! i = Some A →
  sorted_view (session (run frames)) !! j = Some B →
  0 < best_time_milliseconds A →
  best_time_milliseconds B ≤ 0
  ∨ best_time_milliseconds A < best_time_milliseconds B →
  (i < j)%nat.
Proof.
  intros Hmode HA HB Hpos Hlt.
  pose proof (settled_order _ (run_settled frames)) as Hord.
  rewrite Hmode in Hord. simpl in Hord.
  eapply (ascending_index qualifying_key_ltb qualifying_key
            qualifying_key_ltb_asym); [exact Hord|exact HA|exact HB|].
  apply qualifying_key_ltb_true. left. simpl. unfold positive_or_inf.
  destruct (Z.ltb_spec 0 (best_time_milliseconds A)); [|lia].
  destruct (Z.ltb_spec 0 (best_time_milliseconds B)); simpl; [|done].
  apply Z.ltb_lt. lia.
Qed.

(** X18, witness: after the qualifying reorder racer 2 (1:28.100) is ahead
    of racer 1 (1:29.500). *)
Lemma qualifying_best_times_first_witness :
  ∃ A B,
    sorted_view (session (run [two_car_race; qualifying_reorder])) !! 0%nat
    = Some A
    ∧ sorted_view (session (run [two_car_race; qualifying_reorder])) !! 1%nat
      = Some B
    ∧ best_time_milliseconds A = 88100 ∧ best_time_milliseconds B = 89500
    ∧ (0 < 1)%nat.
Proof.
  do 2 eexists. split; [vm_compute; reflexivity|].
  split; [vm_compute; reflexivity|]. split; [reflexivity|].
  split; [reflexivity|].
  eapply (qualifying_best_times_first [two_car_race; qualifying_reorder]
            0 1); [vm_compute; reflexivity..|simpl; lia|right; simpl; lia].
Defined.

(** X19.  In RACE mode, after plain frames, of two competitors with the
    same position key (the same number, or both without one, which counts
    as 9999) the one with more laps is listed first, laps that are not all
    digits counting as 0, and on equal laps the one with the smaller total
    time, a competitor without a total coming after those that have one. *)
Theorem race_ties_by_laps_then_total frames i j A B :
  plain_frames frames = true →
  sort_mode (session (run frames)) = RACE →
  sorted_view (session (run frames)) !! i = Some A →
  sorted_view (session (run frames)) !! j = Some B →
  pos_key_as_specified (position A) = pos_key_as_specified (position B) →
  laps_as_specified B < laps_as_specified A
  ∨ (laps_as_specified A = laps_as_specified B
     ∧ 0 < total_time_milliseconds A
     ∧ (total_time_milliseconds B ≤ 0
        ∨ total_time_milliseconds A < total_time_milliseconds B)) →
  (i < j)%nat.
Proof.
  intros _ Hmode HA HB Hpos Hlt.
  rewrite <- !pos_key_spec in Hpos. rewrite <- !laps_spec in Hlt.
  pose proof (settled_order _ (run_settled frames)) as Hord.
  rewrite Hmode in Hord. simpl in Hord.
  eapply (ascending_index race_key_ltb race_key race_key_ltb_asym);
    [exact Hord|exact HA|exact HB|].
  apply race_key_ltb_true. right. split; [done|]. simpl.
  unfold laps_int in Hlt. destruct Hlt as [Hl|(Hl & Hp & Ht)].
  - left. destruct (isdigit (laps A)), (isdigit (laps B)); lia.
  - right. split.
    + destruct (isdigit (laps A)), (isdigit (laps B)); lia.
    + unfold positive_or_inf.
      destruct (Z.ltb_spec 0 (total_time_milliseconds A)); [|lia].
      destruct (Z.ltb_spec 0 (total_time_milliseconds B)); simpl; [|done].
      apply Z.ltb_lt. lia.
Qed.

(** X19, witness: two competitors without a position, the second to enter
    with more laps. *)
Lemma race_ties_by_laps_then_total_witness :
  plain_frames [frame ["$G,,1,3,00:05:00.000"; "$G,,2,4,00:06:00.000"]]
  = true
  ∧ ∃ A B,
    sorted_view (session (run [frame ["$G,,1,3,00:05:00.000";
                                      "$G,,2,4,00:06:00.000"]])) !! 0%nat
    = Some A
    ∧ sorted_view (session (run [frame ["$G,,1,3,00:05:00.000";
                                        "$G,,2,4,00:06:00.000"]])) !! 1%nat
      = Some B
    ∧ racer_id A = "2" ∧ racer_id B = "1" ∧ (0 < 1)%nat.
Proof.
  split; [vm_compute; reflexivity|].
  do 2 eexists. split; [vm_compute; reflexivity|].
  split; [vm_compute; reflexivity|]. split; [reflexivity|].
  split; [reflexivity|].
  eapply (race_ties_by_laps_then_total
            [frame ["$G,,1,3,00:05:00.000"; "$G,,2,4,00:06:00.000"]] 0 1);
    [vm_compute; reflexivity..|left; vm_compute; reflexivity].
Defined.

(** ** Frames of white space *)

Lemma lstrip_head s :
  lstrip s = "" ∨ ∃ c r, lstrip s = String c r ∧ is_space c = false.
Proof.
  induction s as [|c r IH]; [by left|]. cbn [lstrip].
  destruct (is_space c) eqn:E; [done|]. right. by exists c, r.
Qed.

Lemma strip_head s :
  strip s = "" ∨ ∃ c r, strip s = String c r ∧ is_space c = false.
Proof.
  unfold strip. destruct (lstrip_head s) as [->|(c & r & -> & Hc)]; [by left|].
  right. exists c, (rstrip r). cbn [rstrip]. by rewrite Hc.
Qed.

Lemma blank_head c r : is_space c = false → blank (String c r) = false.
Proof.
  intros Hc. unfold blank, strip. cbn [lstrip]. rewrite Hc.
  cbn [rstrip]. by rewrite Hc.
Qed.

(** A frame has a line that is not blank exactly when it has a character
    that is not white space. *)
Lemma frame_lines_blank data :
  existsb (λ line, negb (blank line)) (frame_lines data)
  = negb (is_empty (strip data)).
Proof.
  unfold frame_lines.
  destruct (strip_head data) as [->|(c & r & -> & Hc)]; [done|].
  cbn [split_on is_empty negb].
  assert (Ascii.eqb c newline = false) as ->.
  { apply Ascii.eqb_neq. intros ->. done. }
  destruct (split_on newline r) as [|line lines];
    cbn [existsb]; by rewrite blank_head.
Qed.

(** X20.  A frame of white space only (the empty frame included) leaves the
    handler as it is, tables and snapshot count included; every other frame
    ends in one snapshot, whatever its lines hold. *)
Theorem snapshot_iff_frame_not_white h data :
  (is_empty (strip data) = true → process_data h data = h)
  ∧ (is_empty (strip data) = false →
     emitted (process_data h data) = S (emitted h)).
Proof.
  rewrite process_data_eq, frame_lines_blank.
  destruct (is_empty (strip data)); simpl; split; try done.
  intros _. by rewrite emitted_handle_session_update.
Qed.

(** ** Closing the client *)

Lemma connect_each_snoc ws_urls ws_url hw :
  connect_each (ws_urls ++ [ws_url]) hw
  = (connect {| WebSocketApp_call := Returns; Thread_start := Returns |}
       ws_url (connect_each ws_urls hw).1 (connect_each ws_urls hw).2).1.
Proof. unfold connect_each. by rewrite foldl_app. Qed.

Lemma connect_each_state ws_urls :
  ∀ h w,
    threads_created w = sockets_created w →
    workers_started w = seq 0 (sockets_created w) →
    let hw := connect_each ws_urls (h, w) in
    sockets_created hw.2 = (sockets_created w + length ws_urls)%nat
    ∧ threads_created hw.2 = sockets_created hw.2
    ∧ workers_started hw.2 = seq 0 (sockets_created hw.2)
    ∧ session hw.1 = session h
    ∧ (ws_urls ≠ [] →
       websocket hw.1 = Some (sockets_created hw.2 - 1)%nat
       ∧ listen_thread hw.1 = Some (sockets_created hw.2 - 1)%nat
       ∧ running hw.1 = true).
Proof.
  induction ws_urls as [|ws_url ws_urls IH] using rev_ind; intros h w Ht Hw.
  - simpl. split_and!; [lia|done..].
  - cbv zeta. rewrite connect_each_snoc.
    destruct (IH h w Ht Hw) as (Hs & Ht' & Hw' & Hse & _).
    destruct (connect_each ws_urls (h, w)) as [h1 w1]. simpl in *.
    rewrite length_app. simpl. split_and!.
    + lia.
    + by rewrite Ht'.
    + rewrite Hw'. exact (eq_sym (seq_S (sockets_created w1) 0)).
    + done.
    + intros _. rewrite Ht', Nat.sub_0_r. done.
Qed.

(** X21.  [disconnect] calls [close] on the socket that the handler holds,
    which is the one of the last [connect], and on no other: of the sockets
    of [n + 1] successful calls of [connect] the first [n] keep their
    worker and are never closed.  [disconnect] lowers [running] and leaves
    the socket in the handler, so that a second call closes it again. *)
Theorem disconnect_closes_last_socket_only ws_urls ws_url is_alive :
  workers_started (connected (ws_urls ++ [ws_url])).2
  = seq 0 (S (length ws_urls))
  ∧ closed (disconnect is_alive (connected (ws_urls ++ [ws_url])).1
              (connected (ws_urls ++ [ws_url])).2).2
    = [length ws_urls]
  ∧ running (disconnect is_alive (connected (ws_urls ++ [ws_url])).1
               (connected (ws_urls ++ [ws_url])).2).1.1
    = false
  ∧ websocket (disconnect is_alive (connected (ws_urls ++ [ws_url])).1
                 (connected (ws_urls ++ [ws_url])).2).1.1
    = Some (length ws_urls).
Proof.
  unfold connected.
  destruct (connect_each_state (ws_urls ++ [ws_url]) new_Handler new_World)
    as (Hs & _ & Hw & _ & Hl); [done..|].
  destruct Hl as (Hsock & _ & _); [by destruct ws_urls|].
  rewrite length_app in Hs. simpl in Hs.
  destruct (connect_each _ _) as [h w]. simpl in *.
  rewrite Hw, Hsock, Hs.
  replace (length ws_urls + 1)%nat with (S (length ws_urls)) by lia.
  simpl. by rewrite Nat.sub_0_r.
Qed.

(** ** The key retriever *)

Ltac list_membership :=
  cbn [fst snd]; rewrite ?elem_of_app, ?elem_of_cons, ?elem_of_nil;
  intuition congruence.

Ltac no_link :=
  cbn [fst snd]; split; [list_membership|intros (? & ? & ?); congruence].

Lemma all_digits_string_of_uint d :
  all_digits (NilEmpty.string_of_uint d) = true.
Proof. induction d; simpl; done. Qed.

Lemma isdigit_string_of_uint d :
  isdigit (NilZero.string_of_uint d) = true.
Proof.
  unfold isdigit. destruct d; try done; simpl;
    by rewrite all_digits_string_of_uint.
Qed.

(** [str(n).isdigit()] holds of the integers from 0 on. *)
Lemma isdigit_str_of_Z n : isdigit (str_of_Z n) = true ↔ 0 ≤ n.
Proof.
  unfold str_of_Z. destruct n as [|p|p]; simpl.
  - done.
  - split; [lia|]. intros _. apply isdigit_string_of_uint.
  - split; [done|lia].
Qed.

Lemma validate_race_id_returns b race_id :
  (validate_race_id b race_id).2 = None
  ↔ match race_id with
    | IdNone => isdigit (typed b) = true
    | IdStr s => isdigit (if is_empty s then typed b else s) = true
    | IdInt n => 0 < n ∨ (n = 0 ∧ isdigit (typed b) = true)
    end.
Proof.
  unfold validate_race_id. destruct race_id as [|s|n]; simpl.
  - destruct (isdigit (typed b)); simpl; split; done.
  - destruct (is_empty s); simpl.
    + destruct (isdigit (typed b)); simpl; split; done.
    + destruct (isdigit s); simpl; split; done.
  - destruct (Z.eqb_spec n 0) as [->|Hn]; simpl.
    + destruct (isdigit (typed b)); simpl; split; try done.
      * intros _. by right.
      * intros [?|[_ ?]]; [lia|done].
    + pose proof (isdigit_str_of_Z n) as H.
      destruct (isdigit (str_of_Z n)); simpl; split; try done.
      * intros _. left. assert (0 ≤ n) by (by apply H). lia.
      * intros [?|[? _]]; [|done]. assert (0 ≤ n) as Hp by lia.
        apply H in Hp. done.
Qed.

(** X22.  [validate_race_id] returns for an argument that is a string of
    digits or a positive integer; [None], the empty string and 0 make it
    prompt, and then it returns when the typed line is a string of digits.
    In every other case, a negative integer among them, it raises
    [ValueError]. *)
Theorem validate_race_id_accepts b race_id :
  (validate_race_id b race_id).2 = None
  ↔ match race_id with
    | IdNone => isdigit (typed b) = true
    | IdStr s => isdigit (if is_empty s then typed b else s) = true
    | IdInt n => 0 < n ∨ (n = 0 ∧ isdigit (typed b) = true)
    end.
Proof. apply validate_race_id_returns. Qed.

Lemma validate_race_id_events b race_id :
  (validate_race_id b race_id).1
  = if truthy race_id then [] else [Prompt].
Proof.
  unfold validate_race_id. destruct (truthy race_id) eqn:E.
  - destruct race_id as [|s|n]; simpl in *; try done; by destruct (isdigit _).
  - simpl. by destruct (isdigit _).
Qed.

Lemma fetch_quit b events url on_timeout on_error :
  Quit ∉ events →
  (∀ l k, on_timeout ≠ Link l k) → (∀ l k, on_error ≠ Link l k) →
  Quit ∈ (fetch b events url on_timeout on_error).1
  ↔ ∃ l k, (fetch b events url on_timeout on_error).2 = Link l k.
Proof.
  intros He H1 H2. unfold fetch.
  repeat case_match; simpl; rewrite ?elem_of_app, ?list_elem_of_singleton;
    split; try tauto; try (intros (? & ? & ?); congruence); eauto;
    intros [?|?]; done.
Qed.

Lemma fetch_navigate b events url on_timeout on_error u :
  Navigate u ∈ (fetch b events url on_timeout on_error).1 →
  Navigate u ∈ events ∨ u = url.
Proof.
  unfold fetch.
  repeat case_match; simpl; rewrite ?elem_of_app, ?list_elem_of_singleton;
    intuition congruence.
Qed.

(** X23.  The method asks for the page of the argument as it was passed,
    and only after the id, the typed one when the argument is missing, was
    found to be a string of digits: when the id was typed, the page asked
    for is that of [None], of the empty string or of 0, whatever was
    typed. *)
Theorem retriever_asks_for_the_argument b race_id url :
  Navigate url ∈ (get_link_and_key b race_id).1 →
  url = timing_url (fstr race_id)
  ∧ isdigit (if truthy race_id then fstr race_id else typed b) = true.
Proof.
  unfold get_link_and_key.
  pose proof (validate_race_id_events b race_id) as He.
  pose proof (validate_race_id_returns b race_id) as Ha.
  destruct (validate_race_id b race_id) as [events [e|]]; simpl in *.
  { rewrite He. destruct (truthy race_id); list_membership. }
  assert (Navigate url ∉ events) as Hn.
  { rewrite He. destruct (truthy race_id); list_membership. }
  assert (isdigit (if truthy race_id then fstr race_id else typed b) = true)
    as Hd.
  { destruct Ha as [Ha _]. specialize (Ha eq_refl).
    destruct race_id as [|s|n]; simpl in *; [done| |].
    - by destruct (is_empty s).
    - destruct (Z.eqb_spec n 0); simpl;
        [destruct Ha as [?|[_ ?]]; [lia|done]|].
      apply isdigit_str_of_Z. lia. }
  destruct (selenium_installed b); simpl; [|done].
  destruct (chrome_starts b); simpl; [|done].
  intros [H| ->]%fetch_navigate; [|done].
  revert H. list_membership.
Qed.

(** X23, witness: no argument, and 140 typed at the prompt. *)
Lemma retriever_asks_for_the_argument_witness :
  "https://api.race-monitor.com/Timing/?raceid=None"
  = timing_url (fstr IdNone).
Proof.
  apply (retriever_asks_for_the_argument
    {| typed := "140"; selenium_installed := true; chrome_starts := true;
       page_load := TimedOut; performance_log := [];
       url_of := λ _, None; key_of := λ _, None |} IdNone
    "https://api.race-monitor.com/Timing/?raceid=None").
  vm_compute. do 2 apply list_elem_of_further. apply list_elem_of_here.
Defined.

(** X24.  The script function rejects every string: for an argument that
    is a string and not empty, a string of digits included, it returns
    [(None, None)] without asking for a page, after Chrome was started and
    without [driver.quit()]. *)
Theorem script_rejects_every_string b s :
  chrome_starts b = true → s ≠ "" →
  GetLinkAndKey b (IdStr s) = ([StartChrome], NoLink).
Proof.
  intros Hc Hs. unfold GetLinkAndKey. rewrite Hc. simpl.
  by destruct s.
Qed.

(** X24, witness: the id 140 as a string. *)
Lemma script_rejects_every_string_witness :
  GetLinkAndKey
    {| typed := ""; selenium_installed := true; chrome_starts := true;
       page_load := Loaded; performance_log := [];
       url_of := λ _, None; key_of := λ _, None |} (IdStr "140")
  = ([StartChrome], NoLink).
Proof.
  apply (script_rejects_every_string
    {| typed := ""; selenium_installed := true; chrome_starts := true;
       page_load := Loaded; performance_log := [];
       url_of := λ _, None; key_of := λ _, None |} "140");
    [reflexivity|discriminate].
Defined.

(** X25.  Both functions call [driver.quit()] on the way that ends with a
    link and a key, and on no other: after a timeout, a failed load, a log
    without the two messages or a message that does not decode, the
    browser that was started is left running. *)
Theorem browser_quit_only_with_a_link b race_id :
  (Quit ∈ (get_link_and_key b race_id).1
   ↔ ∃ l k, (get_link_and_key b race_id).2 = Link l k)
  ∧ (Quit ∈ (GetLinkAndKey b race_id).1
     ↔ ∃ l k, (GetLinkAndKey b race_id).2 = Link l k).
Proof.
  split.
  - unfold get_link_and_key.
    pose proof (validate_race_id_events b race_id) as He.
    destruct (validate_race_id b race_id) as [events [e|]]; simpl in *.
    { rewrite He. destruct (truthy race_id); no_link. }
    assert (Quit ∉ events) as Hn.
    { rewrite He. destruct (truthy race_id); list_membership. }
    destruct (selenium_installed b); simpl; [|no_link].
    destruct (chrome_starts b); simpl; [|no_link].
    apply fetch_quit; [list_membership|done..].
  - unfold GetLinkAndKey.
    destruct (chrome_starts b); simpl; [|no_link].
    destruct (truthy race_id); simpl.
    + destruct race_id; [no_link..|].
      apply fetch_quit; [list_membership|done..].
    + apply fetch_quit; [list_membership|done..].
Qed.

(** ** The logger *)

(** X26.  A logger that [CustomLogger] builds has a handler: the file
    handler exactly when [log_to_file] holds a true value, and the console
    handler unless [log_to_console] holds a false one, so also when the key
    is missing, which the constructor lets pass when [log_to_file] is true.
    [FailInitLogging] is raised exactly when the level is known and either
    [enabled] is false, or it is true and both switches are false. *)
Theorem logger_has_a_handler config :
  (∀ handlers,
     CustomLogger config = inr handlers →
     handlers ≠ []
     ∧ (FileHandler ∈ handlers ↔ cfg_log_to_file config = Some true)
     ∧ (StreamHandler ∈ handlers ↔ cfg_log_to_console config ≠ Some false))
  ∧ (CustomLogger config = inl FailInitLogging
     ↔ cfg_level_known config = true
       ∧ (cfg_enabled config = Some false
          ∨ (cfg_enabled config = Some true
             ∧ cfg_log_to_file config = Some false
             ∧ cfg_log_to_console config = Some false))).
Proof.
  unfold CustomLogger, _setup_handlers.
  destruct config as [[[]|] [[]|] [[]|] [] [] []]; simpl; split;
    try (intros handlers [= <-]; split_and!;
         rewrite ?elem_of_cons, ?elem_of_nil; intuition congruence);
    try (intros handlers [=]);
    intuition congruence.
Qed.

(** ** Differences are unsigned *)

Lemma format_time_difference_signed n :
  n ≠ 0 → ∃ r, _format_time_difference n = String "+" r.
Proof.
  intros Hn. unfold _format_time_difference.
  rewrite (proj2 (Z.eqb_neq n 0) Hn).
  destruct (0 <? _); [|destruct (0 <? _)]; eauto.
Qed.



(** ** Reset, as the tables show it *)

Lemma handle_session_update_empty h :
  competitors (session h) = [] →
  session (handle_session_update h)
  = assign_sorted_competitors [] (session h)
  ∧ competitors_df (handle_session_update h) = []
  ∧ session_df (handle_session_update h) = [session_row (session h)].
Proof.
  intros He.
  destruct (handle_session_update_parts h) as (-> & -> & -> & _).
  assert (sort_competitors (session h)
          = assign_sorted_competitors [] (session h)) as ->.
  { unfold sort_competitors. rewrite He. by destruct (sort_mode (session h)). }
  done.
Qed.

(** X28.  A frame whose last line is [$I] leaves no competitor and an empty
    [competitors_df]; the row of [session_df] is empty in every column but
    [TrackLength] and [SortMode], which show what the records before the
    reset have left: the track length is not reset. *)
Theorem reset_clears_the_tables h lines data :
  frame_lines data = lines ++ ["$I"] →
  get_competitors (process_data h data) = []
  ∧ competitors_df (process_data h data) = []
  ∧ session_cells <$> session_df (process_data h data)
    = [[""; ""; "";
        track_length
          (replay (List.filter (λ line, negb (blank line)) lines) (session h));
        ""; ""; ""; ""; "";
        SortMode_name
          (sort_mode
             (replay (List.filter (λ line, negb (blank line)) lines)
                (session h)))]].
Proof.
  intros Hl. rewrite process_data_eq, Hl.
  assert (existsb (λ l, negb (blank l)) (lines ++ ["$I"]) = true) as ->.
  { rewrite existsb_app. apply orb_true_iff. by right. }
  rewrite process_lines_replay, List.filter_app, replay_app.
  set (s := replay (List.filter _ lines) (session h)).
  change (replay (List.filter _ ["$I"]) s) with (reset_session s).
  destruct (handle_session_update_empty
              (assign_session (reset_session s) h)) as (Hs & Hc & Hd); [done|].
  unfold get_competitors. rewrite Hs, Hc, Hd. done.
Qed.

(** X28, witness: the track length, the two-car race, and a reset. *)
Lemma reset_clears_the_tables_witness :
  session_cells
    <$> session_df
          (process_data new_Handler
             (frame ["$E,TRACKLENGTH,4309"; "$A,1,11,T1,Ayrton,Senna,BR,A";
                     "$I"]))
  = [[""; ""; ""; "4309"; ""; ""; ""; ""; ""; "RACE"]].
Proof.
  apply (reset_clears_the_tables new_Handler
           ["$E,TRACKLENGTH,4309"; "$A,1,11,T1,Ayrton,Senna,BR,A"]
           (frame ["$E,TRACKLENGTH,4309"; "$A,1,11,T1,Ayrton,Senna,BR,A";
                   "$I"])).
  vm_compute. reflexivity.
Defined.
